(** * pyome: a shallow embedding of the order book and of the engine
    (order.py, book.py, engine.py)

    Orders are Python objects that are shared between a book's queues and the
    callers holding them as handles, and the book mutates them in place.  The
    embedding therefore keeps an explicit object store: an order handle is a
    location in the store, a queue is a list of locations (the array that
    [heapq] maintains), and attribute assignments are store updates.

    Prices are Python floats.  The book only compares them, so they are
    embedded as IEEE-754 values ([spec_float]) with the IEEE comparisons;
    quantities and ids are Python integers, embedded as [Z]. *)

From Stdlib Require Import ZArith Bool Lia.
From Stdlib Require Import Floats.SpecFloat.
From stdpp Require Import base tactics option list strings gmap.

Local Open Scope Z_scope.

(** ** Outcomes of a call

    [Raise] is a Python exception that propagates out of the call;
    [OutOfFuel] is the bound of a modelled [while] loop being hit (the
    theorems below show that it never is). *)

Inductive result (A : Type) : Type :=
| Ok (a : A)
| Raise
| OutOfFuel.
Arguments Ok {A} a.
Arguments Raise {A}.
Arguments OutOfFuel {A}.

Definition result_bind {A B} (f : A -> result B) (m : result A) : result B :=
  match m with
  | Ok a => f a
  | Raise => Raise
  | OutOfFuel => OutOfFuel
  end.

#[global] Instance result_ret : MRet result := fun _ a => Ok a.
#[global] Instance result_mbind : MBind result := fun _ _ f m => result_bind f m.

(** ** order.py *)

Inductive Type_ := MARKET | LIMIT.
Inductive Side := BUY | SELL.

#[global] Instance Type__eq_dec : EqDecision Type_.
Proof. solve_decision. Defined.
#[global] Instance Side_eq_dec : EqDecision Side.
Proof. solve_decision. Defined.

Definition price_t := spec_float.

Record Order := mkOrder {
  order_id : Z;
  order_type : Type_;
  order_side : Side;
  quantity : Z;
  price : price_t;
  stock : string
}.

(** Python's float comparisons: [==], [<], [>], [<=], [>=]. *)
Definition float_eq (x y : price_t) : bool := SFeqb x y.
Definition float_lt (x y : price_t) : bool := SFltb x y.
Definition float_gt (x y : price_t) : bool := SFltb y x.
Definition float_le (x y : price_t) : bool := SFleb x y.
Definition float_ge (x y : price_t) : bool := SFleb y x.

(** [float("inf")], the default price of [Book.add_order]. *)
Definition float_inf : price_t := S754_infinity false.

(** [Order.__lt__] *)
Definition Order_lt (self other : Order) : result bool :=
  if negb (bool_decide (order_side self = order_side other)) then Raise
  else if float_eq (price self) (price other) then
    Ok (order_id self <? order_id other)
  else match order_side self with
       | SELL => Ok (float_lt (price self) (price other))
       | BUY => Ok (float_gt (price self) (price other))
       end.

(** ** heapq (Python's standard library), on a list used as an array

    [heappush] and [heappop] with their helpers [_siftdown] and [_siftup],
    over any item type with a [<] that may raise. *)

Section heapq.
Context {A : Type} (lt : A -> A -> result bool).

Definition getitem (heap : list A) (i : nat) : result A :=
  match heap !! i with
  | Some x => Ok x
  | None => Raise
  end.

Definition setitem (heap : list A) (i : nat) (x : A) : result (list A) :=
  if decide (i < length heap)%nat then Ok (<[i := x]> heap) else Raise.

(** The [while pos > startpos] loop of [_siftdown]. *)
Fixpoint siftdown_loop (fuel : nat) (heap : list A) (startpos pos : nat)
    (newitem : A) : result (list A) :=
  if decide (startpos < pos)%nat then
    match fuel with
    | O => OutOfFuel
    | S fuel' =>
        let parentpos := Nat.div2 (pos - 1) in
        parent ← getitem heap parentpos;
        b ← lt newitem parent;
        if b : bool then
          heap' ← setitem heap pos parent;
          siftdown_loop fuel' heap' startpos parentpos newitem
        else setitem heap pos newitem
    end
  else setitem heap pos newitem.

Definition _siftdown (heap : list A) (startpos pos : nat) : result (list A) :=
  newitem ← getitem heap pos;
  siftdown_loop pos heap startpos pos newitem.

(** The [while childpos < endpos] loop of [_siftup]; it returns the heap
    and the final [pos]. *)
Fixpoint siftup_loop (fuel : nat) (heap : list A) (endpos pos : nat)
    : result (list A * nat) :=
  let childpos := (2 * pos + 1)%nat in
  if decide (childpos < endpos)%nat then
    match fuel with
    | O => OutOfFuel
    | S fuel' =>
        let rightpos := (childpos + 1)%nat in
        childpos' ←
          (if decide (rightpos < endpos)%nat then
             l ← getitem heap childpos;
             r ← getitem heap rightpos;
             b ← lt l r;
             Ok (if b : bool then childpos else rightpos)
           else Ok childpos);
        c ← getitem heap childpos';
        heap' ← setitem heap pos c;
        siftup_loop fuel' heap' endpos childpos'
    end
  else Ok (heap, pos).

Definition _siftup (heap : list A) (pos : nat) : result (list A) :=
  let endpos := length heap in
  let startpos := pos in
  newitem ← getitem heap pos;
  '(heap1, pos1) ← siftup_loop endpos heap endpos pos;
  heap2 ← setitem heap1 pos1 newitem;
  _siftdown heap2 startpos pos1.

Definition heappush (heap : list A) (item : A) : result (list A) :=
  let heap' := heap ++ [item] in
  _siftdown heap' 0 (length heap' - 1).

(** [list.pop()]: the list without its last item, and that item. *)
Definition list_pop (l : list A) : result (list A * A) :=
  match last l with
  | Some x => Ok (removelast l, x)
  | None => Raise
  end.

(** [heappop] returns the remaining heap and the popped item. *)
Definition heappop (heap : list A) : result (list A * A) :=
  '(heap1, lastelt) ← list_pop heap;
  match heap1 with
  | [] => Ok (heap1, lastelt)
  | returnitem :: _ =>
      heap2 ← setitem heap1 0 lastelt;
      heap3 ← _siftup heap2 0;
      Ok (heap3, returnitem)
  end.
End heapq.

(** ** book.py *)

(** An order handle: the location of the [Order] object in the store. *)
Abbreviation loc := nat.

(** A trade, as the book records it: [(quantity, price)]. *)
Definition trade : Type := Z * price_t.

Record Book := mkBook {
  book_stock : string;
  sell_queue : list loc;   (* min heap *)
  buy_queue : list loc     (* max heap *)
}.

(** The program state: the [Order] objects allocated so far and the book. *)
Record state := mkState {
  objs : list Order;
  book : Book
}.

(** [Book.__init__] *)
Definition Book_init (stock : string) : Book := mkBook stock [] [].

Definition init_state (stock : string) : state := mkState [] (Book_init stock).

(** Attribute reads and writes through a handle. *)
Definition deref (s : list Order) (r : loc) : result Order := getitem s r.

Definition with_quantity (o : Order) (q : Z) : Order :=
  mkOrder (order_id o) (order_type o) (order_side o) q (price o) (stock o).

Definition with_order_id (o : Order) (i : Z) : Order :=
  mkOrder i (order_type o) (order_side o) (quantity o) (price o) (stock o).

Definition set_quantity (s : list Order) (r : loc) (q : Z) : result (list Order) :=
  o ← deref s r; Ok (<[r := with_quantity o q]> s).

Definition set_order_id (s : list Order) (r : loc) (i : Z) : result (list Order) :=
  o ← deref s r; Ok (<[r := with_order_id o i]> s).

(** [a < b] on two handles, as [heapq] evaluates it. *)
Definition lt_loc (s : list Order) (a b : loc) : result bool :=
  oa ← deref s a; ob ← deref s b; Order_lt oa ob.

(** The [compare] closure of [add_limit_order]. *)
Definition compare (side : Side) (x y : price_t) : bool :=
  match side with
  | BUY => float_ge x y
  | SELL => float_le x y
  end.

(** The body of the matching [while] loop; [add_limit_order] and
    [add_market_order] have the same body.  It acts on the store, on the
    opposite queue, on the local variable [top_order] and on [trades]. *)
Definition match_body (order : loc) (s : list Order) (queue : list loc)
    (top_order : loc) (trades : list trade)
    : result (list Order * list loc * loc * list trade) :=
  o ← deref s order;
  t ← deref s top_order;
  if quantity t <=? quantity o then
    '(s2, trades1) ←
      (if 0 <? quantity t then
         let trades1 := trades ++ [(quantity t, price t)] in
         s1 ← set_quantity s order (quantity o - quantity t);
         s2 ← set_quantity s1 top_order 0;
         Ok (s2, trades1)
       else Ok (s, trades));
    '(queue1, _) ← heappop (lt_loc s2) queue;
    let top_order1 := match queue1 with [] => top_order | x :: _ => x end in
    Ok (s2, queue1, top_order1, trades1)
  else
    s1 ← set_quantity s top_order (quantity t - quantity o);
    o1 ← deref s1 order;
    t1 ← deref s1 top_order;
    let trades1 := trades ++ [(quantity o1, price t1)] in
    s2 ← set_quantity s1 order 0;
    Ok (s2, queue, top_order, trades1).

(** [queue and order.quantity > 0 and compare(order.price, top_order.price)] *)
Definition limit_cond (cmp : price_t -> price_t -> bool) (order : loc)
    (s : list Order) (queue : list loc) (top_order : loc) : result bool :=
  match queue with
  | [] => Ok false
  | _ :: _ =>
      o ← deref s order;
      if 0 <? quantity o then
        t ← deref s top_order;
        Ok (cmp (price o) (price t))
      else Ok false
  end.

(** [queue and order.quantity > 0] *)
Definition market_cond (order : loc) (s : list Order) (queue : list loc)
    : result bool :=
  match queue with
  | [] => Ok false
  | _ :: _ => o ← deref s order; Ok (0 <? quantity o)
  end.

Fixpoint limit_loop (fuel : nat) (cmp : price_t -> price_t -> bool)
    (order : loc) (s : list Order) (queue : list loc) (top_order : loc)
    (trades : list trade) : result (list Order * list loc * list trade) :=
  c ← limit_cond cmp order s queue top_order;
  if c : bool then
    match fuel with
    | O => OutOfFuel
    | S fuel' =>
        '(s1, queue1, top_order1, trades1) ←
          match_body order s queue top_order trades;
        limit_loop fuel' cmp order s1 queue1 top_order1 trades1
    end
  else Ok (s, queue, trades).

Fixpoint market_loop (fuel : nat) (order : loc) (s : list Order)
    (queue : list loc) (top_order : loc) (trades : list trade)
    : result (list Order * list loc * list trade) :=
  c ← market_cond order s queue;
  if c : bool then
    match fuel with
    | O => OutOfFuel
    | S fuel' =>
        '(s1, queue1, top_order1, trades1) ←
          match_body order s queue top_order trades;
        market_loop fuel' order s1 queue1 top_order1 trades1
    end
  else Ok (s, queue, trades).

(** The queue an order of side [side] matches against, and its own. *)
Definition opposite_queue (side : Side) (b : Book) : list loc :=
  match side with BUY => sell_queue b | SELL => buy_queue b end.

Definition own_queue (side : Side) (b : Book) : list loc :=
  match side with BUY => buy_queue b | SELL => sell_queue b end.

Definition set_queues (side : Side) (b : Book) (queue order_queue : list loc)
    : Book :=
  match side with
  | BUY => mkBook (book_stock b) queue order_queue
  | SELL => mkBook (book_stock b) order_queue queue
  end.

(** [Book.add_limit_order] *)
Definition add_limit_order (order : loc) (st : state)
    : result (state * list trade) :=
  o ← deref (objs st) order;
  let side := order_side o in
  let queue := opposite_queue side (book st) in
  let order_queue := own_queue side (book st) in
  '(s1, queue1, trades) ←
    match queue with
    | [] => Ok (objs st, queue, [])
    | top_order :: _ =>
        limit_loop (length queue) (compare side) order (objs st) queue
          top_order []
    end;
  o1 ← deref s1 order;
  order_queue1 ←
    (if 0 <? quantity o1 then heappush (lt_loc s1) order_queue order
     else Ok order_queue);
  Ok (mkState s1 (set_queues side (book st) queue1 order_queue1), trades).

(** [Book.add_market_order] *)
Definition add_market_order (order : loc) (st : state)
    : result (state * list trade) :=
  o ← deref (objs st) order;
  let side := order_side o in
  let queue := opposite_queue side (book st) in
  '(s1, queue1, trades) ←
    match queue with
    | [] => Ok (objs st, queue, [])
    | top_order :: _ =>
        market_loop (length queue) order (objs st) queue top_order []
    end;
  Ok (mkState s1 (set_queues side (book st) queue1 (own_queue side (book st))),
      trades).

(** [Book.add_order]: the new [Order] object is allocated at the end of the
    store; the call returns its handle together with the trades. *)
Definition add_order (oid : Z) (otype : Type_) (oside : Side) (qty : Z)
    (prc : price_t) (stk : string) (st : state)
    : result (state * loc * list trade) :=
  let order := length (objs st) in
  let st1 := mkState (objs st ++ [mkOrder oid otype oside qty prc stk]) (book st) in
  o ← deref (objs st1) order;
  '(st2, trades) ←
    (if decide (order_type o = LIMIT) then add_limit_order order st1
     else add_market_order order st1);
  Ok (st2, order, trades).

(** [Book.delete_order] *)
Definition delete_order (order : loc) (st : state) : result state :=
  s ← set_quantity (objs st) order 0;
  Ok (mkState s (book st)).

(** [Book.modify_order] *)
Definition modify_order (order : loc) (qty : Z) (prc : price_t) (st : state)
    : result (state * loc * list trade) :=
  o ← deref (objs st) order;
  let new_order_id := order_id o in
  s1 ← set_order_id (objs st) order (-1);
  st2 ← delete_order order (mkState s1 (book st));
  o2 ← deref (objs st2) order;
  add_order new_order_id (order_type o2) (order_side o2) qty prc (stock o2) st2.

(** * Specification vocabulary *)

(** [math.isnan] on a price. *)
Definition is_nan (x : spec_float) : bool :=
  match x with S754_nan => true | _ => false end.

Definition parent (i : nat) : nat := Nat.div2 (i - 1).

Section heap_order.
Context {A : Type} (le : A -> A -> Prop).

Definition edge_ok (l : list A) (i : nat) : Prop :=
  forall x p, l !! i = Some x -> l !! parent i = Some p -> le p x.

Definition heap_ordered (l : list A) : Prop :=
  forall i, (0 < i)%nat -> edge_ok l i.

Definition grand_ok (l : list A) (k : nat) : Prop :=
  (0 < k)%nat ->
  forall c y g, (0 < c)%nat -> parent c = k ->
    l !! c = Some y -> l !! parent k = Some g -> le g y.

Definition ordered_except (l : list A) (k : nat) : Prop :=
  (forall i, (0 < i)%nat -> i <> k -> edge_ok l i) /\ grand_ok l k.

Definition down_inv (l : list A) (k : nat) : Prop :=
  (forall i, (0 < i)%nat -> parent i <> k -> edge_ok l i) /\ grand_ok l k.
End heap_order.

(** What the heap lemmas need of [<]: on the items [D] it returns, and its
    answers agree with a preorder [le]. *)
Record heap_cmp {A : Type} (lt : A -> A -> result bool) (le : A -> A -> Prop)
    (D : A -> Prop) : Prop := {
  cmp_total : forall x y, D x -> D y -> exists b, lt x y = Ok b;
  cmp_refl : forall x, D x -> le x x;
  cmp_trans : forall x y z, le x y -> le y z -> le x z;
  cmp_lt : forall x y, D x -> D y -> lt x y = Ok true -> le x y;
  cmp_nlt : forall x y, D x -> D y -> lt x y = Ok false -> le y x
}.

(** [better side x y]: a resting order priced [x] has at least the priority
    of one priced [y] on [side]. *)
Definition better (side : Side) (x y : price_t) : Prop :=
  match side with
  | SELL => float_le x y = true
  | BUY => float_ge x y = true
  end.

(** The handle [r] is an order of side [side] in the store. *)
Definition on_side (s : list Order) (side : Side) (r : loc) : Prop :=
  exists o, s !! r = Some o /\ order_side o = side.

Definition priced (s : list Order) (side : Side) (r : loc) : Prop :=
  exists o, s !! r = Some o /\ order_side o = side /\ is_nan (price o) = false.

Definition ple (s : list Order) (side : Side) (a b : loc) : Prop :=
  exists oa ob, s !! a = Some oa /\ s !! b = Some ob /\
    better side (price oa) (price ob).

(** Two stores that hold the same orders up to quantities and ids. *)
Definition same_keys (s s' : list Order) : Prop :=
  length s = length s' /\
  forall r o, s !! r = Some o ->
    exists o', s' !! r = Some o' /\ order_side o' = order_side o /\
      price o' = price o /\ order_type o' = order_type o /\ stock o' = stock o.

Definition opp (side : Side) : Side :=
  match side with BUY => SELL | SELL => BUY end.

(** The state of the matching loop is well formed: the incoming order is an
    order of [side], the opposite queue holds orders of the other side, and
    [top_order] is an order of the other side that is the first entry of the
    queue while there is one. *)
Record loop_wf (order : loc) (side : Side) (s : list Order)
    (queue : list loc) (top_order : loc) : Prop := {
  lw_order : on_side s side order;
  lw_queue : Forall (on_side s (opp side)) queue;
  lw_top : on_side s (opp side) top_order;
  lw_head : queue <> [] -> head queue = Some top_order
}.

(** Every entry of a queue is an order of that queue's side. *)
Definition book_ok (st : state) : Prop :=
  forall side, Forall (on_side (objs st) side) (own_queue side (book st)).

Definition on_sideb (s : list Order) (side : Side) (r : loc) : bool :=
  match s !! r with
  | Some o => bool_decide (order_side o = side)
  | None => false
  end.

Definition book_okb (st : state) : bool :=
  forallb (on_sideb (objs st) SELL) (sell_queue (book st)) &&
  forallb (on_sideb (objs st) BUY) (buy_queue (book st)).

(** The crossing test of a submission: [compare] for a limit order, none
    for a market order. *)
Definition crossing (otype : Type_) (side : Side) : price_t -> price_t -> bool :=
  match otype with
  | LIMIT => compare side
  | MARKET => fun _ _ => true
  end.

(** Why the matching loop stopped. *)
Definition loop_exit (cmp : price_t -> price_t -> bool) (s : list Order)
    (order : loc) (queue : list loc) : Prop :=
  queue = [] \/
  (exists o, s !! order = Some o /\ quantity o <= 0) \/
  (exists o top t, s !! order = Some o /\ head queue = Some top /\
     s !! top = Some t /\ cmp (price o) (price t) = false).

(** What a run of the loop body does to the two orders it touches. *)
Inductive body_case (order top : loc) (s : list Order) (trades : list trade)
    (o t : Order) (s' : list Order) (trades' : list trade) : Prop :=
| body_fill :
    0 < quantity t -> quantity t <= quantity o ->
    s' !! order = Some (with_quantity o (quantity o - quantity t)) ->
    s' !! top = Some (with_quantity t 0) ->
    trades' = trades ++ [(quantity t, price t)] ->
    body_case order top s trades o t s' trades'
| body_skip :
    quantity t <= 0 -> quantity t <= quantity o ->
    s' = s -> trades' = trades ->
    body_case order top s trades o t s' trades'
| body_partial :
    quantity o < quantity t ->
    s' !! order = Some (with_quantity o 0) ->
    s' !! top = Some (with_quantity t (quantity t - quantity o)) ->
    trades' = trades ++ [(quantity o, price t)] ->
    body_case order top s trades o t s' trades'.

Definition sum_quantities (trades : list trade) : Z :=
  foldr (fun t acc => t.1 + acc) 0 trades.

(** The quantity with which the order [r] rests in a queue of the book; 0
    when it is in neither queue. *)
Definition resting_quantity (st : state) (r : loc) : Z :=
  match objs st !! r with
  | Some o =>
      if bool_decide (r ∈ sell_queue (book st) \/ r ∈ buy_queue (book st))
      then quantity o else 0
  | None => 0
  end.

(** [float(z)] for an integer [z], as an IEEE-754 double. *)
Definition float_of_Z (z : Z) : price_t := binary_normalize 53 1024 z 0 false.

(** A book with one resting sell order, [sell 100 @ 10.00 (1)]. *)
Definition one_ask : state :=
  mkState [mkOrder 1 LIMIT SELL 100 (float_of_Z 10) "STOCK"]
          (mkBook "STOCK" [0%nat] []).

(** A book with one resting buy order, [buy 100 @ 10.00 (1)]. *)
Definition one_bid : state :=
  mkState [mkOrder 1 LIMIT BUY 100 (float_of_Z 10) "STOCK"]
          (mkBook "STOCK" [] [0%nat]).

(** The state in which [modify_order] submits the replacement: the old
    order relabelled -1 and cancelled. *)
Definition retired (o : Order) : Order := with_quantity (with_order_id o (-1)) 0.

(** What a limit submission hands back: the call returns, its first
    component is the handle of the order object it created (the next free
    location of the store), and that order is in its own side's queue
    exactly when quantity is left on it. *)
Definition returns_order (st : state) (side : Side)
    (res : result (state * loc * list trade)) : Prop :=
  exists st' trades o',
    res = Ok (st', length (objs st), trades) /\
    objs st' !! length (objs st) = Some o' /\
    0 <= quantity o' /\
    (length (objs st) ∈ own_queue side (book st') <-> 0 < quantity o') /\
    (length (objs st) ∉ opposite_queue side (book st')).

(** [matched order s0 q0 s q top trades]: the loop state [(s, q, top,
    trades)] is reached from the store [s0] and the opposite queue [q0],
    with no trades yet, by runs of the loop body for the incoming [order];
    each run is against the order [t] on top of the opposite queue, and it
    records the trade [(min(incoming remaining, resting remaining), price of
    t)] when [t] has quantity left, and no trade otherwise. *)
Inductive matched (order : loc) (s0 : list Order) (q0 : list loc)
    : list Order -> list loc -> loc -> list trade -> Prop :=
| matched_start top : matched order s0 q0 s0 q0 top []
| matched_step s q top trades o t s' q' top' trades' :
    matched order s0 q0 s q top trades ->
    head q = Some top -> s !! order = Some o -> s !! top = Some t ->
    0 < quantity o ->
    match_body order s q top trades = Ok (s', q', top', trades') ->
    trades' = trades ++
      (if 0 <? quantity t
       then [(Z.min (quantity o) (quantity t), price t)] else []) ->
    matched order s0 q0 s' q' top' trades'.

Definition loop_wfb (order : loc) (side : Side) (s : list Order)
    (queue : list loc) (top_order : loc) : bool :=
  on_sideb s side order && forallb (on_sideb s (opp side)) queue &&
  on_sideb s (opp side) top_order &&
  match queue with [] => true | x :: _ => bool_decide (x = top_order) end.

(** A book whose only ask, [sell 100 @ 10.00 (1)], has been cancelled. *)
Definition cancelled_ask : state :=
  mkState [mkOrder 1 LIMIT SELL 0 (float_of_Z 10) "STOCK"]
          (mkBook "STOCK" [0%nat] []).

(** A row of a column of the table of [Book.__repr__], before it is laid
    out as text: the quantity, price and id that the row shows. *)
Definition row : Type := Z * price_t * Z.

(** [copy.deepcopy(queue)]: the orders of the queue are copied into new
    objects at the end of the store; the copy of the queue lists the
    copies, in the queue's order. *)
Fixpoint deepcopy_orders (s : list Order) (queue : list loc)
    : result (list Order) :=
  match queue with
  | [] => Ok []
  | r :: queue' =>
      o ← deref s r;
      copies ← deepcopy_orders s queue';
      Ok (o :: copies)
  end.

Definition deepcopy (s : list Order) (queue : list loc)
    : result (list Order * list loc) :=
  copies ← deepcopy_orders s queue;
  Ok (s ++ copies, seq (length s) (length queue)).

(** The [while queue_copy] loop of [__repr__] that builds one column: pop
    the copy of the queue until it is empty, skipping orders without
    quantity. *)
Fixpoint column_loop (fuel : nat) (s : list Order) (queue_copy : list loc)
    (column : list row) : result (list row) :=
  match queue_copy with
  | [] => Ok column
  | _ :: _ =>
      match fuel with
      | O => OutOfFuel
      | S fuel' =>
          '(queue_copy', el) ← heappop (lt_loc s) queue_copy;
          e ← deref s el;
          if quantity e <=? 0 then column_loop fuel' s queue_copy' column
          else column_loop fuel' s queue_copy'
                 (column ++ [(quantity e, price e, order_id e)])
      end
  end.

(** [Book.__repr__], up to the layout of the rows as text: the rows of the
    buy column and of the sell column.  The state it returns holds the
    copies that [deepcopy] made. *)
Definition Book_repr_rows (st : state)
    : result (state * (list row * list row)) :=
  '(s1, buy_queue_copy) ← deepcopy (objs st) (buy_queue (book st));
  buy_column ← column_loop (length buy_queue_copy) s1 buy_queue_copy [];
  '(s2, sell_queue_copy) ← deepcopy s1 (sell_queue (book st));
  sell_column ← column_loop (length sell_queue_copy) s2 sell_queue_copy [];
  Ok (mkState s2 (book st), (buy_column, sell_column)).

(** The fields of an order other than its quantity and its id. *)
Definition same_static (o o' : Order) : Prop :=
  order_type o' = order_type o /\ order_side o' = order_side o /\
  price o' = price o /\ stock o' = stock o.


(** The calls that a user of a book makes. *)
Inductive call :=
| submit_limit (oid : Z) (side : Side) (qty : Z) (prc : price_t)
| submit_market (oid : Z) (side : Side) (qty : Z)
| cancel (r : loc)
| modify (r : loc) (qty : Z) (prc : price_t).

(** One call, with the book's instrument as [stock] and, for a market
    order, the default price of [add_order]. *)
Definition do_call (c : call) (st : state) : result state :=
  match c with
  | submit_limit oid side qty prc =>
      '(st', _, _) ← add_order oid LIMIT side qty prc (book_stock (book st)) st;
      Ok st'
  | submit_market oid side qty =>
      '(st', _, _) ←
        add_order oid MARKET side qty float_inf (book_stock (book st)) st;
      Ok st'
  | cancel r => delete_order r st
  | modify r qty prc =>
      '(st', _, _) ← modify_order r qty prc st; Ok st'
  end.

Fixpoint run (calls : list call) (st : state) : result state :=
  match calls with
  | [] => Ok st
  | c :: calls' => st' ← do_call c st; run calls' st'
  end.


(** The prices of the entries of a queue whose quantity is not 0. *)
Definition resting_prices (s : list Order) (queue : list loc) : list price_t :=
  omap (fun r => match s !! r with
                 | Some o => if quantity o =? 0 then None else Some (price o)
                 | None => None
                 end) queue.

(** The highest resting bid and the lowest resting ask, when there is one. *)
Definition best_bid (st : state) : option price_t :=
  match resting_prices (objs st) (buy_queue (book st)) with
  | [] => None
  | p :: ps => Some (foldl (fun m x => if float_gt x m then x else m) p ps)
  end.

Definition best_ask (st : state) : option price_t :=
  match resting_prices (objs st) (sell_queue (book st)) with
  | [] => None
  | p :: ps => Some (foldl (fun m x => if float_lt x m then x else m) p ps)
  end.

(** An order of [side] priced [px] and an order of the other side priced
    [py] do not cross: the bid is strictly below the ask. *)
Definition apart (side : Side) (px py : price_t) : Prop :=
  match side with
  | BUY => float_lt px py = true
  | SELL => float_lt py px = true
  end.

Definition uncrossed_from (st : state) (side : Side) : Prop :=
  forall x y ox oy,
    x ∈ own_queue side (book st) -> y ∈ own_queue (opp side) (book st) ->
    objs st !! x = Some ox -> objs st !! y = Some oy ->
    quantity ox <> 0 -> quantity oy <> 0 ->
    apart side (price ox) (price oy).

(** What the book keeps between calls: no queued price is a NaN, both
    queues are heaps for the price priority, and no resting bid reaches a
    resting ask. *)
Record book_inv (st : state) : Prop := {
  inv_priced : forall side,
    Forall (priced (objs st) side) (own_queue side (book st));
  inv_heap : forall side,
    heap_ordered (ple (objs st) side) (own_queue side (book st));
  inv_uncrossed : forall side, uncrossed_from st side
}.

(** The prices that a call brings into the book are numbers. *)
Definition call_priced (c : call) : Prop :=
  match c with
  | submit_limit _ _ _ prc | modify _ _ prc => is_nan prc = false
  | submit_market _ _ _ | cancel _ => True
  end.

(** Seven bids of 5 at 10.00 with the ids 1 to 7, then order 4 and order 1
    are modified (to the price and quantity they have). *)
Definition seven_bids_two_modified : list call :=
  [submit_limit 1 BUY 5 (float_of_Z 10); submit_limit 2 BUY 5 (float_of_Z 10);
   submit_limit 3 BUY 5 (float_of_Z 10); submit_limit 4 BUY 5 (float_of_Z 10);
   submit_limit 5 BUY 5 (float_of_Z 10); submit_limit 6 BUY 5 (float_of_Z 10);
   submit_limit 7 BUY 5 (float_of_Z 10);
   modify 3%nat 5 (float_of_Z 10); modify 0%nat 5 (float_of_Z 10)].

(** A longer session, with ids given in the order of the submissions, in
    which the orders 3 and 4 are never modified. *)
Definition session_with_untouched_bids : list call :=
  [submit_limit 1 BUY 1 (float_of_Z 10); submit_limit 2 BUY 1 (float_of_Z 10);
   submit_limit 3 BUY 1 (float_of_Z 10); submit_limit 4 BUY 1 (float_of_Z 10);
   submit_limit 5 BUY 1 (float_of_Z 10); submit_limit 6 BUY 1 (float_of_Z 11);
   submit_market 7 SELL 1; submit_market 8 SELL 1;
   submit_limit 9 BUY 1 (float_of_Z 10);
   modify 4%nat 1 (float_of_Z 11); modify 9%nat 1 (float_of_Z 10);
   submit_limit 10 BUY 1 (float_of_Z 11);
   submit_limit 11 BUY 1 (float_of_Z 10); submit_limit 12 BUY 1 (float_of_Z 10);
   submit_limit 13 BUY 1 (float_of_Z 10); submit_limit 14 BUY 1 (float_of_Z 11);
   submit_market 15 SELL 1; submit_market 16 SELL 1; submit_market 17 SELL 1].

(** The row that the table shows for the order [r]: none for an order
    without quantity. *)
Definition row_of (s : list Order) (r : loc) : option row :=
  match s !! r with
  | Some o =>
      if quantity o <=? 0 then None
      else Some (quantity o, price o, order_id o)
  | None => None
  end.

Definition rows_of (s : list Order) (queue : list loc) : list row :=
  omap (row_of s) queue.

(** A book with a cancelled bid and a resting bid, and one ask. *)
Definition book_with_tombstone : state :=
  mkState [mkOrder 1 LIMIT BUY 0 (float_of_Z 10) "STOCK";
           mkOrder 2 LIMIT BUY 30 (float_of_Z 9) "STOCK";
           mkOrder 3 LIMIT SELL 20 (float_of_Z 11) "STOCK"]
          (mkBook "STOCK" [2%nat] [0%nat; 1%nat]).

(** [better] as a test. *)
Definition betterb (side : Side) (x y : price_t) : bool :=
  match side with
  | SELL => float_le x y
  | BUY => float_ge x y
  end.

(** A session: calls that are made on orders that exist -- the store holds
    [n] orders before the first call, and every submission and every
    modification creates one -- and whose limit prices are numbers.  The
    quantities are any integers. *)
Fixpoint session_okb (n : nat) (calls : list call) : bool :=
  match calls with
  | [] => true
  | submit_limit _ _ _ prc :: calls' =>
      negb (is_nan prc) && session_okb (S n) calls'
  | submit_market _ _ _ :: calls' => session_okb (S n) calls'
  | cancel r :: calls' => (r <? n)%nat && session_okb n calls'
  | modify r _ prc :: calls' =>
      (r <? n)%nat && negb (is_nan prc) && session_okb (S n) calls'
  end.

(** The prices of [trades] go from the best to the worst for resting orders
    of [side]. *)
Definition price_sorted (side : Side) (trades : list trade) : Prop :=
  forall i j ti tj, (i < j)%nat ->
    trades !! i = Some ti -> trades !! j = Some tj -> better side ti.2 tj.2.

(** The sum of the quantities of the orders of a store. *)
Definition total_quantity (s : list Order) : Z :=
  foldr (fun o acc => quantity o + acc) 0 s.

(** A book with three asks at 10.00, 11.00 and 12.00 and a bid at 9.00. *)
Definition three_asks : list call :=
  [submit_limit 1 SELL 10 (float_of_Z 12); submit_limit 2 SELL 10 (float_of_Z 10);
   submit_limit 3 SELL 10 (float_of_Z 11); submit_limit 4 BUY 10 (float_of_Z 9)].

(** A session with every kind of call, and with quantities of every sign. *)
Definition mixed_session : list call :=
  [submit_limit 1 BUY 20 (float_of_Z 10); submit_limit 2 SELL 5 (float_of_Z 12);
   submit_limit 3 SELL (-4) (float_of_Z 8); submit_market 4 SELL 0;
   cancel 1%nat; modify 0%nat 30 (float_of_Z 11);
   submit_limit 5 SELL 10 (float_of_Z 11); submit_market 6 BUY 3;
   modify 4%nat 7 (float_of_Z 13); cancel 2%nat].

(** [rank_le s side a b]: [a] and [b] are orders of [side] whose prices are
    numbers, and [b] is not before [a] in the order of [Order.__lt__]. *)
Definition rank_le (s : list Order) (side : Side) (a b : loc) : Prop :=
  exists oa ob, s !! a = Some oa /\ s !! b = Some ob /\
    order_side oa = side /\ order_side ob = side /\
    is_nan (price oa) = false /\ is_nan (price ob) = false /\
    Order_lt ob oa = Ok false.

(** Two stores that hold the same orders up to quantities: the fields that
    [Order.__lt__] reads are the same. *)
Definition same_rank (s s' : list Order) : Prop :=
  length s = length s' /\
  forall r o, s !! r = Some o ->
    exists o', s' !! r = Some o' /\ order_side o' = order_side o /\
      price o' = price o /\ order_id o' = order_id o.

(** Both queues are heaps for the order of [Order.__lt__]. *)
Record rank_inv (st : state) : Prop := {
  rank_priced : forall side,
    Forall (priced (objs st) side) (own_queue side (book st));
  rank_heap : forall side,
    heap_ordered (rank_le (objs st) side) (own_queue side (book st))
}.

Definition no_modifyb (c : call) : bool :=
  match c with
  | modify _ _ _ => false
  | _ => true
  end.

(** Bids at one price with a better bid among them, a cancellation of the
    oldest bid, and two market orders that take from the bids. *)
Definition session_without_modify : list call :=
  [submit_limit 1 BUY 5 (float_of_Z 10); submit_limit 2 BUY 5 (float_of_Z 10);
   submit_limit 3 BUY 5 (float_of_Z 11); submit_limit 4 BUY 5 (float_of_Z 10);
   submit_limit 5 SELL 5 (float_of_Z 12); cancel 0%nat;
   submit_market 6 SELL 7; submit_limit 7 BUY 5 (float_of_Z 10);
   submit_market 8 SELL 4].


(** Bids and asks at several prices, one of them cancelled. *)
Definition session_to_print : list call :=
  [submit_limit 1 BUY 5 (float_of_Z 9); submit_limit 2 BUY 5 (float_of_Z 11);
   submit_limit 3 BUY 5 (float_of_Z 10); submit_limit 4 SELL 5 (float_of_Z 14);
   submit_limit 5 SELL 5 (float_of_Z 12); submit_limit 6 SELL 5 (float_of_Z 13);
   cancel 4%nat].

(** ** engine.py

    The engine holds the two dictionaries of [MatchingEngine] as finite
    maps; the [Order] objects live in the store, as for the book, and
    [orders_map] maps an id to the handle of an order.  A [Book] object is
    mutated in place by its methods, so a call on [books_map[stock]] writes
    the book back under its key.

    [parse_and_execute] takes the command as the list of words that
    [cmd.split()] returns, and returns the lines of its message (the code
    joins them with newlines).  A message with format fields is a line
    that carries the values formatted into it.  The builtins [int] and
    [float] are parameters: they return [None] where Python raises
    [ValueError]. *)
Inductive line :=
| PARSING_ERROR_MESSAGE
| INACTIVE_ORDER_ERROR_MESSAGE
| INEXISTENT_ORDER_ERROR_MESSAGE
| EMPTY_ORDER_ERROR_MESSAGE
| NO_LIQUIDITY_MESSAGE
| ORDER_CREATED_MESSAGE (order : Order)
| ORDER_CHANGED_MESSAGE (new_order : Order)
| ORDER_CANCELLED_MESSAGE
| TRADE_MESSAGE (price : price_t) (quantity : Z)
| BOOK_TABLE (buy_column sell_column : list row)
| HELP_MESSAGE
| EXIT_MESSAGE.

Record MatchingEngine := mkEngine {
  uid : Z;
  books_map : gmap string Book;
  orders_map : gmap Z loc;
  loop : bool;
  engine_objs : list Order
}.

(** [MatchingEngine.__init__], up to the call of [repl]. *)
Definition MatchingEngine_init : MatchingEngine :=
  mkEngine 0 {["STOCK" := Book_init "STOCK"]} ∅ true [].

(** [self.uid += 1; return self.uid] *)
Definition new_uid (e : MatchingEngine) : MatchingEngine * Z :=
  (mkEngine (uid e + 1) (books_map e) (orders_map e) (loop e) (engine_objs e),
   uid e + 1).

(** [self.orders_map.get(order_id) is not None] *)
Definition is_valid_order (e : MatchingEngine) (order_id : Z) : bool :=
  bool_decide (is_Some (orders_map e !! order_id)).

(** [self.orders_map[order_id].quantity != 0] *)
Definition is_active_order (e : MatchingEngine) (order_id : Z) : result bool :=
  match orders_map e !! order_id with
  | Some order => o ← deref (engine_objs e) order; Ok (negb (quantity o =? 0))
  | None => Raise
  end.

Definition parse_side (side : string) : option Side :=
  if bool_decide (side = "buy") then Some BUY
  else if bool_decide (side = "sell") then Some SELL
  else None.

(** [self.orders_map[order_id] = order] *)
Definition set_order (e : MatchingEngine) (order_id : Z) (order : loc)
    : MatchingEngine :=
  mkEngine (uid e) (books_map e) (<[order_id := order]> (orders_map e)) (loop e)
    (engine_objs e).

(** A method call on [self.books_map[stock]]. *)
Definition on_book {A : Type} (e : MatchingEngine) (stock : string)
    (method : state -> result (state * A)) : result (MatchingEngine * A) :=
  match books_map e !! stock with
  | Some b =>
      '(st', a) ← method (mkState (engine_objs e) b);
      Ok (mkEngine (uid e) (<[stock := book st']> (books_map e)) (orders_map e)
            (loop e) (objs st'), a)
  | None => Raise
  end.

(** The lines of the trades, in their order. *)
Definition trade_lines (trades : list trade) : list line :=
  map (fun t : trade => TRADE_MESSAGE t.2 t.1) trades.

Section engine.
Context (int : string -> option Z) (float : string -> option price_t).

Definition parse_order_id (order_id : string) : option Z := int order_id.
Definition parse_price (price : string) : option price_t := float price.
Definition parse_quantity (quantity : string) : option Z := int quantity.

(** [case [ordtype, side, price, quantity] if ordtype == "limit"] *)
Definition limit_case (side price quantity : string) (e : MatchingEngine)
    : result (MatchingEngine * list line) :=
  let stock := "STOCK" in
  match parse_quantity quantity, parse_price price, parse_side side with
  | Some quantity, Some price, Some side =>
      if quantity =? 0 then Ok (e, [EMPTY_ORDER_ERROR_MESSAGE])
      else
        let '(e1, order_id) := new_uid e in
        '(e2, (order, trades)) ←
          on_book e1 stock (fun st =>
            '(st', order, trades) ←
              add_order order_id LIMIT side quantity price stock st;
            Ok (st', (order, trades)));
        let e3 := set_order e2 order_id order in
        match trades with
        | [] =>
            o ← deref (engine_objs e3) order;
            Ok (e3, [ORDER_CREATED_MESSAGE o])
        | _ :: _ =>
            active ← is_active_order e3 order_id;
            if active : bool then
              o ← deref (engine_objs e3) order;
              Ok (e3, trade_lines trades ++ [ORDER_CREATED_MESSAGE o])
            else Ok (e3, trade_lines trades)
        end
  | _, _, _ => Ok (e, [PARSING_ERROR_MESSAGE])
  end.

(** [case [ordtype, side, quantity] if ordtype == "market"] *)
Definition market_case (side quantity : string) (e : MatchingEngine)
    : result (MatchingEngine * list line) :=
  let stock := "STOCK" in
  match parse_quantity quantity, parse_side side with
  | Some quantity, Some side =>
      if quantity =? 0 then Ok (e, [EMPTY_ORDER_ERROR_MESSAGE])
      else
        let '(e1, order_id) := new_uid e in
        '(e2, (order, trades)) ←
          on_book e1 stock (fun st =>
            '(st', order, trades) ←
              add_order order_id MARKET side quantity float_inf stock st;
            Ok (st', (order, trades)));
        let e3 := set_order e2 order_id order in
        '(e4, _) ←
          on_book e3 stock (fun st => st' ← delete_order order st; Ok (st', tt));
        match trades with
        | [] => Ok (e4, [NO_LIQUIDITY_MESSAGE])
        | _ :: _ => Ok (e4, trade_lines trades)
        end
  | _, _ => Ok (e, [PARSING_ERROR_MESSAGE])
  end.

(** [case [op_a, op_b, order_id] if op_a == "cancel" and op_b == "order"] *)
Definition cancel_case (order_id : string) (e : MatchingEngine)
    : result (MatchingEngine * list line) :=
  match parse_order_id order_id with
  | Some order_id =>
      match orders_map e !! order_id with
      | Some order =>
          active ← is_active_order e order_id;
          if negb active then Ok (e, [INACTIVE_ORDER_ERROR_MESSAGE])
          else
            o ← deref (engine_objs e) order;
            '(e1, _) ←
              on_book e (stock o)
                (fun st => st' ← delete_order order st; Ok (st', tt));
            Ok (e1, [ORDER_CANCELLED_MESSAGE])
      | None => Ok (e, [INEXISTENT_ORDER_ERROR_MESSAGE])
      end
  | None => Ok (e, [PARSING_ERROR_MESSAGE])
  end.

(** [case [op_a, op_b, order_id, price, quantity]
      if op_a == "change" and op_b == "order"] *)
Definition change_case (order_id price quantity : string) (e : MatchingEngine)
    : result (MatchingEngine * list line) :=
  match parse_order_id order_id, parse_price price, parse_quantity quantity with
  | Some order_id, Some price, Some quantity =>
      if quantity =? 0 then Ok (e, [EMPTY_ORDER_ERROR_MESSAGE])
      else
        match orders_map e !! order_id with
        | Some order =>
            active ← is_active_order e order_id;
            if negb active then Ok (e, [INACTIVE_ORDER_ERROR_MESSAGE])
            else
              o ← deref (engine_objs e) order;
              '(e1, (new_order, trades)) ←
                on_book e (stock o) (fun st =>
                  '(st', new_order, trades) ←
                    modify_order order quantity price st;
                  Ok (st', (new_order, trades)));
              let e2 := set_order e1 order_id new_order in
              match trades with
              | [] =>
                  o' ← deref (engine_objs e2) new_order;
                  Ok (e2, [ORDER_CHANGED_MESSAGE o'])
              | _ :: _ =>
                  active' ← is_active_order e2 order_id;
                  if active' : bool then
                    o' ← deref (engine_objs e2) new_order;
                    Ok (e2, trade_lines trades ++ [ORDER_CHANGED_MESSAGE o'])
                  else Ok (e2, trade_lines trades)
              end
        | None => Ok (e, [INEXISTENT_ORDER_ERROR_MESSAGE])
        end
  | _, _, _ => Ok (e, [PARSING_ERROR_MESSAGE])
  end.

(** [case [op_a, op_b] if op_a == "print" and op_b == "book"] *)
Definition print_case (e : MatchingEngine)
    : result (MatchingEngine * list line) :=
  '(e1, (buy_column, sell_column)) ← on_book e "STOCK" Book_repr_rows;
  Ok (e1, [BOOK_TABLE buy_column sell_column]).

(** [MatchingEngine.parse_and_execute]: the cases of [match cmd_list], in
    their order. *)
Definition parse_and_execute (cmd_list : list string) (e : MatchingEngine)
    : result (MatchingEngine * list line) :=
  match cmd_list with
  | [ordtype; side; price; quantity] =>
      if bool_decide (ordtype = "limit") then limit_case side price quantity e
      else Ok (e, [PARSING_ERROR_MESSAGE])
  | [op_a; op_b; order_id] =>
      if bool_decide (op_a = "market") then market_case op_b order_id e
      else if bool_decide (op_a = "cancel") && bool_decide (op_b = "order")
      then cancel_case order_id e
      else Ok (e, [PARSING_ERROR_MESSAGE])
  | [op_a; op_b; order_id; price; quantity] =>
      if bool_decide (op_a = "change") && bool_decide (op_b = "order")
      then change_case order_id price quantity e
      else Ok (e, [PARSING_ERROR_MESSAGE])
  | [op_a; op_b] =>
      if bool_decide (op_a = "print") && bool_decide (op_b = "book")
      then print_case e
      else Ok (e, [PARSING_ERROR_MESSAGE])
  | [op_a] =>
      if bool_decide (op_a = "exit") then
        Ok (mkEngine (uid e) (books_map e) (orders_map e) false (engine_objs e),
            [EXIT_MESSAGE])
      else if bool_decide (op_a = "help") then Ok (e, [HELP_MESSAGE])
      else Ok (e, [PARSING_ERROR_MESSAGE])
  | _ => Ok (e, [PARSING_ERROR_MESSAGE])
  end.

(** [MatchingEngine.repl] on the commands that [input] returns, with what
    it has printed; [input] raises [EOFError] when there is no command
    left. *)
Fixpoint repl (inputs : list (list string)) (e : MatchingEngine)
    (printed : list (list line))
    : result (MatchingEngine * list (list line)) :=
  if loop e then
    match inputs with
    | [] => Raise
    | cmd :: inputs' =>
        '(e', return_msg) ← parse_and_execute cmd e;
        repl inputs' e' (printed ++ [return_msg])
    end
  else Ok (e, printed).

(** The engine after one call of [parse_and_execute] for each of the
    commands, with the messages returned. *)
Fixpoint execute_all (cmds : list (list string)) (e : MatchingEngine)
    : result (MatchingEngine * list (list line)) :=
  match cmds with
  | [] => Ok (e, [])
  | cmd :: cmds' =>
      '(e1, msg) ← parse_and_execute cmd e;
      '(e2, msgs) ← execute_all cmds' e1;
      Ok (e2, msg :: msgs)
  end.
End engine.

(** Readers of a few numerals, to run the engine on examples. *)
Definition int_example (s : string) : option Z :=
  if bool_decide (s = "1") then Some 1
  else if bool_decide (s = "2") then Some 2
  else if bool_decide (s = "3") then Some 3
  else if bool_decide (s = "0") then Some 0
  else if bool_decide (s = "-5") then Some (-5)
  else if bool_decide (s = "100") then Some 100
  else if bool_decide (s = "150") then Some 150
  else None.

Definition float_example (s : string) : option price_t :=
  if bool_decide (s = "10.00") then Some (float_of_Z 10)
  else if bool_decide (s = "11.00") then Some (float_of_Z 11)
  else if bool_decide (s = "nan") then Some S754_nan
  else None.

(** What the engine keeps between commands: its book is well formed, and
    [orders_map] maps an id to an order of the instrument that carries the
    id, which is one of the ids given so far. *)
Definition engine_inv (e : MatchingEngine) : Prop :=
  (exists b, books_map e !! "STOCK" = Some b /\
     book_ok (mkState (engine_objs e) b)) /\
  (forall id r, orders_map e !! id = Some r ->
     exists o, engine_objs e !! r = Some o /\ stock o = "STOCK" /\
       order_id o = id /\ 0 < id <= uid e) /\
  0 <= uid e.

(** A message that reports an error, or the help text. *)
Definition error_output (out : list line) : bool :=
  match out with
  | PARSING_ERROR_MESSAGE :: _ | INACTIVE_ORDER_ERROR_MESSAGE :: _
  | INEXISTENT_ORDER_ERROR_MESSAGE :: _ | EMPTY_ORDER_ERROR_MESSAGE :: _
  | HELP_MESSAGE :: _ => true
  | _ => false
  end.

(** What every command does to the ids: it takes the next id or none, and
    the ids that [orders_map] knows are those it knew and the id taken. *)
Definition ids_step (e e' : MatchingEngine) : Prop :=
  (uid e' = uid e \/ uid e' = uid e + 1) /\
  forall id, is_Some (orders_map e' !! id) <->
    is_Some (orders_map e !! id) \/ (id = uid e + 1 /\ uid e' = uid e + 1).

(** What every command does: it keeps the invariant, it changes nothing when
    it answers with an error, and it takes at most the next id. *)
Definition step_ok (e e' : MatchingEngine) (out : list line) : Prop :=
  engine_inv e' /\ (error_output out = true -> e' = e) /\ ids_step e e'.

(** A session at the prompt: an ask, a market order that fills a part of
    it, a cancellation and a change. *)
Definition example_session : list (list string) :=
  [["limit"; "sell"; "10.00"; "100"]; ["market"; "buy"; "3"];
   ["cancel"; "order"; "2"]; ["change"; "order"; "1"; "11.00"; "100"]].

(** An ask whose price is a NaN, an ask at 50.00, and a bid at 100.00. *)
Definition session_with_nan : list call :=
  [submit_limit 1 SELL 5 S754_nan; submit_limit 2 SELL 5 (float_of_Z 50);
   submit_limit 3 BUY 5 (float_of_Z 100)].

(** * Proofs *)

Lemma SFcompare_not_nan x y :
  is_nan x = false -> is_nan y = false -> exists c, SFcompare x y = Some c.
Proof. destruct x, y; simpl; intros; try discriminate; eauto. Qed.

Lemma SFcompare_antisym x y c :
  SFcompare x y = Some c -> SFcompare y x = Some (CompOpp c).
Proof.
  destruct x as [sx|sx| |sx mx ex], y as [sy|sy| |sy my ey]; simpl; intros H;
    try discriminate; inversion H; subst; clear H;
    try (destruct sx; reflexivity); try (destruct sy; reflexivity);
    try (destruct sx, sy; reflexivity).
  destruct sx, sy; try reflexivity;
    rewrite (Z.compare_antisym ex ey); destruct (ex ?= ey); simpl; try reflexivity;
    rewrite (Pos.compare_cont_antisym); simpl; rewrite ?CompOpp_involutive; reflexivity.
Qed.

Lemma SFleb_trans x y z :
  SFleb x y = true -> SFleb y z = true -> SFleb x z = true.
Proof.
  unfold SFleb.
  destruct x as [sx|sx| |sx mx ex], y as [sy|sy| |sy my ey], z as [sz|sz| |sz mz ez];
    simpl; try discriminate; try reflexivity;
    try (destruct sx; simpl; try discriminate; try reflexivity);
    try (destruct sy; simpl; try discriminate; try reflexivity);
    try (destruct sz; simpl; try discriminate; try reflexivity).
  all: change (Pos.compare_cont Eq) with Pos.compare.
  all: destruct (Z.compare_spec ex ey), (Z.compare_spec ey ez), (Z.compare_spec ex ez);
    simpl; try discriminate; try reflexivity; try lia; subst.
  all: destruct (Pos.compare_spec mx my), (Pos.compare_spec my mz), (Pos.compare_spec mx mz);
    simpl; try discriminate; try reflexivity; try lia.
Qed.

Lemma SFleb_total x y :
  is_nan x = false -> is_nan y = false -> SFleb x y = true \/ SFleb y x = true.
Proof.
  intros Hx Hy. destruct (SFcompare_not_nan x y Hx Hy) as [c Hc].
  unfold SFleb. rewrite (SFcompare_antisym _ _ _ Hc), Hc. destruct c; auto.
Qed.

Lemma result_bind_Ok {A B} (f : A -> result B) (m : result A) b :
  (m ≫= f) = Ok b <-> exists a, m = Ok a /\ f a = Ok b.
Proof.
  unfold mbind, result_mbind, result_bind.
  destruct m; split; intros H; try discriminate; eauto;
    destruct H as (? & H1 & H2); congruence.
Qed.

Lemma parent_cases i :
  (0 < i)%nat -> i = (2 * parent i + 1)%nat \/ i = (2 * parent i + 2)%nat.
Proof.
  intros Hi. unfold parent.
  pose proof (Nat.div2_odd (i - 1)) as H.
  destruct (Nat.odd (i - 1)); simpl in H; lia.
Qed.

Lemma parent_lt i : (0 < i)%nat -> (parent i < i)%nat.
Proof. intros Hi. destruct (parent_cases i Hi); lia. Qed.

Lemma parent_left k : parent (2 * k + 1) = k.
Proof.
  assert (0 < 2 * k + 1)%nat as H by lia.
  destruct (parent_cases _ H); lia.
Qed.

Lemma parent_right k : parent (2 * k + 2) = k.
Proof.
  assert (0 < 2 * k + 2)%nat as H by lia.
  destruct (parent_cases _ H); lia.
Qed.

Lemma getitem_Ok {A} (l : list A) i x : getitem l i = Ok x <-> l !! i = Some x.
Proof. unfold getitem. destruct (l !! i); split; congruence. Qed.

Lemma getitem_lt {A} (l : list A) i :
  (i < length l)%nat -> exists x, getitem l i = Ok x /\ l !! i = Some x.
Proof.
  intros Hi. destruct (lookup_lt_is_Some_2 l i Hi) as [x Hx].
  exists x. split; [by apply getitem_Ok | done].
Qed.

Lemma setitem_lt {A} (l : list A) i x :
  (i < length l)%nat -> setitem l i x = Ok (<[i := x]> l).
Proof. intros Hi. unfold setitem. by rewrite decide_True. Qed.

Section heap_facts.
Context {A : Type} (lt : A -> A -> result bool) (le : A -> A -> Prop)
        (D : A -> Prop).
Hypothesis Hcmp : heap_cmp lt le D.

Local Abbreviation lt_total := (cmp_total lt le D Hcmp).
Local Abbreviation le_refl := (cmp_refl lt le D Hcmp).
Local Abbreviation le_trans := (cmp_trans lt le D Hcmp).
Local Abbreviation lt_le := (cmp_lt lt le D Hcmp).
Local Abbreviation nlt_le := (cmp_nlt lt le D Hcmp).

Implicit Types l heap : list A.

Lemma Forall_D_lookup l i x : Forall D l -> l !! i = Some x -> D x.
Proof. intros Hl Hx. eapply Forall_lookup_1; eauto. Qed.

Lemma Forall_D_insert l i x : Forall D l -> D x -> Forall D (<[i := x]> l).
Proof. intros Hl Hx. by apply Forall_insert. Qed.

(** One step of bubbling up: the item at [k] changes place with its
    parent. *)
Lemma ordered_except_up l k x p :
  (0 < k)%nat -> l !! k = Some x -> l !! parent k = Some p -> le x p ->
  ordered_except le l k ->
  ordered_except le (<[parent k := x]> (<[k := p]> l)) (parent k).
Proof.
  intros Hk Hx Hp Hxp [Hedges Hgrand].
  pose proof (parent_lt k Hk) as Hlt.
  pose proof (lookup_lt_Some _ _ _ Hx) as Hklen.
  pose proof (lookup_lt_Some _ _ _ Hp) as Hplen.
  split.
  - intros i Hi Hne y q Hy Hq.
    rewrite list_lookup_insert_ne in Hy by done.
    destruct (decide (i = k)) as [->|Hik].
    + rewrite list_lookup_insert_eq in Hy by done.
      rewrite list_lookup_insert_eq in Hq by (by rewrite length_insert).
      by simplify_eq.
    + rewrite list_lookup_insert_ne in Hy by done.
      destruct (decide (parent i = parent k)) as [Heq|Hnp].
      * rewrite Heq, list_lookup_insert_eq in Hq by (by rewrite length_insert).
        simplify_eq. apply le_trans with p; [done|].
        apply (Hedges i Hi Hik); [done | by rewrite Heq].
      * rewrite list_lookup_insert_ne in Hq by done.
        destruct (decide (parent i = k)) as [Hpk|Hpk].
        -- rewrite Hpk, list_lookup_insert_eq in Hq by done.
           assert (q = p) as -> by congruence.
           by apply (Hgrand Hk i y p Hi Hpk).
        -- rewrite list_lookup_insert_ne in Hq by done.
           by apply (Hedges i Hi Hik).
  - intros Hpk c y g Hc Hpc Hy Hg.
    assert (parent (parent k) < parent k)%nat as Hlt2 by by apply parent_lt.
    assert (parent c < c)%nat as Hlt3 by by apply parent_lt.
    rewrite !list_lookup_insert_ne in Hg by lia.
    rewrite list_lookup_insert_ne in Hy by lia.
    assert (le g p) as Hgp.
    { apply (Hedges (parent k) Hpk); [lia | done | done]. }
    destruct (decide (c = k)) as [->|Hck].
    + rewrite list_lookup_insert_eq in Hy by done. by simplify_eq.
    + rewrite list_lookup_insert_ne in Hy by done.
      apply le_trans with p; [done|].
      apply (Hedges c Hc Hck); [done | by rewrite Hpc].
Qed.

Lemma ordered_except_done l k :
  (k = 0%nat \/ edge_ok le l k) -> ordered_except le l k -> heap_ordered le l.
Proof.
  intros Hk [Hedges _] i Hi.
  destruct (decide (i = k)) as [->|Hne]; [|by apply Hedges].
  destruct Hk as [->|Hk]; [lia | done].
Qed.

Lemma siftdown_loop_spec fuel : forall heap pos newitem,
  (pos <= fuel)%nat -> (pos < length heap)%nat -> Forall D heap -> D newitem ->
  exists h',
    siftdown_loop lt fuel heap 0 pos newitem = Ok h' /\
    h' ≡ₚ <[pos := newitem]> heap /\
    (ordered_except le (<[pos := newitem]> heap) pos -> heap_ordered le h').
Proof.
  induction fuel as [|fuel IH]; intros heap pos newitem Hfuel Hpos HD Hnew.
  - assert (pos = 0%nat) as -> by lia. simpl.
    rewrite setitem_lt by done. eexists; split; [done|]. split; [done|].
    apply ordered_except_done. by left.
  - simpl. destruct (decide (0 < pos)%nat) as [Hp|Hp].
    + pose proof (parent_lt pos Hp) as Hlt. fold (parent pos).
      destruct (getitem_lt heap (parent pos)) as (p & Hgp & Hlp); [lia|].
      rewrite Hgp. simpl.
      assert (D p) as HDp by by eapply Forall_D_lookup.
      destruct (lt_total newitem p Hnew HDp) as [b Hb].
      rewrite Hb. simpl.
      set (fill := <[pos := newitem]> heap).
      assert (fill !! pos = Some newitem) as Hfpos
        by by apply list_lookup_insert_eq.
      assert (fill !! parent pos = Some p) as Hfpar
        by (unfold fill; rewrite list_lookup_insert_ne by lia; done).
      destruct b.
      * rewrite setitem_lt by done. simpl.
        destruct (IH (<[pos := p]> heap) (parent pos) newitem) as (h' & Hrun & Hperm & Hord).
        { lia. } { rewrite length_insert. lia. }
        { by apply Forall_D_insert. } { done. }
        exists h'. split; [done|].
        assert (<[pos := p]> heap = <[pos := p]> fill) as Heq
          by (unfold fill; by rewrite list_insert_insert_eq).
        rewrite Heq in Hperm, Hord. split.
        -- rewrite Hperm. by apply Permutation_insert_swap.
        -- intros Hex. apply Hord. apply ordered_except_up; try done.
           by apply lt_le.
      * rewrite setitem_lt by done. eexists; split; [done|]. split; [done|].
        apply ordered_except_done. right. intros x q Hx Hq.
        fold fill in Hx, Hq. simplify_eq. by apply nlt_le.
    + assert (pos = 0%nat) as -> by lia.
      rewrite setitem_lt by done. eexists; split; [done|]. split; [done|].
      apply ordered_except_done. by left.
Qed.

Lemma _siftdown_spec heap pos :
  (pos < length heap)%nat -> Forall D heap ->
  exists h',
    _siftdown lt heap 0 pos = Ok h' /\ h' ≡ₚ heap /\
    (ordered_except le heap pos -> heap_ordered le h').
Proof.
  intros Hpos HD. unfold _siftdown.
  destruct (getitem_lt heap pos Hpos) as (x & Hgx & Hlx). rewrite Hgx. simpl.
  destruct (siftdown_loop_spec pos heap pos x) as (h' & Hrun & Hperm & Hord);
    try done. { by eapply Forall_D_lookup. }
  rewrite list_insert_id in Hperm, Hord by done. eauto.
Qed.

(** One step of [_siftup]'s descent: the smaller child [c] at [k'] is
    copied up into [k]. *)
Lemma down_inv_step l k k' c :
  (k' = 2 * k + 1 \/ k' = 2 * k + 2)%nat ->
  l !! k' = Some c -> D c -> (k < length l)%nat ->
  (forall i y, (0 < i)%nat -> parent i = k -> l !! i = Some y -> le c y) ->
  down_inv le l k -> down_inv le (<[k := c]> l) k'.
Proof.
  intros Hk' Hc HDc Hklen Hmin [Hedges Hgrand].
  assert (parent k' = k) as Hpk'
    by (destruct Hk' as [-> | ->]; [apply parent_left | apply parent_right]).
  assert (k < k')%nat as Hkk' by lia.
  split.
  - intros i Hi Hne y q Hy Hq.
    pose proof (parent_lt i Hi) as Hlt.
    destruct (decide (parent i = k)) as [Hpi|Hpi].
    + rewrite Hpi, list_lookup_insert_eq in Hq by done.
      rewrite list_lookup_insert_ne in Hy by lia.
      assert (q = c) as -> by congruence. by apply (Hmin i).
    + rewrite list_lookup_insert_ne in Hq by done.
      destruct (decide (i = k)) as [->|Hik].
      * rewrite list_lookup_insert_eq in Hy by done.
        assert (y = c) as -> by congruence.
        apply (Hgrand Hi k' c q); [lia | done | done | done].
      * rewrite list_lookup_insert_ne in Hy by done.
        by apply (Hedges i Hi Hpi).
  - intros _ c' y g Hc' Hpc' Hy Hg.
    pose proof (parent_lt c' Hc') as Hlt.
    rewrite Hpk', list_lookup_insert_eq in Hg by done.
    rewrite list_lookup_insert_ne in Hy by lia.
    assert (g = c) as -> by congruence.
    apply (Hedges c' Hc'); [lia | done | by rewrite Hpc'].
Qed.

Lemma down_inv_leaf l k x :
  (length l <= 2 * k + 1)%nat ->
  down_inv le l k -> ordered_except le (<[k := x]> l) k.
Proof.
  intros Hleaf [Hedges Hgrand]. split.
  - intros i Hi Hne y q Hy Hq.
    rewrite list_lookup_insert_ne in Hy by done.
    pose proof (lookup_lt_Some _ _ _ Hy) as Hilen.
    assert (parent i <> k) as Hpi by (destruct (parent_cases i Hi); lia).
    rewrite list_lookup_insert_ne in Hq by done.
    by apply (Hedges i Hi Hpi).
  - intros Hk c y g Hc Hpc Hy Hg.
    apply lookup_lt_Some in Hy. rewrite length_insert in Hy.
    destruct (parent_cases c Hc); lia.
Qed.

Lemma siftup_loop_spec fuel : forall heap pos,
  (length heap - pos <= fuel)%nat -> (pos < length heap)%nat ->
  Forall D heap ->
  exists h1 pos1,
    siftup_loop lt fuel heap (length heap) pos = Ok (h1, pos1) /\
    length h1 = length heap /\ (pos1 < length heap)%nat /\ Forall D h1 /\
    forall newitem,
      <[pos1 := newitem]> h1 ≡ₚ <[pos := newitem]> heap /\
      (down_inv le heap pos -> ordered_except le (<[pos1 := newitem]> h1) pos1).
Proof.
  induction fuel as [|fuel IH]; intros heap pos Hfuel Hpos HD; [lia|].
  simpl. destruct (decide (2 * pos + 1 < length heap)%nat) as [Hc|Hc].
  - replace (pos + (pos + 0) + 1)%nat with (2 * pos + 1)%nat by lia.
    rewrite decide_True by done.
    destruct (getitem_lt heap (2 * pos + 1)) as (l & Hgl & Hll); [done|].
    assert (D l) as HDl by by eapply Forall_D_lookup.
    (* the choice of the child *)
    assert (exists k' c,
      (if decide (2 * pos + 1 + 1 < length heap)%nat
       then l0 ← getitem heap (2 * pos + 1)%nat;
            r ← getitem heap (2 * pos + 1 + 1)%nat;
            b ← lt l0 r; Ok (if b : bool then (2 * pos + 1)%nat
                             else (2 * pos + 1 + 1)%nat)
       else Ok (2 * pos + 1)%nat) = Ok k' /\
      (k' = 2 * pos + 1 \/ k' = 2 * pos + 2)%nat /\ heap !! k' = Some c /\
      forall i y, (0 < i)%nat -> parent i = pos -> heap !! i = Some y -> le c y)
      as (k' & c & Hchoice & Hk' & Hck' & Hmin).
    { destruct (decide (2 * pos + 1 + 1 < length heap)%nat) as [Hr|Hr].
      - destruct (getitem_lt heap (2 * pos + 1 + 1)) as (r & Hgr & Hlr); [done|].
        assert (D r) as HDr by by eapply Forall_D_lookup.
        destruct (lt_total l r HDl HDr) as [b Hb].
        rewrite Hgl, Hgr. simpl. rewrite Hb. simpl.
        destruct b.
        + exists (2 * pos + 1)%nat, l. split; [done|]. split; [lia|].
          split; [done|]. intros i y Hi Hpi Hy.
          destruct (parent_cases i Hi) as [Hi'|Hi']; rewrite Hpi in Hi'.
          * rewrite Hi' in Hy. assert (y = l) as -> by congruence. by apply le_refl.
          * replace i with (2 * pos + 1 + 1)%nat in Hy by lia.
            assert (y = r) as -> by congruence. by apply lt_le.
        + exists (2 * pos + 1 + 1)%nat, r. split; [done|]. split; [lia|].
          split; [done|]. intros i y Hi Hpi Hy.
          destruct (parent_cases i Hi) as [Hi'|Hi']; rewrite Hpi in Hi'.
          * rewrite Hi' in Hy. assert (y = l) as -> by congruence. by apply nlt_le.
          * replace i with (2 * pos + 1 + 1)%nat in Hy by lia.
            assert (y = r) as -> by congruence. by apply le_refl.
      - exists (2 * pos + 1)%nat, l. split; [done|]. split; [lia|].
        split; [done|]. intros i y Hi Hpi Hy.
        pose proof (lookup_lt_Some _ _ _ Hy).
        destruct (parent_cases i Hi) as [Hi'|Hi']; rewrite Hpi in Hi'; [|lia].
        rewrite Hi' in Hy. assert (y = l) as -> by congruence. by apply le_refl. }
    rewrite Hchoice. simpl.
    assert (getitem heap k' = Ok c) as Hgc by by apply getitem_Ok.
    rewrite Hgc. simpl. rewrite setitem_lt by done. simpl.
    pose proof (lookup_lt_Some _ _ _ Hck') as Hk'len.
    assert (D c) as HDc by by eapply Forall_D_lookup.
    destruct (IH (<[pos := c]> heap) k') as (h1 & pos1 & Hrun & Hlen & Hp1 & HD1 & Hrest).
    { rewrite length_insert. lia. } { by rewrite length_insert. }
    { by apply Forall_D_insert. }
    rewrite length_insert in Hrun, Hlen, Hp1.
    exists h1, pos1. split; [done|]. split; [done|]. split; [done|].
    split; [done|]. intros newitem. split.
    + destruct (Hrest newitem) as [Hperm _]. rewrite Hperm.
      set (fill := <[pos := newitem]> heap).
      assert (<[pos := c]> heap = <[pos := c]> fill) as ->
        by (unfold fill; by rewrite list_insert_insert_eq).
      apply Permutation_insert_swap.
      * unfold fill. by apply list_lookup_insert_eq.
      * unfold fill. rewrite list_lookup_insert_ne by lia. done.
    + intros Hinv. destruct (Hrest newitem) as [_ Hord]. apply Hord.
      by apply (down_inv_step heap pos k' c).
  - replace (pos + (pos + 0) + 1)%nat with (2 * pos + 1)%nat by lia.
    rewrite decide_False by done.
    exists heap, pos. split; [done|]. split; [done|]. split; [done|].
    split; [done|]. intros newitem. split; [done|].
    intros Hinv. apply down_inv_leaf; [lia | done].
Qed.

Lemma _siftup_spec heap :
  (0 < length heap)%nat -> Forall D heap ->
  exists h',
    _siftup lt heap 0 = Ok h' /\ h' ≡ₚ heap /\
    (down_inv le heap 0 -> heap_ordered le h').
Proof.
  intros Hlen HD. unfold _siftup.
  destruct (getitem_lt heap 0 Hlen) as (x & Hgx & Hlx). rewrite Hgx. simpl.
  destruct (siftup_loop_spec (length heap) heap 0)
    as (h1 & pos1 & Hrun & Hlen1 & Hp1 & HD1 & Hrest); [lia | done | done |].
  rewrite Hrun. simpl. rewrite setitem_lt by lia. simpl.
  destruct (Hrest x) as [Hperm Hord].
  rewrite (list_insert_id heap 0 x) in Hperm by done.
  destruct (_siftdown_spec (<[pos1 := x]> h1) pos1) as (h' & Hrun' & Hperm' & Hord').
  { rewrite length_insert. lia. }
  { apply Forall_D_insert; [done | by apply (Forall_D_lookup heap 0%nat x)]. }
  exists h'. split; [done|]. split; [by rewrite Hperm'|]. auto.
Qed.

Lemma heappush_spec heap item :
  Forall D heap -> D item ->
  exists h',
    heappush lt heap item = Ok h' /\ h' ≡ₚ heap ++ [item] /\
    (heap_ordered le heap -> heap_ordered le h').
Proof.
  intros HD Hitem. unfold heappush.
  rewrite length_app. simpl.
  replace (length heap + 1 - 1)%nat with (length heap) by lia.
  destruct (_siftdown_spec (heap ++ [item]) (length heap))
    as (h' & Hrun & Hperm & Hord).
  { rewrite length_app. simpl. lia. }
  { apply Forall_app. split; [done|]. by apply Forall_singleton. }
  exists h'. split; [done|]. split; [done|].
  intros Hheap. apply Hord. split.
  - intros i Hi Hne y q Hy Hq.
    pose proof (parent_lt i Hi) as Hlt.
    pose proof (lookup_lt_Some _ _ _ Hy) as Hilen.
    rewrite length_app in Hilen. simpl in Hilen.
    rewrite lookup_app_l in Hy by lia.
    rewrite lookup_app_l in Hq by lia.
    by apply (Hheap i Hi).
  - intros Hk c y g Hc Hpc Hy Hg.
    apply lookup_lt_Some in Hy. rewrite length_app in Hy. simpl in Hy.
    destruct (parent_cases c Hc); lia.
Qed.

Lemma list_pop_spec heap :
  heap <> [] ->
  exists h1 x, list_pop heap = Ok (h1, x) /\ heap = h1 ++ [x].
Proof.
  intros Hne. unfold list_pop.
  destruct (last heap) as [x|] eqn:Hlast.
  - apply last_Some in Hlast as [h1 ->].
    exists h1, x. by rewrite removelast_last.
  - by apply last_None in Hlast.
Qed.

Lemma heappop_spec heap :
  heap <> [] -> Forall D heap ->
  exists h' x,
    heappop lt heap = Ok (h', x) /\ head heap = Some x /\
    heap ≡ₚ x :: h' /\
    (heap_ordered le heap -> heap_ordered le h').
Proof.
  intros Hne HD. unfold heappop.
  destruct (list_pop_spec heap Hne) as (h1 & lastelt & Hpop & ->).
  rewrite Hpop. simpl.
  apply Forall_app in HD as [HD1 HDl]. rewrite Forall_singleton in HDl.
  destruct h1 as [|r tl].
  - exists [], lastelt. split; [done|]. split; [done|]. split; [done|].
    intros _ i Hi x p Hx. by destruct i.
  - simpl.
    apply Forall_cons in HD1 as [HDr HDtl].
    destruct (_siftup_spec (lastelt :: tl)) as (h' & Hrun & Hperm & Hord).
    { simpl. lia. } { by constructor. }
    rewrite Hrun. simpl.
    exists h', r. split; [done|]. split; [done|]. split.
    + rewrite Hperm. constructor. symmetry. apply Permutation_cons_append.
    + intros Hheap. apply Hord. split; [|intros ?; lia].
      intros i Hi Hpi y q Hy Hq.
      pose proof (parent_lt i Hi) as Hlt.
      destruct i as [|i]; [lia|].
      destruct (parent (S i)) as [|j] eqn:Hj; [done|].
      pose proof (lookup_lt_Some _ _ _ Hy) as Hilen.
      simpl in Hy, Hq, Hilen.
      apply (Hheap (S i) Hi); rewrite ?Hj; simpl.
      * rewrite lookup_app_l by lia. done.
      * rewrite lookup_app_l by lia. done.
Qed.

Lemma root_minimal l r :
  heap_ordered le l -> Forall D l -> l !! 0%nat = Some r ->
  forall i x, l !! i = Some x -> le r x.
Proof.
  intros Hheap HD Hr i. induction (lt_wf i) as [i _ IH]. intros x Hx.
  destruct (decide (i = 0%nat)) as [->|Hi].
  - assert (x = r) as -> by congruence. apply le_refl.
    by eapply Forall_D_lookup.
  - assert (0 < i)%nat as Hpos by lia.
    pose proof (parent_lt i Hpos) as Hlt.
    pose proof (lookup_lt_Some _ _ _ Hx) as Hilen.
    destruct (lookup_lt_is_Some_2 l (parent i)) as [p Hp]; [lia|].
    apply le_trans with p; [by apply (IH (parent i)) | by apply (Hheap i Hpos)].
Qed.
End heap_facts.

Lemma SFleb_refl x : is_nan x = false -> SFleb x x = true.
Proof. intros Hx. by destruct (SFleb_total x x Hx Hx). Qed.

Lemma SFeqb_leb x y : SFeqb x y = true -> SFleb x y = true /\ SFleb y x = true.
Proof.
  unfold SFeqb, SFleb. destruct (SFcompare x y) as [[]|] eqn:Hc; try discriminate.
  rewrite (SFcompare_antisym _ _ _ Hc). by simpl.
Qed.

Lemma SFltb_leb x y : SFltb x y = true -> SFleb x y = true.
Proof. unfold SFltb, SFleb. by destruct (SFcompare x y) as [[]|]. Qed.

Lemma SFltb_false_leb x y :
  is_nan x = false -> is_nan y = false -> SFltb x y = false -> SFleb y x = true.
Proof.
  intros Hx Hy. destruct (SFcompare_not_nan x y Hx Hy) as [c Hc].
  unfold SFltb, SFleb. rewrite (SFcompare_antisym _ _ _ Hc), Hc. by destruct c.
Qed.

Lemma SFleb_false_ltb x y :
  is_nan x = false -> is_nan y = false -> SFleb x y = false -> SFltb y x = true.
Proof.
  intros Hx Hy. destruct (SFcompare_not_nan x y Hx Hy) as [c Hc].
  unfold SFltb, SFleb. rewrite (SFcompare_antisym _ _ _ Hc), Hc. by destruct c.
Qed.

Lemma SFltb_leb_trans x y z :
  SFltb x y = true -> SFleb y z = true -> SFltb x z = true.
Proof.
  intros Hxy Hyz.
  assert (is_nan x = false) as Hx by (by destruct x).
  assert (is_nan z = false) as Hz by (by destruct z, y).
  destruct (SFltb x z) eqn:Hxz; [done|].
  apply SFltb_false_leb in Hxz; [|done..].
  pose proof (SFleb_trans _ _ _ Hyz Hxz) as Hyx.
  unfold SFltb, SFleb in *. destruct (SFcompare x y) as [[]|] eqn:Hc; try discriminate.
  rewrite (SFcompare_antisym _ _ _ Hc) in Hyx. by simpl in Hyx.
Qed.

Lemma SFleb_ltb_trans x y z :
  SFleb x y = true -> SFltb y z = true -> SFltb x z = true.
Proof.
  intros Hxy Hyz.
  assert (is_nan x = false) as Hx by (by destruct x).
  assert (is_nan z = false) as Hz by (by destruct z, y).
  destruct (SFltb x z) eqn:Hxz; [done|].
  apply SFltb_false_leb in Hxz; [|done..].
  pose proof (SFleb_trans _ _ _ Hxz Hxy) as Hzy.
  unfold SFltb, SFleb in *. destruct (SFcompare y z) as [[]|] eqn:Hc; try discriminate.
  rewrite (SFcompare_antisym _ _ _ Hc) in Hzy. by simpl in Hzy.
Qed.

Lemma better_refl side x : is_nan x = false -> better side x x.
Proof. intros Hx. destruct side; by apply SFleb_refl. Qed.

Lemma better_trans side x y z : better side x y -> better side y z -> better side x z.
Proof.
  destruct side; unfold better, float_ge, float_le; intros H1 H2;
    eauto using SFleb_trans.
Qed.

Lemma Order_lt_total o1 o2 :
  order_side o1 = order_side o2 -> exists b, Order_lt o1 o2 = Ok b.
Proof.
  intros Hs. unfold Order_lt. rewrite bool_decide_eq_true_2 by done. simpl.
  destruct (float_eq _ _); [eauto|]. destruct (order_side o1); eauto.
Qed.

Lemma Order_lt_better o1 o2 b :
  is_nan (price o1) = false -> is_nan (price o2) = false ->
  Order_lt o1 o2 = Ok b ->
  if b then better (order_side o1) (price o1) (price o2)
  else better (order_side o1) (price o2) (price o1).
Proof.
  intros H1 H2. unfold Order_lt.
  destruct (bool_decide _); simpl; [|done].
  unfold float_eq, float_lt, float_gt, better, float_le, float_ge.
  destruct (SFeqb _ _) eqn:Heq.
  - intros _. apply SFeqb_leb in Heq as [Ha Hb].
    destruct b, (order_side o1); done.
  - destruct (order_side o1); intros [= <-].
    + destruct (SFltb (price o2) (price o1)) eqn:Hlt.
      * by apply SFltb_leb.
      * by apply SFltb_false_leb.
    + destruct (SFltb (price o1) (price o2)) eqn:Hlt.
      * by apply SFltb_leb.
      * by apply SFltb_false_leb.
Qed.

Lemma deref_Some s r o : s !! r = Some o -> deref s r = Ok o.
Proof. intros H. unfold deref. by apply getitem_Ok. Qed.

Lemma priced_on_side s side r : priced s side r -> on_side s side r.
Proof. intros (o & ? & ? & ?). by exists o. Qed.

Section queue_facts.
Context (s : list Order) (side : Side).

Lemma lt_loc_total x y :
  on_side s side x -> on_side s side y -> exists b, lt_loc s x y = Ok b.
Proof.
  intros (ox & Hx & Hsx) (oy & Hy & Hsy). unfold lt_loc.
  rewrite (deref_Some _ _ _ Hx), (deref_Some _ _ _ Hy). simpl.
  apply Order_lt_total. congruence.
Qed.

Lemma ple_refl x : priced s side x -> ple s side x x.
Proof. intros (o & Hx & _ & Hn). exists o, o. eauto using better_refl. Qed.

Lemma ple_trans x y z : ple s side x y -> ple s side y z -> ple s side x z.
Proof.
  intros (ox & oy & Hx & Hy & Hxy) (oy' & oz & Hy' & Hz & Hyz).
  assert (oy' = oy) as -> by congruence.
  exists ox, oz. eauto using better_trans.
Qed.

Lemma lt_loc_ple x y b :
  priced s side x -> priced s side y -> lt_loc s x y = Ok b ->
  if b then ple s side x y else ple s side y x.
Proof.
  intros (ox & Hx & Hsx & Hnx) (oy & Hy & Hsy & Hny). unfold lt_loc.
  rewrite (deref_Some _ _ _ Hx), (deref_Some _ _ _ Hy). simpl.
  intros Hlt. pose proof (Order_lt_better _ _ _ Hnx Hny Hlt) as Hb.
  rewrite Hsx in Hb. destruct b; [by exists ox, oy | by exists oy, ox].
Qed.

(** [<] is defined on the orders of one side ... *)
Lemma cmp_on_side : heap_cmp (lt_loc s) (fun _ _ => True) (on_side s side).
Proof. split; auto using lt_loc_total. Qed.

(** ... and agrees with the price priority when no price is a NaN. *)
Lemma cmp_priced : heap_cmp (lt_loc s) (ple s side) (priced s side).
Proof.
  split.
  - intros x y Hx Hy. apply lt_loc_total; by apply priced_on_side.
  - apply ple_refl.
  - apply ple_trans.
  - intros x y Hx Hy Hlt. apply (lt_loc_ple x y true Hx Hy Hlt).
  - intros x y Hx Hy Hlt. apply (lt_loc_ple x y false Hx Hy Hlt).
Qed.

Lemma heappush_loc queue item :
  Forall (on_side s side) queue -> on_side s side item ->
  exists q', heappush (lt_loc s) queue item = Ok q' /\ q' ≡ₚ queue ++ [item].
Proof.
  intros HD Hitem.
  destruct (heappush_spec _ _ _ cmp_on_side queue item HD Hitem)
    as (q' & Hrun & Hperm & _).
  by exists q'.
Qed.

Lemma heappop_loc queue :
  queue <> [] -> Forall (on_side s side) queue ->
  exists q' x, heappop (lt_loc s) queue = Ok (q', x) /\
    head queue = Some x /\ queue ≡ₚ x :: q'.
Proof.
  intros Hne HD.
  destruct (heappop_spec _ _ _ cmp_on_side queue Hne HD)
    as (q' & x & Hrun & Hhd & Hperm & _).
  by exists q', x.
Qed.

Lemma heappush_loc_ordered queue item q' :
  Forall (priced s side) queue -> priced s side item ->
  heappush (lt_loc s) queue item = Ok q' ->
  heap_ordered (ple s side) queue -> heap_ordered (ple s side) q'.
Proof.
  intros HD Hitem Hrun.
  destruct (heappush_spec _ _ _ cmp_priced queue item HD Hitem)
    as (q'' & Hrun' & _ & Hord).
  assert (q'' = q') as -> by congruence. done.
Qed.

Lemma heappop_loc_ordered queue q' x :
  Forall (priced s side) queue ->
  heappop (lt_loc s) queue = Ok (q', x) ->
  heap_ordered (ple s side) queue -> heap_ordered (ple s side) q'.
Proof.
  intros HD Hrun.
  assert (queue <> []) as Hne.
  { intros ->. by vm_compute in Hrun. }
  destruct (heappop_spec _ _ _ cmp_priced queue Hne HD)
    as (q'' & x' & Hrun' & _ & _ & Hord).
  assert (q'' = q') as -> by congruence. done.
Qed.

Lemma heap_top_best queue top :
  Forall (priced s side) queue -> heap_ordered (ple s side) queue ->
  head queue = Some top ->
  forall r, r ∈ queue -> ple s side top r.
Proof.
  intros HD Hord Hhd r Hr.
  apply list_elem_of_lookup in Hr as [i Hi].
  rewrite head_lookup in Hhd.
  by apply (root_minimal _ _ _ cmp_priced queue top Hord HD Hhd i r).
Qed.
End queue_facts.

Lemma same_keys_refl s : same_keys s s.
Proof. split; [done|]. intros r o Hr. by exists o. Qed.

Lemma same_keys_trans s1 s2 s3 :
  same_keys s1 s2 -> same_keys s2 s3 -> same_keys s1 s3.
Proof.
  intros [Hl1 H1] [Hl2 H2]. split; [congruence|].
  intros r o Hr. destruct (H1 r o Hr) as (o' & Hr' & ? & ? & ? & ?).
  destruct (H2 r o' Hr') as (o'' & Hr'' & ? & ? & ? & ?).
  exists o''. repeat split; congruence.
Qed.

Lemma same_keys_insert s r o o' :
  s !! r = Some o -> order_side o' = order_side o -> price o' = price o ->
  order_type o' = order_type o -> stock o' = stock o ->
  same_keys s (<[r := o']> s).
Proof.
  intros Hr Hs Hp Ht Hk. split; [by rewrite length_insert|].
  intros r' x Hx. destruct (decide (r = r')) as [<-|Hne].
  - exists o'. rewrite list_lookup_insert_eq by by eapply lookup_lt_Some.
    assert (x = o) as -> by congruence. done.
  - exists x. by rewrite list_lookup_insert_ne.
Qed.

Lemma same_keys_quantity s r o q :
  s !! r = Some o -> same_keys s (<[r := with_quantity o q]> s).
Proof. intros Hr. by apply (same_keys_insert s r o). Qed.

Lemma same_keys_order_id s r o i :
  s !! r = Some o -> same_keys s (<[r := with_order_id o i]> s).
Proof. intros Hr. by apply (same_keys_insert s r o). Qed.

Lemma same_keys_app s l : same_keys s s -> forall r o, s !! r = Some o -> (s ++ l) !! r = Some o.
Proof. intros _ r o Hr. by apply lookup_app_l_Some. Qed.

Lemma on_side_same_keys s s' side r :
  same_keys s s' -> on_side s side r -> on_side s' side r.
Proof.
  intros [_ H] (o & Hr & Hs). destruct (H r o Hr) as (o' & Hr' & Hs' & _).
  exists o'. split; [done | congruence].
Qed.

Lemma priced_same_keys s s' side r :
  same_keys s s' -> priced s side r -> priced s' side r.
Proof.
  intros [_ H] (o & Hr & Hs & Hn).
  destruct (H r o Hr) as (o' & Hr' & Hs' & Hp' & _).
  exists o'. split; [done|]. split; congruence.
Qed.

Lemma ple_same_keys s s' side a b :
  same_keys s s' -> ple s side a b -> ple s' side a b.
Proof.
  intros [_ H] (oa & ob & Ha & Hb & Hab).
  destruct (H a oa Ha) as (oa' & Ha' & _ & Hpa & _).
  destruct (H b ob Hb) as (ob' & Hb' & _ & Hpb & _).
  exists oa', ob'. split; [done|]. split; [done|]. congruence.
Qed.

Lemma heap_ordered_same_keys s s' side q :
  same_keys s s' -> heap_ordered (ple s side) q -> heap_ordered (ple s' side) q.
Proof.
  intros Hk Hq i Hi x p Hx Hp. eapply ple_same_keys; [done|]. by apply (Hq i Hi).
Qed.

Lemma on_side_distinct s side a b :
  on_side s side a -> on_side s (opp side) b -> a <> b.
Proof.
  intros (oa & Ha & Hsa) (ob & Hb & Hsb) ->.
  assert (oa = ob) as -> by congruence.
  rewrite Hsa in Hsb. by destruct side.
Qed.

Lemma set_quantity_Some s r o q :
  s !! r = Some o -> set_quantity s r q = Ok (<[r := with_quantity o q]> s).
Proof. intros Hr. unfold set_quantity. by rewrite (deref_Some _ _ _ Hr). Qed.

(** What one run of the loop body does. *)
Lemma match_body_spec order side s queue top trades o t :
  loop_wf order side s queue top -> queue <> [] ->
  s !! order = Some o -> s !! top = Some t ->
  exists s' queue' top' trades',
    match_body order s queue top trades = Ok (s', queue', top', trades') /\
    same_keys s s' /\
    ((quantity t <= quantity o /\
      s' = (if 0 <? quantity t
            then <[top := with_quantity t 0]>
                   (<[order := with_quantity o (quantity o - quantity t)]> s)
            else s) /\
      trades' = (if 0 <? quantity t
                 then trades ++ [(quantity t, price t)] else trades) /\
      heappop (lt_loc s') queue = Ok (queue', top) /\
      queue ≡ₚ top :: queue' /\
      top' = default top (head queue'))
     \/
     (quantity o < quantity t /\
      s' = <[order := with_quantity o 0]>
             (<[top := with_quantity t (quantity t - quantity o)]> s) /\
      trades' = trades ++ [(quantity o, price t)] /\
      queue' = queue /\ top' = top)).
Proof.
  intros [Hord Hq Htop Hhd] Hne Ho Ht.
  pose proof (on_side_distinct _ _ _ _ Hord Htop) as Hdiff.
  unfold match_body.
  rewrite (deref_Some _ _ _ Ho), (deref_Some _ _ _ Ht). simpl.
  destruct (quantity t <=? quantity o) eqn:Hle.
  - apply Z.leb_le in Hle.
    set (s2 := if 0 <? quantity t
               then <[top := with_quantity t 0]>
                      (<[order := with_quantity o (quantity o - quantity t)]> s)
               else s).
    set (tr2 := if 0 <? quantity t
                then trades ++ [(quantity t, price t)] else trades).
    assert ((if 0 <? quantity t
             then s1 ← set_quantity s order (quantity o - quantity t);
                  s2 ← set_quantity s1 top 0;
                  Ok (s2, trades ++ [(quantity t, price t)])
             else Ok (s, trades)) = Ok (s2, tr2)) as ->.
    { unfold s2, tr2. destruct (0 <? quantity t); [|done].
      rewrite (set_quantity_Some _ _ _ _ Ho). simpl.
      rewrite (set_quantity_Some _ top t).
      - done.
      - by rewrite list_lookup_insert_ne. }
    simpl.
    assert (same_keys s s2) as Hkeys.
    { unfold s2. destruct (0 <? quantity t); [|apply same_keys_refl].
      eapply same_keys_trans; [by apply (same_keys_quantity s order o)|].
      apply same_keys_quantity. by rewrite list_lookup_insert_ne. }
    destruct (heappop_loc s2 (opp side) queue Hne) as (q' & x & Hpop & Hx & Hperm).
    { eapply Forall_impl; [done|]. intros r. by apply on_side_same_keys. }
    assert (x = top) as -> by (specialize (Hhd Hne); congruence).
    rewrite Hpop. simpl.
    exists s2, q', (default top (head q')), tr2.
    split; [by destruct q'|]. split; [done|]. left. done.
  - apply Z.leb_gt in Hle.
    rewrite (set_quantity_Some _ _ _ _ Ht). simpl.
    assert (<[top := with_quantity t (quantity t - quantity o)]> s !! order = Some o)
      as Ho1 by by rewrite list_lookup_insert_ne.
    assert (<[top := with_quantity t (quantity t - quantity o)]> s !! top
            = Some (with_quantity t (quantity t - quantity o))) as Ht1
      by (apply list_lookup_insert_eq; by eapply lookup_lt_Some).
    rewrite (deref_Some _ _ _ Ho1), (deref_Some _ _ _ Ht1). simpl.
    rewrite (set_quantity_Some _ _ _ _ Ho1). simpl.
    eexists _, _, _, _. split; [done|]. split.
    + eapply same_keys_trans; [by apply (same_keys_quantity s top t)|].
      by apply same_keys_quantity.
    + right. done.
Qed.

Lemma loop_wf_step order side s queue top trades s' queue' top' trades' :
  loop_wf order side s queue top -> queue <> [] ->
  match_body order s queue top trades = Ok (s', queue', top', trades') ->
  loop_wf order side s' queue' top' /\ same_keys s s' /\
  ((length queue' < length queue)%nat \/
   (queue' = queue /\ exists o', s' !! order = Some o' /\ quantity o' = 0)).
Proof.
  intros Hwf Hne Hrun.
  destruct Hwf as [Hord Hq Htop Hhd].
  destruct Hord as (o & Ho & Hso). destruct Htop as (t & Ht & Hst).
  destruct (match_body_spec order side s queue top trades o t)
    as (s1 & q1 & top1 & tr1 & Hrun1 & Hkeys & Hcase); try done.
  { split; [by exists o | done | by exists t | done]. }
  rewrite Hrun in Hrun1. injection Hrun1 as <- <- <- <-.
  assert (on_side s' side order) as Hord'
    by (eapply on_side_same_keys; [done | by exists o]).
  assert (on_side s' (opp side) top) as Htop'
    by (eapply on_side_same_keys; [done | by exists t]).
  assert (Forall (on_side s' (opp side)) queue) as Hq'.
  { eapply Forall_impl; [done|]. intros r. by apply on_side_same_keys. }
  split; [|split; [done|]].
  - destruct Hcase as [(_ & _ & _ & _ & Hperm & ->)|(_ & _ & _ & -> & ->)].
    + assert (Forall (on_side s' (opp side)) queue') as Hq1.
      { rewrite Hperm in Hq'. by apply Forall_cons in Hq' as [_ ?]. }
      split; [done | done | | ].
      * destruct queue' as [|x q'']; [done|]. simpl.
        by apply Forall_cons in Hq1 as [? _].
      * by destruct queue'.
    + done.
  - destruct Hcase as [(_ & _ & _ & _ & Hperm & _)|(Hlt & -> & _ & -> & _)].
    + left. rewrite Hperm. simpl. lia.
    + right. split; [done|]. exists (with_quantity o 0). split; [|done].
      apply list_lookup_insert_eq. rewrite length_insert.
      by apply (lookup_lt_Some _ _ _ Ho).
Qed.

Lemma limit_cond_spec cmp order side s queue top :
  loop_wf order side s queue top ->
  exists o t, s !! order = Some o /\ s !! top = Some t /\
    limit_cond cmp order s queue top
    = Ok (bool_decide (queue <> []) && (0 <? quantity o)
          && cmp (price o) (price t)).
Proof.
  intros [(o & Ho & _) _ (t & Ht & _) _]. exists o, t.
  split; [done|]. split; [done|]. unfold limit_cond.
  destruct queue; [done|].
  rewrite (deref_Some _ _ _ Ho). simpl.
  destruct (0 <? quantity o); [|done].
  by rewrite (deref_Some _ _ _ Ht).
Qed.

(** The loop as a whole: it returns, and an invariant of its body holds of
    its result. *)
Lemma limit_loop_rule
    (Inv : list Order -> list loc -> loc -> list trade -> Prop)
    cmp order side :
  (forall s queue top trades o t s' queue' top' trades',
     loop_wf order side s queue top -> Inv s queue top trades ->
     head queue = Some top -> s !! order = Some o -> s !! top = Some t ->
     0 < quantity o -> cmp (price o) (price t) = true ->
     match_body order s queue top trades = Ok (s', queue', top', trades') ->
     Inv s' queue' top' trades') ->
  forall fuel s queue top trades,
    loop_wf order side s queue top -> Inv s queue top trades ->
    ((length queue <= fuel)%nat \/
     exists o, s !! order = Some o /\ quantity o <= 0) ->
    exists s' queue' top' trades',
      limit_loop fuel cmp order s queue top trades = Ok (s', queue', trades') /\
      loop_wf order side s' queue' top' /\ same_keys s s' /\
      Inv s' queue' top' trades' /\
      limit_cond cmp order s' queue' top' = Ok false.
Proof.
  intros Hstep fuel.
  induction fuel as [|fuel IH]; intros s queue top trades Hwf Hinv Hfuel;
    destruct (limit_cond_spec cmp order side s queue top Hwf)
      as (o & t & Ho & Ht & Hcond);
    simpl; rewrite Hcond; simpl.
  - assert (bool_decide (queue <> []) && (0 <? quantity o)
            && cmp (price o) (price t) = false) as Hfalse.
    { destruct Hfuel as [Hlen|(o' & Ho' & Hq)].
      - destruct queue; [done | simpl in Hlen; lia].
      - assert (o' = o) as -> by congruence.
        assert ((0 <? quantity o) = false) as -> by (apply Z.ltb_ge; lia).
        by rewrite andb_false_r. }
    rewrite Hfalse in Hcond |- *.
    exists s, queue, top, trades. eauto using same_keys_refl.
  - destruct (bool_decide (queue <> []) && (0 <? quantity o)
              && cmp (price o) (price t)) eqn:Hc.
    + apply andb_prop in Hc as [Hc Hcmp]. apply andb_prop in Hc as [Hne Hpos].
      apply bool_decide_eq_true in Hne. apply Z.ltb_lt in Hpos.
      destruct (match_body_spec order side s queue top trades o t)
        as (s1 & q1 & top1 & tr1 & Hrun & _ & _); try done.
      rewrite Hrun. simpl.
      destruct (loop_wf_step _ _ _ _ _ _ _ _ _ _ Hwf Hne Hrun)
        as (Hwf1 & Hkeys1 & Hmeasure).
      destruct (IH s1 q1 top1 tr1) as (s' & q' & top' & tr' & Hloop & Hwf' & Hkeys' & Hinv' & Hc');
        [done | | | ].
      * apply (Hstep s queue top trades o t s1 q1 top1 tr1); try done.
        by apply (lw_head _ _ _ _ _ Hwf).
      * destruct Hmeasure as [Hlt|(-> & o' & Ho' & Hq')].
        -- left. destruct Hfuel as [Hlen|(o' & Ho' & Hq)]; [lia|].
           assert (o' = o) as -> by congruence. lia.
        -- right. exists o'. split; [done | lia].
      * exists s', q', top', tr'. split; [done|]. split; [done|].
        split; [by eapply same_keys_trans|]. done.
    + exists s, queue, top, trades. eauto 10 using same_keys_refl.
Qed.

(** The market loop is the limit loop whose crossing test is always true. *)
Lemma market_loop_limit order side fuel : forall s queue top trades,
  loop_wf order side s queue top ->
  market_loop fuel order s queue top trades
  = limit_loop fuel (fun _ _ => true) order s queue top trades.
Proof.
  induction fuel as [|fuel IH]; intros s queue top trades Hwf;
    destruct (limit_cond_spec (fun _ _ => true) order side s queue top Hwf)
      as (o & t & Ho & Ht & Hcond);
    simpl; rewrite Hcond; simpl;
    assert (market_cond order s queue
            = Ok (bool_decide (queue <> []) && (0 <? quantity o) && true)) as ->
      by (unfold market_cond; destruct queue; [done|];
          rewrite (deref_Some _ _ _ Ho); simpl; by rewrite andb_true_r);
    simpl; [done|].
  destruct (bool_decide (queue <> []) && (0 <? quantity o) && true) eqn:Hc; [|done].
  apply andb_prop in Hc as [Hc _]. apply andb_prop in Hc as [Hne _].
  apply bool_decide_eq_true in Hne.
  destruct (match_body order s queue top trades) as [[[[s1 q1] top1] tr1]| |] eqn:Hrun;
    simpl; [|done..].
  apply IH. by destruct (loop_wf_step _ _ _ _ _ _ _ _ _ _ Hwf Hne Hrun).
Qed.

Lemma on_sideb_spec s side r : on_sideb s side r = true <-> on_side s side r.
Proof.
  unfold on_sideb, on_side. destruct (s !! r) as [o|]; split.
  - intros H%bool_decide_eq_true. eauto.
  - intros (o' & [= <-] & H). by apply bool_decide_eq_true.
  - done.
  - by intros (? & ? & _).
Qed.

Lemma book_okb_spec st : book_okb st = true <-> book_ok st.
Proof.
  unfold book_okb, book_ok. rewrite andb_true_iff, !forallb_forall. split.
  - intros [Hs Hb] side. apply Forall_forall. intros r Hr.
    apply on_sideb_spec. apply list_elem_of_In in Hr. destruct side; auto.
  - intros H. split; intros r Hr; apply on_sideb_spec.
    + specialize (H SELL). rewrite Forall_forall in H. apply H.
      by apply list_elem_of_In.
    + specialize (H BUY). rewrite Forall_forall in H. apply H.
      by apply list_elem_of_In.
Qed.

Lemma opposite_own side b : opposite_queue side b = own_queue (opp side) b.
Proof. by destruct side. Qed.

Lemma own_set_queues side b q oq : own_queue side (set_queues side b q oq) = oq.
Proof. by destruct side. Qed.

Lemma opposite_set_queues side b q oq :
  opposite_queue side (set_queues side b q oq) = q.
Proof. by destruct side. Qed.

Lemma stock_set_queues side b q oq :
  book_stock (set_queues side b q oq) = book_stock b.
Proof. by destruct side. Qed.

Lemma set_queues_same side b :
  set_queues side b (opposite_queue side b) (own_queue side b) = b.
Proof. by destruct side, b. Qed.

Lemma opp_opp side : opp (opp side) = side.
Proof. by destruct side. Qed.

Lemma on_side_alloc s o side r : on_side s side r -> on_side (s ++ [o]) side r.
Proof. intros (x & Hx & Hs). exists x. split; [by apply lookup_app_l_Some | done]. Qed.

Lemma lookup_alloc (s : list Order) o : (s ++ [o]) !! length s = Some o.
Proof. rewrite lookup_app_r by lia. by rewrite Nat.sub_diag. Qed.

Lemma loop_exit_of_cond cmp order side s queue top :
  loop_wf order side s queue top ->
  limit_cond cmp order s queue top = Ok false ->
  loop_exit cmp s order queue.
Proof.
  intros Hwf Hc.
  destruct (limit_cond_spec cmp order side s queue top Hwf)
    as (o & t & Ho & Ht & Hcond).
  rewrite Hcond in Hc. injection Hc as Hc.
  apply andb_false_iff in Hc as [Hc|Hc]; [apply andb_false_iff in Hc as [Hc|Hc]|].
  - left. apply bool_decide_eq_false in Hc.
    destruct queue; [done|]. exfalso. by apply Hc.
  - right. left. exists o. split; [done|]. by apply Z.ltb_ge.
  - destruct (decide (queue = [])) as [->|Hne]; [by left|].
    right. right. exists o, top, t. split; [done|].
    split; [by apply (lw_head _ _ _ _ _ Hwf)|]. done.
Qed.

Section submission.
Context (Inv : list Order -> list loc -> loc -> list trade -> Prop).
Context (oid : Z) (otype : Type_) (oside : Side) (qty : Z) (prc : price_t)
        (stk : string) (st : state).

Local Abbreviation order := (length (objs st)).
Local Abbreviation o0 := (mkOrder oid otype oside qty prc stk).
Local Abbreviation s0 := (objs st ++ [mkOrder oid otype oside qty prc stk]).
Local Abbreviation queue := (opposite_queue oside (book st)).
Local Abbreviation own := (own_queue oside (book st)).
Local Abbreviation cmp := (crossing otype oside).

Hypothesis Hok : book_ok st.
Hypothesis Hstep :
  forall s q top trades o t s' q' top' trades',
    loop_wf order oside s q top -> Inv s q top trades ->
    head q = Some top -> s !! order = Some o -> s !! top = Some t ->
    0 < quantity o -> cmp (price o) (price t) = true ->
    match_body order s q top trades = Ok (s', q', top', trades') ->
    Inv s' q' top' trades'.
Hypothesis Hinit : forall top, Inv s0 queue top [].

Lemma submission_order : on_side s0 oside order.
Proof. exists o0. split; [apply lookup_alloc | done]. Qed.

Lemma submission_queue : Forall (on_side s0 (opp oside)) queue.
Proof.
  rewrite opposite_own. eapply Forall_impl; [apply Hok|].
  intros r. apply on_side_alloc.
Qed.

Lemma submission_own : Forall (on_side s0 oside) own.
Proof. eapply Forall_impl; [apply Hok|]. intros r. apply on_side_alloc. Qed.

(** The matching part of a submission. *)
Lemma submission_loop :
  exists s' queue' top' trades o',
    match queue with
    | [] => Ok (s0, queue, [])
    | top_order :: _ =>
        limit_loop (length queue) cmp order s0 queue top_order []
    end = Ok (s', queue', trades) /\
    same_keys s0 s' /\ s' !! order = Some o' /\
    Forall (on_side s' (opp oside)) queue' /\
    Inv s' queue' top' trades /\
    loop_exit cmp s' order queue'.
Proof.
  pose proof submission_order as Hord.
  pose proof submission_queue as Hq.
  destruct queue as [|top rest] eqn:Hqueue.
  - exists s0, [], 0%nat, [], o0.
    split; [done|]. split; [apply same_keys_refl|].
    split; [apply lookup_alloc|]. split; [done|].
    split; [apply Hinit | by left].
  - assert (loop_wf order oside s0 (top :: rest) top) as Hwf.
    { split; [done | done | by apply Forall_cons in Hq as [? _] | done]. }
    destruct (limit_loop_rule Inv cmp order oside Hstep
                (length (top :: rest)) s0 (top :: rest) top [] Hwf)
      as (s' & q' & top' & tr' & Hrun & Hwf' & Hkeys & Hinv & Hc).
    { apply Hinit. } { by left. }
    destruct (lw_order _ _ _ _ _ Hwf') as (o' & Ho' & _).
    exists s', q', top', tr', o'. split; [done|]. split; [done|].
    split; [done|]. split; [apply (lw_queue _ _ _ _ _ Hwf')|].
    split; [done|]. by eapply loop_exit_of_cond.
Qed.

(** [add_order] returns; its result in terms of the loop's. *)
Lemma add_order_rule :
  exists s' queue' top' trades o' own',
    add_order oid otype oside qty prc stk st
    = Ok (mkState s' (set_queues oside (book st) queue' own'), order, trades) /\
    same_keys s0 s' /\ s' !! order = Some o' /\
    Forall (on_side s' (opp oside)) queue' /\
    Forall (on_side s' oside) own /\
    Inv s' queue' top' trades /\
    loop_exit cmp s' order queue' /\
    match otype with
    | LIMIT =>
        if 0 <? quantity o'
        then heappush (lt_loc s') own order = Ok own' /\ own' ≡ₚ own ++ [order]
        else own' = own
    | MARKET => own' = own
    end.
Proof.
  pose proof submission_order as Hord.
  pose proof submission_own as Hown.
  destruct submission_loop
    as (s' & q' & top' & tr' & o' & Hrun & Hkeys & Ho' & Hq' & Hinv & Hexit).
  assert (Forall (on_side s' oside) own) as Hown'.
  { eapply Forall_impl; [done|]. intros r. by apply on_side_same_keys. }
  assert (on_side s' oside order) as Hord' by by eapply on_side_same_keys.
  unfold add_order. simpl.
  rewrite (deref_Some _ _ _ (lookup_alloc (objs st) o0)). simpl.
  destruct (decide (otype = LIMIT)) as [Htype|Htype].
  - (* limit *)
    unfold add_limit_order. simpl.
    rewrite (deref_Some _ _ _ (lookup_alloc (objs st) _)). simpl.
    assert (cmp = compare oside) as Hcmp by (by rewrite Htype).
    rewrite Hcmp in Hrun.
    rewrite Hrun. simpl. rewrite (deref_Some _ _ _ Ho'). simpl.
    destruct (0 <? quantity o') eqn:Hpos.
    + destruct (heappush_loc s' oside own order Hown' Hord') as (own' & Hpush & Hperm).
      rewrite Hpush. simpl.
      exists s', q', top', tr', o', own'.
      do 7 (split; [done|]). rewrite Htype, Hpos. done.
    + simpl. exists s', q', top', tr', o', own.
      do 7 (split; [done|]). rewrite Htype, Hpos. done.
  - (* market *)
    assert (otype = MARKET) as Hm by (by destruct otype).
    unfold add_market_order. simpl.
    rewrite (deref_Some _ _ _ (lookup_alloc (objs st) _)). simpl.
    assert (match queue with
            | [] => Ok (s0, queue, [])
            | top_order :: _ =>
                market_loop (length queue) order s0 queue top_order []
            end = Ok (s', q', tr')) as ->.
    { assert (cmp = fun _ _ => true) as Hcmp by (by rewrite Hm).
      rewrite Hcmp in Hrun.
      rewrite <- Hrun. destruct queue as [|top rest] eqn:Hqueue; [done|].
      apply (market_loop_limit order oside).
      pose proof submission_queue as Hq. rewrite Hqueue in Hq.
      split; [done | done | by apply Forall_cons in Hq as [? _] | done]. }
    simpl. exists s', q', top', tr', o', own.
    do 7 (split; [done|]). rewrite Hm. done.
Qed.
End submission.

Lemma match_body_cases order side s queue top trades o t s' queue' top' trades' :
  loop_wf order side s queue top -> queue <> [] ->
  s !! order = Some o -> s !! top = Some t ->
  match_body order s queue top trades = Ok (s', queue', top', trades') ->
  body_case order top s trades o t s' trades' /\
  (forall r, r <> order -> r <> top -> s' !! r = s !! r) /\
  length s' = length s /\
  queue' ⊆ queue /\
  (queue' = queue \/
   (heappop (lt_loc s') queue = Ok (queue', top) /\ queue ≡ₚ top :: queue')).
Proof.
  intros Hwf Hne Ho Ht Hrun.
  pose proof (on_side_distinct _ _ _ _ (lw_order _ _ _ _ _ Hwf) (lw_top _ _ _ _ _ Hwf))
    as Hdiff.
  pose proof (lookup_lt_Some _ _ _ Ho) as Holen.
  pose proof (lookup_lt_Some _ _ _ Ht) as Htlen.
  destruct (match_body_spec order side s queue top trades o t Hwf Hne Ho Ht)
    as (s1 & q1 & top1 & tr1 & Hrun1 & _ & Hcase).
  rewrite Hrun in Hrun1. injection Hrun1 as <- <- <- <-.
  destruct Hcase as [(Hle & Hs & Htr & Hpop & Hperm & Htop)|(Hlt & Hs & Htr & Hq & Htop)].
  - assert (queue' ⊆ queue) as Hsub.
    { intros x Hx. rewrite Hperm. by right. }
    destruct (0 <? quantity t) eqn:Hpos.
    + apply Z.ltb_lt in Hpos. split; [|split; [|split; [|split]]].
      * apply body_fill; try done.
        -- rewrite Hs. rewrite list_lookup_insert_ne by done.
           by apply list_lookup_insert_eq.
        -- rewrite Hs. apply list_lookup_insert_eq. by rewrite length_insert.
      * intros r Hr1 Hr2. rewrite Hs. by rewrite !list_lookup_insert_ne.
      * rewrite Hs. by rewrite !length_insert.
      * done.
      * by right.
    + apply Z.ltb_ge in Hpos. split; [|split; [|split; [|split]]].
      * by apply body_skip.
      * intros r _ _. by rewrite Hs.
      * by rewrite Hs.
      * done.
      * by right.
  - split; [|split; [|split; [|split]]].
    + apply body_partial; try done.
      * rewrite Hs. apply list_lookup_insert_eq. by rewrite length_insert.
      * rewrite Hs. rewrite list_lookup_insert_ne by done.
        by apply list_lookup_insert_eq.
    + intros r Hr1 Hr2. rewrite Hs. by rewrite !list_lookup_insert_ne.
    + rewrite Hs. by rewrite !length_insert.
    + by rewrite Hq.
    + by left.
Qed.

Lemma sum_quantities_snoc trades t :
  sum_quantities (trades ++ [t]) = sum_quantities trades + t.1.
Proof. unfold sum_quantities. induction trades as [|x l IH]; simpl; lia. Qed.

Lemma on_side_lt s side r : on_side s side r -> (r < length s)%nat.
Proof. intros (o & Hr & _). by eapply lookup_lt_Some. Qed.

Lemma book_ok_sides st side r :
  book_ok st -> r ∈ own_queue side (book st) -> on_side (objs st) side r.
Proof. intros Hok Hr. specialize (Hok side). rewrite Forall_forall in Hok. auto. Qed.

Lemma submission_result oid otype oside qty prc stk st :
  book_ok st -> 0 < qty ->
  exists st' trades o',
    add_order oid otype oside qty prc stk st
    = Ok (st', length (objs st), trades) /\
    objs st' !! length (objs st) = Some o' /\
    0 <= quantity o' /\
    sum_quantities trades + quantity o' = qty /\
    book_ok st' /\
    same_keys (objs st ++ [mkOrder oid otype oside qty prc stk]) (objs st') /\
    book_stock (book st') = book_stock (book st) /\
    (opposite_queue oside (book st') ⊆ opposite_queue oside (book st)) /\
    (length (objs st) ∉ opposite_queue oside (book st')) /\
    loop_exit (crossing otype oside) (objs st') (length (objs st))
      (opposite_queue oside (book st')) /\
    match otype with
    | LIMIT =>
        own_queue oside (book st')
        ≡ₚ (if 0 <? quantity o'
            then own_queue oside (book st) ++ [length (objs st)]
            else own_queue oside (book st))
    | MARKET => own_queue oside (book st') = own_queue oside (book st)
    end /\
    (length (objs st) ∉ own_queue oside (book st)).
Proof.
  intros Hok Hqty.
  set (order := length (objs st)).
  set (queue0 := opposite_queue oside (book st)).
  destruct (add_order_rule
    (fun s q top tr => exists o, s !! order = Some o /\ 0 <= quantity o /\
       sum_quantities tr + quantity o = qty /\ q ⊆ queue0)
    oid otype oside qty prc stk st Hok)
    as (s' & q' & top' & trades & o' & own' & Hrun & Hkeys & Ho' & Hq' & Hown & Hinv & Hexit & Hpush).
  - intros s q top tr o t s1 q1 top1 tr1 Hwf (o1 & Ho1 & Hnn & Hsum & Hsub)
      Hhd Ho Ht Hpos Hcmp Hbody.
    assert (o1 = o) as -> by (unfold order in Ho1; congruence).
    assert (q <> []) as Hne by (by destruct q).
    destruct (match_body_cases _ _ _ _ _ _ o t _ _ _ _ Hwf Hne Ho Ht Hbody)
      as (Hcase & _ & _ & Hsub1 & _).
    destruct Hcase as [H1 H2 H3 H4 ->|H1 H2 -> ->|H1 H2 H3 ->].
    + eexists. split; [exact H3|]. simpl. rewrite sum_quantities_snoc. simpl.
      split; [lia|]. split; [lia|]. intros x Hx. apply Hsub, Hsub1, Hx.
    + exists o. split; [done|]. split; [done|]. split; [done|].
      intros x Hx. apply Hsub, Hsub1, Hx.
    + eexists. split; [exact H2|]. simpl. rewrite sum_quantities_snoc. simpl.
      split; [lia|]. split; [lia|]. intros x Hx. apply Hsub, Hsub1, Hx.
  - intros top. eexists. split; [apply lookup_alloc|]. simpl.
    split; [lia|]. split; [done|]. done.
  - destruct Hinv as (o1 & Ho1 & Hnn & Hsum & Hsub).
    assert (o1 = o') as -> by (unfold order in Ho1; congruence).
    assert (order ∉ own_queue oside (book st)) as Hnotown.
    { intros Hin. apply (book_ok_sides st oside order Hok) in Hin.
      apply on_side_lt in Hin. unfold order in Hin. lia. }
    assert (on_side s' oside order) as Hord.
    { eapply on_side_same_keys; [done|]. apply submission_order. }
    eexists _, trades, o'. split; [exact Hrun|]. simpl.
    rewrite opposite_set_queues, own_set_queues, stock_set_queues.
    split; [done|]. split; [done|]. split; [done|].
    split; [|split; [done|split; [done|split; [done|split; [|split; [done|split; [|done]]]]]]].
    + (* book_ok *)
      intros side. simpl.
      destruct (decide (side = oside)) as [->|Hne].
      * rewrite own_set_queues.
        destruct otype.
        -- by rewrite Hpush.
        -- destruct (0 <? quantity o').
           ++ destruct Hpush as [_ Hperm]. rewrite Hperm.
              apply Forall_app. split; [done|]. by apply Forall_singleton.
           ++ by rewrite Hpush.
      * assert (side = opp oside) as -> by (by destruct side, oside).
        rewrite <- opposite_own, opposite_set_queues. done.
    + intros Hin. rewrite Forall_forall in Hq'. apply Hq' in Hin.
      by apply (on_side_distinct _ _ _ _ Hord Hin).
    + destruct otype; [done|].
      destruct (0 <? quantity o'); [by destruct Hpush | by rewrite Hpush].
Qed.

(** C10. Cancelling sets the order's quantity to 0 and nothing else: the
    book's queues are the same lists (the order stays where it is in its
    queue), every other order is untouched, and the order's other fields
    are kept.  Cancelling an order whose quantity is already 0 returns
    without an error and leaves the whole state as it was; in particular
    cancelling twice is the same as cancelling once. *)
Theorem cancel_sets_quantity_only (st : state) (r : loc) (o : Order) :
  objs st !! r = Some o ->
  exists st',
    delete_order r st = Ok st' /\
    objs st' !! r = Some (with_quantity o 0) /\
    book st' = book st /\
    length (objs st') = length (objs st) /\
    (forall r', r' <> r -> objs st' !! r' = objs st !! r') /\
    (quantity o = 0 -> st' = st) /\
    delete_order r st' = Ok st'.
Proof.
  intros Ho. pose proof (lookup_lt_Some _ _ _ Ho) as Hlen.
  exists (mkState (<[r := with_quantity o 0]> (objs st)) (book st)).
  assert (<[r := with_quantity o 0]> (objs st) !! r = Some (with_quantity o 0))
    as Hr by by apply list_lookup_insert_eq.
  split; [|split; [done|split; [done|split; [|split; [|split]]]]].
  - unfold delete_order. by rewrite (set_quantity_Some _ _ _ _ Ho).
  - simpl. by rewrite length_insert.
  - intros r' Hne. simpl. by rewrite list_lookup_insert_ne.
  - intros Hq. destruct st as [s b]. simpl in *. f_equal.
    apply list_insert_id. transitivity (Some o); [exact Ho|].
    f_equal. destruct o. simpl in *. by subst.
  - unfold delete_order. simpl. rewrite (set_quantity_Some _ _ _ _ Hr). simpl.
    by rewrite list_insert_insert_eq.
Qed.

Lemma cancel_sets_quantity_only_witness :
  exists st',
    delete_order 0%nat one_bid = Ok st' /\
    objs st' !! 0%nat
    = Some (with_quantity (mkOrder 1 LIMIT BUY 100 (float_of_Z 10) "STOCK") 0) /\
    book st' = book one_bid /\
    length (objs st') = length (objs one_bid) /\
    (forall r', r' <> 0%nat -> objs st' !! r' = objs one_bid !! r') /\
    (quantity (mkOrder 1 LIMIT BUY 100 (float_of_Z 10) "STOCK") = 0 ->
     st' = one_bid) /\
    delete_order 0%nat st' = Ok st'.
Proof. apply (cancel_sets_quantity_only one_bid 0%nat). reflexivity. Defined.

Lemma market_result (oid : Z) (side : Side) (qty : Z)
    (prc : price_t) (stk : string) (st : state) :
  book_ok st -> 0 < qty ->
  exists st' trades o',
    add_order oid MARKET side qty prc stk st
    = Ok (st', length (objs st), trades) /\
    objs st' !! length (objs st) = Some o' /\
    (quantity o' = 0 \/ opposite_queue side (book st') = []) /\
    own_queue side (book st') = own_queue side (book st) /\
    (length (objs st) ∉ sell_queue (book st')) /\
    (length (objs st) ∉ buy_queue (book st')) /\
    resting_quantity st' (length (objs st)) = 0.
Proof.
  intros Hok Hqty.
  destruct (submission_result oid MARKET side qty prc stk st Hok Hqty)
    as (st' & trades & o' & Hrun & Ho' & Hnn & Hsum & Hok' & _ & _ & Hsub & Hnopp
        & Hexit & Hown & Hnown).
  assert ((length (objs st) ∉ sell_queue (book st')) /\
          (length (objs st) ∉ buy_queue (book st'))) as [Hns Hnb].
  { rewrite <- Hown in Hnown. destruct side; simpl in *; done. }
  exists st', trades, o'. split; [done|]. split; [done|].
  split; [|split; [done|split; [done|split; [done|]]]].
  - destruct Hexit as [Hq|[(o1 & Ho1 & Hq)|(o1 & top & t & _ & _ & _ & Hc)]].
    + by right.
    + left. pose proof (eq_trans (eq_sym Ho1) Ho') as [= ->]. lia.
    + done.
  - unfold resting_quantity. rewrite Ho'.
    rewrite bool_decide_eq_false_2; [done|]. by intros [?|?].
Qed.



Lemma modify_order_unfold r qty prc st o :
  objs st !! r = Some o ->
  modify_order r qty prc st
  = add_order (order_id o) (order_type o) (order_side o) qty prc (stock o)
      (mkState (<[r := retired o]> (objs st)) (book st)).
Proof.
  intros Ho. pose proof (lookup_lt_Some _ _ _ Ho) as Hlen.
  unfold modify_order. rewrite (deref_Some _ _ _ Ho). simpl.
  unfold set_order_id. rewrite (deref_Some _ _ _ Ho). simpl.
  unfold delete_order. simpl.
  assert (<[r := with_order_id o (-1)]> (objs st) !! r
          = Some (with_order_id o (-1))) as H1 by by apply list_lookup_insert_eq.
  rewrite (set_quantity_Some _ _ _ _ H1). simpl.
  rewrite list_insert_insert_eq.
  assert (<[r := with_quantity (with_order_id o (-1)) 0]> (objs st) !! r
          = Some (retired o)) as H2 by by apply list_lookup_insert_eq.
  rewrite (deref_Some _ _ _ H2). done.
Qed.

Lemma same_keys_retired s r o :
  s !! r = Some o -> same_keys s (<[r := retired o]> s).
Proof. intros Ho. by apply (same_keys_insert s r o). Qed.

Lemma book_ok_same_keys s s' b :
  same_keys s s' -> book_ok (mkState s b) -> book_ok (mkState s' b).
Proof.
  intros Hk Hok side. specialize (Hok side). simpl in *.
  eapply Forall_impl; [done|]. intros x. by apply on_side_same_keys.
Qed.

Lemma book_ok_retired st r o :
  objs st !! r = Some o -> book_ok st ->
  book_ok (mkState (<[r := retired o]> (objs st)) (book st)).
Proof.
  intros Ho Hok. apply (book_ok_same_keys (objs st)).
  - by apply same_keys_retired.
  - by destruct st.
Qed.

Lemma limit_rests_iff oid side qty prc stk st :
  book_ok st -> 0 < qty ->
  exists st' trades o',
    add_order oid LIMIT side qty prc stk st
    = Ok (st', length (objs st), trades) /\
    objs st' !! length (objs st) = Some o' /\
    0 <= quantity o' /\
    sum_quantities trades + quantity o' = qty /\
    (length (objs st) ∈ own_queue side (book st') <-> 0 < quantity o') /\
    (length (objs st) ∉ opposite_queue side (book st')).
Proof.
  intros Hok Hqty.
  destruct (submission_result oid LIMIT side qty prc stk st Hok Hqty)
    as (st' & trades & o' & Hrun & Ho' & Hnn & Hsum & Hok' & _ & _ & Hsub & Hnopp
        & Hexit & Hown & Hnown).
  exists st', trades, o'. do 4 (split; [done|]). split; [|done].
  rewrite Hown. destruct (0 <? quantity o') eqn:Hpos.
  - apply Z.ltb_lt in Hpos. split; [done|]. intros _.
    apply elem_of_app. right. by apply list_elem_of_singleton.
  - apply Z.ltb_ge in Hpos. split; [done | lia].
Qed.

(** C3 (as amended). A submission with quantity q > 0 returns, and the
    quantities of its trades plus the quantity left on the submitted order
    add up to q.  For a limit order what is left is the quantity with which
    the order rests (0 when it was filled and not queued); a market order
    never rests, so what is left of it is dropped and the trades alone add
    up to at most q. *)
Theorem quantity_conservation (oid : Z) (otype : Type_) (side : Side) (qty : Z)
    (prc : price_t) (stk : string) (st : state) :
  book_okb st = true -> 0 < qty ->
  exists st' trades o',
    add_order oid otype side qty prc stk st
    = Ok (st', length (objs st), trades) /\
    objs st' !! length (objs st) = Some o' /\
    0 <= quantity o' /\
    sum_quantities trades + quantity o' = qty /\
    resting_quantity st' (length (objs st))
    = match otype with LIMIT => quantity o' | MARKET => 0 end.
Proof.
  intros Hokb Hqty. destruct otype.
  - apply book_okb_spec in Hokb.
    destruct (market_result oid side qty prc stk st Hokb Hqty)
      as (st' & trades & o' & Hrun & Ho' & _ & _ & _ & _ & Hrest).
    destruct (submission_result oid MARKET side qty prc stk st Hokb Hqty)
      as (st'' & trades' & o'' & Hrun' & Ho'' & Hnn & Hsum & _).
    rewrite Hrun in Hrun'. injection Hrun' as <- <-.
    pose proof (eq_trans (eq_sym Ho') Ho'') as [= <-].
    by exists st', trades, o'.
  - apply book_okb_spec in Hokb.
    destruct (limit_rests_iff oid side qty prc stk st Hokb Hqty)
      as (st' & trades & o' & Hrun & Ho' & Hnn & Hsum & Hiff & Hnopp).
    exists st', trades, o'. do 4 (split; [done|]).
    unfold resting_quantity. rewrite Ho'.
    destruct (decide (0 < quantity o')) as [Hpos|Hpos].
    + rewrite bool_decide_eq_true_2; [done|].
      apply Hiff in Hpos. destruct side; simpl in Hpos; auto.
    + rewrite bool_decide_eq_false_2; [lia|].
      intros Hin. apply Hpos, Hiff. destruct side; simpl in *; tauto.
Qed.

Lemma quantity_conservation_witness :
  exists st' trades o',
    add_order 2 LIMIT BUY 150 (float_of_Z 10) "STOCK" one_ask
    = Ok (st', length (objs one_ask), trades) /\
    objs st' !! length (objs one_ask) = Some o' /\
    0 <= quantity o' /\
    sum_quantities trades + quantity o' = 150 /\
    resting_quantity st' (length (objs one_ask)) = quantity o'.
Proof.
  apply (quantity_conservation 2 LIMIT BUY 150 (float_of_Z 10) "STOCK" one_ask);
    [reflexivity | lia].
Defined.

(** C3, the claim as it is written fails for a market order that finds too
    little liquidity: against [sell 100 @ 10.00], a market buy of 150 trades
    100 and rests nowhere, so trades plus resting quantity give 100, not
    150. *)
Lemma conservation_fails_for_market :
  exists st' r trades,
    add_order 2 MARKET BUY 150 float_inf "STOCK" one_ask = Ok (st', r, trades) /\
    sum_quantities trades = 100 /\
    resting_quantity st' r = 0 /\
    sum_quantities trades + resting_quantity st' r <> 150.
Proof.
  eexists _, _, _. split; [vm_compute; reflexivity|].
  split; [reflexivity|]. split; [reflexivity|]. vm_compute. discriminate.
Qed.

(** C7 (as amended). A limit submission with a positive quantity, and the
    resubmission made by [modify_order] on a limit order, always return the
    order object they created as the first component, also when the order
    was filled completely; the order is in its own side's queue exactly
    when its remaining quantity is positive, and then the handle is that of
    the resting order. *)
Theorem limit_handle_always_returned (side : Side) (qty : Z) (prc : price_t)
    (st : state) :
  book_okb st = true -> 0 < qty ->
  (forall oid stk,
     returns_order st side (add_order oid LIMIT side qty prc stk st)) /\
  (forall r o,
     objs st !! r = Some o -> order_type o = LIMIT -> order_side o = side ->
     returns_order st side (modify_order r qty prc st)).
Proof.
  intros Hok%book_okb_spec Hqty. split.
  - intros oid stk.
    destruct (limit_rests_iff oid side qty prc stk st Hok Hqty)
      as (st' & trades & o' & Hrun & Ho' & Hnn & _ & Hiff & Hnopp).
    by exists st', trades, o'.
  - intros r o Ho Htype Hside.
    rewrite (modify_order_unfold r qty prc st o Ho), Htype, Hside.
    destruct (limit_rests_iff (order_id o) side qty prc (stock o)
                (mkState (<[r := retired o]> (objs st)) (book st)))
      as (st' & trades & o' & Hrun & Ho' & Hnn & _ & Hiff & Hnopp);
      [by apply book_ok_retired | done |].
    simpl in *. rewrite length_insert in Hrun, Ho', Hiff, Hnopp.
    by exists st', trades, o'.
Qed.

Lemma limit_handle_always_returned_witness :
  (forall oid stk,
     returns_order one_ask BUY
       (add_order oid LIMIT BUY 100 (float_of_Z 10) stk one_ask)) /\
  (forall r o,
     objs one_ask !! r = Some o -> order_type o = LIMIT -> order_side o = BUY ->
     returns_order one_ask BUY (modify_order r 100 (float_of_Z 10) one_ask)).
Proof.
  apply (limit_handle_always_returned BUY 100 (float_of_Z 10) one_ask);
    [reflexivity | lia].
Defined.

(** C7, the claim as it is written fails: a buy limit of 100 at 10.00
    against [sell 100 @ 10.00] is filled completely, and the call still
    returns the handle of its order object, whose quantity is 0 and which is
    in no queue. *)
Lemma filled_limit_still_returns_handle :
  exists st' r trades o,
    add_order 2 LIMIT BUY 100 (float_of_Z 10) "STOCK" one_ask
    = Ok (st', r, trades) /\
    objs st' !! r = Some o /\
    quantity o = 0 /\
    sell_queue (book st') = [] /\ buy_queue (book st') = [].
Proof.
  eexists _, _, _, _. split; [vm_compute; reflexivity|].
  split; [reflexivity|]. done.
Qed.

Lemma loop_wfb_spec order side s queue top :
  loop_wfb order side s queue top = true -> loop_wf order side s queue top.
Proof.
  unfold loop_wfb. rewrite !andb_true_iff. intros [[[Ho Hq] Ht] Hh].
  split.
  - by apply on_sideb_spec.
  - apply Forall_forall. intros r Hr. apply on_sideb_spec.
    rewrite forallb_forall in Hq. apply Hq. by apply list_elem_of_In.
  - by apply on_sideb_spec.
  - destruct queue as [|x q]; [done|]. intros _.
    apply bool_decide_eq_true in Hh. by subst.
Qed.

Lemma matched_submission oid otype side qty prc stk st :
  book_ok st -> 0 < qty ->
  exists st' trades top',
    add_order oid otype side qty prc stk st
    = Ok (st', length (objs st), trades) /\
    matched (length (objs st))
      (objs st ++ [mkOrder oid otype side qty prc stk])
      (opposite_queue side (book st))
      (objs st') (opposite_queue side (book st')) top' trades /\
    Forall (fun t : trade => 0 < t.1) trades.
Proof.
  intros Hok Hqty.
  set (order := length (objs st)).
  set (s0 := objs st ++ [mkOrder oid otype side qty prc stk]).
  set (q0 := opposite_queue side (book st)).
  destruct (add_order_rule
    (fun s q top tr => matched order s0 q0 s q top tr /\
                       Forall (fun t : trade => 0 < t.1) tr)
    oid otype side qty prc stk st Hok)
    as (s' & q' & top' & trades & o' & own' & Hrun & _ & _ & _ & _ & [Hm Hpos] & _).
  - intros s q top tr o t s1 q1 top1 tr1 Hwf [Hm Hall] Hhd Ho Ht Hpos Hcmp Hbody.
    assert (q <> []) as Hne by (by destruct q).
    destruct (match_body_cases _ _ _ _ _ _ o t _ _ _ _ Hwf Hne Ho Ht Hbody)
      as (Hcase & _).
    assert (tr1 = tr ++ (if 0 <? quantity t
                         then [(Z.min (quantity o) (quantity t), price t)]
                         else [])) as Htr.
    { destruct Hcase as [H1 H2 _ _ ->|H1 H2 _ ->|H1 _ _ ->].
      - rewrite (proj2 (Z.ltb_lt _ _) H1). by rewrite Z.min_r.
      - rewrite (proj2 (Z.ltb_ge _ _) H1). by rewrite app_nil_r.
      - assert ((0 <? quantity t) = true) as -> by (apply Z.ltb_lt; lia).
        rewrite Z.min_l by lia. done. }
    split.
    + by eapply (matched_step order s0 q0 s q top tr o t).
    + rewrite Htr. apply Forall_app. split; [done|].
      destruct (0 <? quantity t) eqn:Hq; [|done].
      apply Forall_singleton. simpl. apply Z.ltb_lt in Hq. lia.
  - intros top. split; [apply matched_start | done].
  - exists (mkState s' (set_queues side (book st) q' own')), trades, top'.
    split; [done|]. simpl. rewrite opposite_set_queues. done.
Qed.

(** C4. Every trade that a limit or market submission returns is recorded
    by a run of the loop body against the order on top of the opposite
    queue: its price is that resting order's price (the incoming order's
    price is not used), and its quantity is the minimum of what is left of
    the incoming order and of the resting order when the loop body runs. *)
Theorem trades_at_resting_price (oid : Z) (otype : Type_) (side : Side)
    (qty : Z) (prc : price_t) (stk : string) (st : state) :
  book_okb st = true -> 0 < qty ->
  exists st' trades top',
    add_order oid otype side qty prc stk st
    = Ok (st', length (objs st), trades) /\
    matched (length (objs st))
      (objs st ++ [mkOrder oid otype side qty prc stk])
      (opposite_queue side (book st))
      (objs st') (opposite_queue side (book st')) top' trades.
Proof.
  intros Hok%book_okb_spec Hqty.
  destruct (matched_submission oid otype side qty prc stk st Hok Hqty)
    as (st' & trades & top' & Hrun & Hm & _).
  by exists st', trades, top'.
Qed.

Lemma trades_at_resting_price_witness :
  exists st' trades top',
    add_order 2 LIMIT BUY 150 (float_of_Z 11) "STOCK" one_ask
    = Ok (st', length (objs one_ask), trades) /\
    matched (length (objs one_ask))
      (objs one_ask ++ [mkOrder 2 LIMIT BUY 150 (float_of_Z 11) "STOCK"])
      (opposite_queue BUY (book one_ask))
      (objs st') (opposite_queue BUY (book st')) top' trades.
Proof.
  apply (trades_at_resting_price 2 LIMIT BUY 150 (float_of_Z 11) "STOCK" one_ask);
    [reflexivity | lia].
Defined.

(** The buy at 11.00 of the witness trades at the resting ask's 10.00. *)
Example trade_price_is_resting :
  exists st' r,
    add_order 2 LIMIT BUY 150 (float_of_Z 11) "STOCK" one_ask
    = Ok (st', r, [(100, float_of_Z 10)]).
Proof. eexists _, _. vm_compute. reflexivity. Qed.

(** C8 (as amended). In the limit loop the crossing test comes first.  With
    a tombstone (quantity 0) on top of the opposite queue and quantity left
    on the incoming order: when the incoming price does not cross the
    tombstone's price the loop stops and the tombstone stays on top of the
    queue; when it crosses, the tombstone is popped, store and trades are
    as they were, and the loop goes on with the rest of the queue.  No
    trade is recorded against a tombstone: every trade of a submission has
    a positive quantity. *)
Theorem tombstone_popped_only_when_crossed :
  (forall fuel cmp order side s queue top trades o t,
     loop_wfb order side s queue top = true -> queue <> [] ->
     s !! order = Some o -> s !! top = Some t ->
     0 < quantity o -> quantity t = 0 ->
     (cmp (price o) (price t) = false ->
      limit_loop (S fuel) cmp order s queue top trades = Ok (s, queue, trades)) /\
     (cmp (price o) (price t) = true ->
      exists queue',
        heappop (lt_loc s) queue = Ok (queue', top) /\
        queue ≡ₚ top :: queue' /\
        limit_loop (S fuel) cmp order s queue top trades
        = limit_loop fuel cmp order s queue' (default top (head queue')) trades)) /\
  (forall oid otype side qty prc stk st st' r trades,
     book_okb st = true -> 0 < qty ->
     add_order oid otype side qty prc stk st = Ok (st', r, trades) ->
     Forall (fun t : trade => 0 < t.1) trades).
Proof.
  split.
  - intros fuel cmp order side s queue top trades o t Hwf%loop_wfb_spec Hne
      Ho Ht Hpos Hzero.
    destruct (limit_cond_spec cmp order side s queue top Hwf)
      as (o1 & t1 & Ho1 & Ht1 & Hcond).
    pose proof (eq_trans (eq_sym Ho1) Ho) as [= ->].
    pose proof (eq_trans (eq_sym Ht1) Ht) as [= ->].
    rewrite bool_decide_eq_true_2 in Hcond by done.
    rewrite (proj2 (Z.ltb_lt _ _) Hpos) in Hcond. simpl in Hcond.
    split; intros Hcmp; rewrite Hcmp in Hcond.
    + simpl. by rewrite Hcond.
    + destruct (match_body_spec order side s queue top trades o t Hwf Hne Ho Ht)
        as (s' & q' & top' & tr' & Hrun & _ & Hcase).
      destruct Hcase as [(_ & Hs & Htr & Hpop & Hperm & Htop)|(Hlt & _)]; [|lia].
      rewrite Hzero in Hs, Htr. simpl in Hs, Htr. subst s' tr' top'.
      exists q'. split; [done|]. split; [done|].
      simpl. rewrite Hcond. simpl. by rewrite Hrun.
  - intros oid otype side qty prc stk st st' r trades Hok%book_okb_spec Hqty Hrun.
    destruct (matched_submission oid otype side qty prc stk st Hok Hqty)
      as (st1 & trades1 & top' & Hrun1 & _ & Hall).
    rewrite Hrun in Hrun1. by injection Hrun1 as -> -> ->.
Qed.

Lemma tombstone_popped_only_when_crossed_witness :
  (limit_loop 1 (compare BUY) 1%nat
     (objs cancelled_ask ++ [mkOrder 2 LIMIT BUY 50 (float_of_Z 9) "STOCK"])
     [0%nat] 0%nat []
   = Ok (objs cancelled_ask ++ [mkOrder 2 LIMIT BUY 50 (float_of_Z 9) "STOCK"],
         [0%nat], [])) /\
  Forall (fun t : trade => 0 < t.1) [(100, float_of_Z 10)].
Proof.
  destruct tombstone_popped_only_when_crossed as [Hloop Htrades]. split.
  - refine (proj1 (Hloop 0%nat (compare BUY) 1%nat BUY
      (objs cancelled_ask ++ [mkOrder 2 LIMIT BUY 50 (float_of_Z 9) "STOCK"])
      [0%nat] 0%nat [] (mkOrder 2 LIMIT BUY 50 (float_of_Z 9) "STOCK")
      (mkOrder 1 LIMIT SELL 0 (float_of_Z 10) "STOCK")
      _ _ _ _ _ _) _); try reflexivity; try done.
  - refine (Htrades 2 LIMIT BUY 150 (float_of_Z 11) "STOCK" one_ask _ _ _ _ _ _);
      [reflexivity | lia | vm_compute; reflexivity].
Defined.

(** C8, the claim as it is written fails: with the cancelled ask at 10.00 on
    top of the sell queue, a buy limit at 9.00 does not cross it, and the
    call returns with the tombstone still in the queue: it was not popped
    before the crossing test. *)
Lemma tombstone_kept_when_not_crossed :
  exists st' r trades o,
    add_order 2 LIMIT BUY 50 (float_of_Z 9) "STOCK" cancelled_ask
    = Ok (st', r, trades) /\
    sell_queue (book st') = [0%nat] /\
    objs st' !! 0%nat = Some o /\ quantity o = 0 /\
    trades = [].
Proof.
  eexists _, _, _, _. split; [vm_compute; reflexivity|].
  split; [reflexivity|]. split; [reflexivity|]. done.
Qed.

Lemma deepcopy_orders_length s queue copies :
  deepcopy_orders s queue = Ok copies -> length copies = length queue.
Proof.
  revert copies. induction queue as [|r q IH]; intros copies; simpl.
  - by intros [= <-].
  - destruct (deref s r) as [o| |]; simpl; try done.
    destruct (deepcopy_orders s q) as [c| |]; simpl; try done.
    intros [= <-]. simpl. f_equal. by apply IH.
Qed.

Lemma deepcopy_prefix s queue s' queue' :
  deepcopy s queue = Ok (s', queue') ->
  forall r o, s !! r = Some o -> s' !! r = Some o.
Proof.
  unfold deepcopy. destruct (deepcopy_orders s queue) as [c| |]; simpl; try done.
  intros [= <- <-] r o Hr. by apply lookup_app_l_Some.
Qed.


(** A submission leaves the id and the static fields of every order that
    existed before it as they were, and does not touch the orders of its
    own side at all. *)
Lemma submission_frame oid otype oside qty prc stk st st' h trades :
  book_ok st ->
  add_order oid otype oside qty prc stk st = Ok (st', h, trades) ->
  forall r o, objs st !! r = Some o ->
    exists o', objs st' !! r = Some o' /\ same_static o o' /\
      order_id o' = order_id o /\ (order_side o = oside -> o' = o).
Proof.
  intros Hok Hrun.
  set (order := length (objs st)).
  set (s0 := objs st ++ [mkOrder oid otype oside qty prc stk]).
  destruct (add_order_rule
    (fun s q top tr => forall r o, r <> order -> s0 !! r = Some o ->
       exists o', s !! r = Some o' /\ same_static o o' /\
         order_id o' = order_id o /\ (order_side o = oside -> o' = o))
    oid otype oside qty prc stk st Hok)
    as (s' & q' & top' & trades' & o' & own' & Hrun' & _ & _ & _ & _ & Hinv & _).
  - intros s q top tr o t s1 q1 top1 tr1 Hwf Hinv Hhd Ho Ht Hpos Hcmp Hbody r x Hr Hx.
    assert (q <> []) as Hne by (by destruct q).
    destruct (match_body_cases _ _ _ _ _ _ o t _ _ _ _ Hwf Hne Ho Ht Hbody)
      as (Hcase & Hothers & _).
    destruct (Hinv r x Hr Hx) as (x' & Hx' & Hst & Hid & Hsame).
    destruct (decide (r = top)) as [->|Hrt].
    + pose proof (eq_trans (eq_sym Hx') Ht) as [= ->].
      destruct (lw_top _ _ _ _ _ Hwf) as (t' & Ht' & Hside).
      pose proof (eq_trans (eq_sym Ht') Ht) as [= ->].
      assert (order_side x = oside -> False) as Hno.
      { destruct Hst as (_ & Hs & _). rewrite <- Hs, Hside.
        by destruct oside. }
      destruct Hcase as [_ _ _ H4 _|_ _ -> _|_ _ H3 _].
      * eexists. split; [exact H4|]. split; [done|]. split; [done|].
        intros ?. by destruct Hno.
      * exists t. split; [done|]. split; [done|]. split; [done|].
        intros ?. by destruct Hno.
      * eexists. split; [exact H3|]. split; [done|]. split; [done|].
        intros ?. by destruct Hno.
    + exists x'. rewrite (Hothers r Hr Hrt). done.
  - intros top r o Hr Ho. exists o. by repeat split.
  - rewrite Hrun in Hrun'. injection Hrun' as -> _ _. simpl.
    intros r o Hr. apply Hinv.
    + apply lookup_lt_Some in Hr. unfold order. lia.
    + by apply lookup_app_l_Some.
Qed.

(** The order that a submission creates keeps the id and the static fields
    it was created with. *)
Lemma submission_new_order oid otype oside qty prc stk st st' h trades :
  book_ok st ->
  add_order oid otype oside qty prc stk st = Ok (st', h, trades) ->
  h = length (objs st) /\
  exists o', objs st' !! length (objs st) = Some o' /\
    order_id o' = oid /\ order_type o' = otype /\ order_side o' = oside /\
    price o' = prc /\ stock o' = stk.
Proof.
  intros Hok Hrun.
  set (order := length (objs st)).
  destruct (add_order_rule
    (fun s q top tr => exists o, s !! order = Some o /\
       order_id o = oid /\ order_type o = otype /\ order_side o = oside /\
       price o = prc /\ stock o = stk)
    oid otype oside qty prc stk st Hok)
    as (s' & q' & top' & trades' & o' & own' & Hrun' & _ & _ & _ & _ & Hinv & _).
  - intros s q top tr o t s1 q1 top1 tr1 Hwf (o1 & Ho1 & Hf) Hhd Ho Ht Hpos Hcmp Hbody.
    pose proof (eq_trans (eq_sym Ho1) Ho) as [= ->].
    assert (q <> []) as Hne by (by destruct q).
    destruct (match_body_cases _ _ _ _ _ _ o t _ _ _ _ Hwf Hne Ho Ht Hbody)
      as (Hcase & _).
    destruct Hcase as [_ _ H3 _ _|_ _ -> _|_ H2 _ _].
    + eexists. split; [exact H3|]. done.
    + by exists o.
    + eexists. split; [exact H2|]. done.
  - intros top. eexists. split; [apply lookup_alloc|]. done.
  - rewrite Hrun in Hrun'. injection Hrun' as -> -> _. split; [done|]. done.
Qed.

Lemma modify_order_Ok r qty prc st res :
  modify_order r qty prc st = Ok res -> exists o, objs st !! r = Some o.
Proof.
  unfold modify_order, deref, getitem.
  destruct (objs st !! r) as [o|]; [eauto | done].
Qed.

Lemma delete_order_Ok r st st' :
  delete_order r st = Ok st' ->
  exists o, objs st !! r = Some o /\
    st' = mkState (<[r := with_quantity o 0]> (objs st)) (book st).
Proof.
  unfold delete_order, set_quantity, deref, getitem.
  destruct (objs st !! r) as [o|]; simpl; [|done].
  intros [= <-]. eauto.
Qed.







Lemma same_keys_sym s s' : same_keys s s' -> same_keys s' s.
Proof.
  intros [Hlen H]. split; [done|]. intros r o' Hr'.
  pose proof (lookup_lt_Some _ _ _ Hr') as Hlt. rewrite <- Hlen in Hlt.
  destruct (lookup_lt_is_Some_2 s r Hlt) as [o Hr].
  destruct (H r o Hr) as (o'' & Hr'' & ? & ? & ? & ?).
  pose proof (eq_trans (eq_sym Hr'') Hr') as [= ->].
  exists o. by repeat split.
Qed.

Lemma same_keys_price s s' r o o' :
  same_keys s s' -> s !! r = Some o -> s' !! r = Some o' -> price o' = price o.
Proof.
  intros [_ H] Hr Hr'. destruct (H r o Hr) as (o'' & Hr'' & _ & Hp & _).
  pose proof (eq_trans (eq_sym Hr'') Hr') as [= ->]. done.
Qed.

Lemma apart_opp side px py : apart side px py <-> apart (opp side) py px.
Proof. by destruct side. Qed.

Lemma uncrossed_from_opp st side :
  uncrossed_from st side -> uncrossed_from st (opp side).
Proof.
  intros H x y ox oy Hx Hy Hox Hoy Hqx Hqy. rewrite opp_opp in Hy.
  apply apart_opp. rewrite opp_opp. by apply (H y x oy ox).
Qed.

Lemma uncrossed_from_all st side :
  uncrossed_from st side -> forall side', uncrossed_from st side'.
Proof.
  intros H side'. destruct (decide (side' = side)) as [->|Hne]; [done|].
  assert (side' = opp side) as -> by (by destruct side, side').
  by apply uncrossed_from_opp.
Qed.

Lemma better_not_nan side x y :
  better side x y -> is_nan x = false /\ is_nan y = false.
Proof.
  destruct side; unfold better, float_ge, float_le, SFleb;
    destruct x, y; simpl; try done.
Qed.

(** When the crossing test fails on the best opposite price, the incoming
    price is apart from every opposite price that is no better. *)
Lemma compare_false_apart side p pt pa :
  is_nan p = false -> is_nan pt = false ->
  compare side p pt = false -> better (opp side) pt pa ->
  apart side p pa.
Proof.
  intros Hp Hpt Hc Hb. destruct side; simpl in *;
    unfold float_ge, float_le, float_lt in *.
  - apply (SFltb_leb_trans p pt pa); [|done]. by apply SFleb_false_ltb.
  - apply (SFleb_ltb_trans pa pt p); [done|]. by apply SFleb_false_ltb.
Qed.

Lemma priced_alloc s o side r : priced s side r -> priced (s ++ [o]) side r.
Proof.
  intros (x & Hx & Hs & Hn). exists x.
  split; [by apply lookup_app_l_Some | done].
Qed.

Lemma ple_alloc s o side a b : ple s side a b -> ple (s ++ [o]) side a b.
Proof.
  intros (oa & ob & Ha & Hb & Hab). exists oa, ob.
  split; [by apply lookup_app_l_Some|]. split; [by apply lookup_app_l_Some|].
  done.
Qed.

Lemma book_inv_ok st : book_inv st -> book_ok st.
Proof.
  intros [Hp _ _] side. eapply Forall_impl; [apply Hp|].
  intros r. apply priced_on_side.
Qed.

Lemma book_inv_init stk : book_inv (init_state stk).
Proof.
  split.
  - intros side. by destruct side.
  - intros side i Hi x p Hx. by destruct side.
  - intros side x y ox oy Hx. destruct side; simpl in Hx; by inversion Hx.
Qed.

Lemma lookup_alloc_old (s : list Order) o r x :
  (s ++ [o]) !! r = Some x -> r <> length s -> s !! r = Some x.
Proof.
  intros Hr Hne. pose proof (lookup_lt_Some _ _ _ Hr) as Hlt.
  rewrite length_app in Hlt. simpl in Hlt.
  rewrite lookup_app_l in Hr by lia. done.
Qed.

Lemma heap_ordered_alloc s o side q :
  heap_ordered (ple s side) q -> heap_ordered (ple (s ++ [o]) side) q.
Proof. intros Hq i Hi x p Hx Hp. apply ple_alloc. by apply (Hq i Hi). Qed.

(** A submission keeps the invariant of the book. *)
Lemma add_order_inv oid otype oside qty prc stk st :
  book_inv st -> (otype = LIMIT -> is_nan prc = false) ->
  exists st' h trades,
    add_order oid otype oside qty prc stk st = Ok (st', h, trades) /\
    book_inv st'.
Proof.
  intros Hinv0 Hnan.
  pose proof (book_inv_ok st Hinv0) as Hok.
  destruct Hinv0 as [Hpr0 Hhp0 Hun0].
  set (order := length (objs st)).
  set (o0 := mkOrder oid otype oside qty prc stk).
  set (s0 := objs st ++ [o0]).
  set (q0 := opposite_queue oside (book st)).
  set (own := own_queue oside (book st)).
  assert (Forall (priced s0 (opp oside)) q0) as Hq0p.
  { unfold q0. rewrite opposite_own. eapply Forall_impl; [apply Hpr0|].
    intros r. apply priced_alloc. }
  assert (heap_ordered (ple s0 (opp oside)) q0) as Hq0h.
  { unfold q0. rewrite opposite_own. apply heap_ordered_alloc, Hhp0. }
  destruct (add_order_rule
    (fun s q top tr =>
       same_keys s0 s /\ Forall (priced s0 (opp oside)) q /\
       heap_ordered (ple s0 (opp oside)) q /\ q ⊆ q0 /\
       forall r o', r <> order -> s !! r = Some o' -> quantity o' <> 0 ->
         exists o, s0 !! r = Some o /\ quantity o <> 0)
    oid otype oside qty prc stk st Hok)
    as (s' & q' & top' & trades & o' & own' & Hrun & Hkeys & Ho' & Hq' & Hown
        & Hinv & Hexit & Hpush).
  - (* the loop body keeps the invariant *)
    intros s q top tr o t s1 q1 top1 tr1 Hwf (Hk & Hqp & Hqh & Hsub & Hreal)
      Hhd Ho Ht Hpos Hcmp Hbody.
    assert (q <> []) as Hne by (by destruct q).
    destruct (match_body_cases _ _ _ _ _ _ o t _ _ _ _ Hwf Hne Ho Ht Hbody)
      as (Hcase & Hothers & _ & Hsub1 & Hq1).
    destruct (loop_wf_step _ _ _ _ _ _ _ _ _ _ Hwf Hne Hbody) as (_ & Hk1 & _).
    assert (same_keys s0 s1) as Hk01 by by eapply same_keys_trans.
    assert (order <> top) as Hdiff
      by apply (on_side_distinct _ _ _ _ (lw_order _ _ _ _ _ Hwf)
                  (lw_top _ _ _ _ _ Hwf)).
    split; [done|]. split; [|split; [|split]].
    + apply Forall_forall. intros r Hr. rewrite Forall_forall in Hqp. auto.
    + destruct Hq1 as [->|[Hpop Hperm]]; [done|].
      apply (heap_ordered_same_keys s1 s0); [by apply same_keys_sym|].
      apply (heappop_loc_ordered s1 (opp oside) q q1 top); [|done|].
      * eapply Forall_impl; [exact Hqp|]. intros r. by apply priced_same_keys.
      * by apply (heap_ordered_same_keys s0 s1).
    + intros x Hx. auto.
    + intros r x Hr Hx Hqx.
      destruct (decide (r = top)) as [->|Hrt].
      * destruct Hcase as [_ _ _ H4 _|_ _ -> _|Hlt _ H3 _].
        -- pose proof (eq_trans (eq_sym Hx) H4) as [= ->]. done.
        -- by apply (Hreal top x).
        -- apply (Hreal top t); [done | done | lia].
      * apply (Hreal r x); [done | | done]. by rewrite <- (Hothers r Hr Hrt).
  - (* it holds when the loop starts *)
    intros top. split; [apply same_keys_refl|]. split; [done|].
    split; [done|]. split; [done|]. intros r x _ Hx Hqx. by exists x.
  - (* the invariant of the book after the call *)
    destruct Hinv as (_ & Hqp' & Hqh' & Hsub' & Hreal').
    exists (mkState s' (set_queues oside (book st) q' own')), order, trades.
    split; [done|].
    assert (on_side s' oside order) as Hord'.
    { eapply on_side_same_keys; [done|]. apply submission_order. }
    assert (price o' = prc) as Hprc.
    { apply (same_keys_price s0 s' order o0 o' Hkeys); [apply lookup_alloc|done]. }
    assert (Forall (priced s' oside) own) as Hownp.
    { eapply Forall_impl; [apply (Hpr0 oside)|]. intros r Hr.
      apply (priced_same_keys s0 s'); [done|]. by apply priced_alloc. }
    assert (heap_ordered (ple s' oside) own) as Hownh.
    { apply (heap_ordered_same_keys s0 s'); [done|].
      apply heap_ordered_alloc, Hhp0. }
    assert (Forall (priced s' (opp oside)) q') as Hq'p.
    { eapply Forall_impl; [exact Hqp'|]. intros r. by apply priced_same_keys. }
    assert (heap_ordered (ple s' (opp oside)) q') as Hq'h
      by by apply (heap_ordered_same_keys s0 s').
    (* what the own queue is after the call *)
    assert ((own' = own) \/
            (otype = LIMIT /\ 0 < quantity o' /\
             heappush (lt_loc s') own order = Ok own' /\
             own' ≡ₚ own ++ [order])) as Hown'.
    { destruct otype; [by left|].
      destruct (0 <? quantity o') eqn:Hpos; [|by left].
      right. apply Z.ltb_lt in Hpos. by destruct Hpush. }
    assert (forall x, x ∈ own' -> x ∈ own \/
              (x = order /\ otype = LIMIT /\ 0 < quantity o')) as Hin.
    { intros x Hx. destruct Hown' as [->|(Ht & Hpos & _ & Hperm)]; [by left|].
      rewrite Hperm in Hx. apply elem_of_app in Hx as [Hx|Hx]; [by left|].
      right. apply list_elem_of_singleton in Hx. done. }
    assert (otype = LIMIT -> priced s' oside order) as Hordp.
    { intros Ht. destruct Hord' as (x & Hx & Hs).
      pose proof (eq_trans (eq_sym Hx) Ho') as [= ->].
      exists o'. split; [done|]. split; [done|]. rewrite Hprc. auto. }
    split.
    + (* no queued price is a NaN *)
      intros side. simpl.
      destruct (decide (side = oside)) as [->|Hne].
      * rewrite own_set_queues.
        destruct Hown' as [->|(Ht & _ & _ & Hperm)]; [done|].
        rewrite Hperm. apply Forall_app. split; [done|].
        apply Forall_singleton. auto.
      * assert (side = opp oside) as -> by (by destruct side, oside).
        rewrite <- opposite_own, opposite_set_queues. done.
    + (* both queues are heaps *)
      intros side. simpl.
      destruct (decide (side = oside)) as [->|Hne].
      * rewrite own_set_queues.
        destruct Hown' as [->|(Ht & _ & Hp & _)]; [done|].
        apply (heappush_loc_ordered s' oside own order own'); auto.
      * assert (side = opp oside) as -> by (by destruct side, oside).
        rewrite <- opposite_own, opposite_set_queues. done.
    + (* no resting bid reaches a resting ask *)
      apply (uncrossed_from_all _ oside).
      intros x y ox oy Hx Hy Hox Hoy Hqx Hqy. simpl in *.
      rewrite own_set_queues in Hx.
      rewrite <- opposite_own, opposite_set_queues in Hy.
      assert (y <> order) as Hyo.
      { intros ->. rewrite Forall_forall in Hq'.
        by apply (on_side_distinct _ _ _ _ Hord' (Hq' _ Hy)). }
      destruct (Hreal' y oy Hyo Hoy Hqy) as (oy0 & Hoy0 & Hqy0).
      pose proof (same_keys_price _ _ _ _ _ Hkeys Hoy0 Hoy) as Hpy.
      destruct (Hin x Hx) as [Hxown|(-> & Ht & Hpos)].
      * (* an order that rested before *)
        assert (x <> order) as Hxo.
        { intros ->. apply (book_ok_sides st oside _ Hok) in Hxown.
          apply on_side_lt in Hxown. unfold order in Hxown. lia. }
        destruct (Hreal' x ox Hxo Hox Hqx) as (ox0 & Hox0 & Hqx0).
        pose proof (same_keys_price _ _ _ _ _ Hkeys Hox0 Hox) as Hpx.
        rewrite Hpx, Hpy.
        apply (Hun0 oside x y ox0 oy0); try done.
        -- rewrite <- opposite_own. by apply Hsub'.
        -- by apply (lookup_alloc_old (objs st) o0).
        -- by apply (lookup_alloc_old (objs st) o0).
      * (* the incoming order, which now rests *)
        pose proof (eq_trans (eq_sym Hox) Ho') as [= ->].
        destruct Hexit as [->|[(o1 & Ho1 & Hle)|(o1 & top & t & Ho1 & Hhd & Ht1 & Hc)]].
        -- by inversion Hy.
        -- pose proof (eq_trans (eq_sym Ho1) Ho') as [= ->]. lia.
        -- pose proof (eq_trans (eq_sym Ho1) Ho') as [= ->].
           rewrite Ht in Hc. simpl in Hc.
           destruct (heap_top_best s' (opp oside) q' top Hq'p Hq'h Hhd y Hy)
             as (t' & oy' & Ht' & Hoy' & Hb).
           pose proof (eq_trans (eq_sym Ht') Ht1) as [= ->].
           pose proof (eq_trans (eq_sym Hoy') Hoy) as [= ->].
           destruct (better_not_nan _ _ _ Hb) as [Hnt _].
           apply (compare_false_apart oside (price o') (price t) (price oy));
             try done.
           rewrite Hprc. auto.
Qed.

(** Changing quantities and ids of orders keeps the invariant, as long as no
    order without quantity gets one. *)
Lemma book_inv_weaken s s' b :
  book_inv (mkState s b) -> same_keys s s' ->
  (forall r o', s' !! r = Some o' -> quantity o' <> 0 ->
     exists o, s !! r = Some o /\ quantity o <> 0) ->
  book_inv (mkState s' b).
Proof.
  intros [Hp Hh Hu] Hk Hreal. split; simpl in *.
  - intros side. eapply Forall_impl; [apply Hp|].
    intros r. by apply priced_same_keys.
  - intros side. by apply (heap_ordered_same_keys s s').
  - intros side x y ox' oy' Hx Hy Hox' Hoy' Hqx Hqy. simpl in *.
    destruct (Hreal x ox' Hox' Hqx) as (ox & Hox & Hqx0).
    destruct (Hreal y oy' Hoy' Hqy) as (oy & Hoy & Hqy0).
    rewrite (same_keys_price _ _ _ _ _ Hk Hox Hox').
    rewrite (same_keys_price _ _ _ _ _ Hk Hoy Hoy').
    by apply (Hu side x y ox oy).
Qed.

Lemma delete_order_inv r st st' :
  book_inv st -> delete_order r st = Ok st' -> book_inv st'.
Proof.
  intros Hinv Hrun. apply delete_order_Ok in Hrun as (o & Ho & ->).
  pose proof (lookup_lt_Some _ _ _ Ho) as Hlen.
  apply (book_inv_weaken (objs st)); [by destruct st | by apply same_keys_quantity |].
  intros x ox' Hx Hq. destruct (decide (x = r)) as [->|Hne].
  - rewrite list_lookup_insert_eq in Hx by done. by injection Hx as <-.
  - rewrite list_lookup_insert_ne in Hx by done. by exists ox'.
Qed.

Lemma retired_inv r st o :
  book_inv st -> objs st !! r = Some o ->
  book_inv (mkState (<[r := retired o]> (objs st)) (book st)).
Proof.
  intros Hinv Ho. pose proof (lookup_lt_Some _ _ _ Ho) as Hlen.
  apply (book_inv_weaken (objs st)); [by destruct st | by apply same_keys_retired |].
  intros x ox' Hx Hq. destruct (decide (x = r)) as [->|Hne].
  - rewrite list_lookup_insert_eq in Hx by done. by injection Hx as <-.
  - rewrite list_lookup_insert_ne in Hx by done. by exists ox'.
Qed.

Lemma do_call_inv c st st' :
  book_inv st -> call_priced c -> do_call c st = Ok st' -> book_inv st'.
Proof.
  intros Hinv Hc Hrun. destruct c as [oid side qty prc|oid side qty|r|r qty prc];
    simpl in *.
  - destruct (add_order_inv oid LIMIT side qty prc (book_stock (book st)) st Hinv)
      as (st1 & h & tr & Hadd & Hinv1); [done|].
    rewrite Hadd in Hrun. by injection Hrun as <-.
  - destruct (add_order_inv oid MARKET side qty float_inf (book_stock (book st))
                st Hinv) as (st1 & h & tr & Hadd & Hinv1); [done|].
    rewrite Hadd in Hrun. by injection Hrun as <-.
  - by apply (delete_order_inv r st).
  - destruct (modify_order r qty prc st) as [[[st1 h] tr]| |] eqn:Hmod;
      simpl in Hrun; try done.
    injection Hrun as <-.
    destruct (modify_order_Ok _ _ _ _ _ Hmod) as (o & Ho).
    rewrite (modify_order_unfold r qty prc st o Ho) in Hmod.
    destruct (add_order_inv (order_id o) (order_type o) (order_side o) qty prc
                (stock o) _ (retired_inv r st o Hinv Ho))
      as (st2 & h2 & tr2 & Hadd & Hinv2); [done|].
    rewrite Hadd in Hmod. by injection Hmod as <- _ _.
Qed.

Lemma run_inv calls : forall st st',
  book_inv st -> Forall call_priced calls -> run calls st = Ok st' ->
  book_inv st'.
Proof.
  induction calls as [|c calls IH]; intros st st' Hinv Hc Hrun; simpl in Hrun.
  - by injection Hrun as <-.
  - apply Forall_cons in Hc as [Hc Hcs].
    destruct (do_call c st) as [st1| |] eqn:Hcall; simpl in Hrun; try done.
    apply (IH st1 st'); [|done|done]. by apply (do_call_inv c st).
Qed.




Lemma foldl_pick (better_of : price_t -> price_t -> bool) ps : forall p,
  foldl (fun m x => if better_of x m then x else m) p ps ∈ p :: ps.
Proof.
  induction ps as [|x ps IH]; intros p; simpl.
  - by left.
  - destruct (better_of x p).
    + right. apply IH.
    + specialize (IH p). apply elem_of_cons in IH as [->|Hin].
      * by left.
      * right. by right.
Qed.

Lemma resting_prices_elem s queue p :
  p ∈ resting_prices s queue ->
  exists r o, r ∈ queue /\ s !! r = Some o /\ quantity o <> 0 /\ price o = p.
Proof.
  unfold resting_prices. intros (r & Hr & Hf)%list_elem_of_omap.
  destruct (s !! r) as [o|] eqn:Ho; [|done].
  destruct (quantity o =? 0) eqn:Hq; [done|].
  injection Hf as <-. apply Z.eqb_neq in Hq. by exists r, o.
Qed.

Lemma best_bid_elem st b :
  best_bid st = Some b ->
  exists r o, r ∈ buy_queue (book st) /\ objs st !! r = Some o /\
    quantity o <> 0 /\ price o = b.
Proof.
  unfold best_bid.
  destruct (resting_prices (objs st) (buy_queue (book st))) as [|p ps] eqn:Hps;
    [done|].
  intros [= <-]. apply resting_prices_elem. rewrite Hps. apply foldl_pick.
Qed.

Lemma best_ask_elem st a :
  best_ask st = Some a ->
  exists r o, r ∈ sell_queue (book st) /\ objs st !! r = Some o /\
    quantity o <> 0 /\ price o = a.
Proof.
  unfold best_ask.
  destruct (resting_prices (objs st) (sell_queue (book st))) as [|p ps] eqn:Hps;
    [done|].
  intros [= <-]. apply resting_prices_elem. rewrite Hps. apply foldl_pick.
Qed.

Lemma book_inv_best st b a :
  book_inv st -> best_bid st = Some b -> best_ask st = Some a ->
  float_lt b a = true.
Proof.
  intros Hinv (x & ox & Hx & Hox & Hqx & <-)%best_bid_elem
    (y & oy & Hy & Hoy & Hqy & <-)%best_ask_elem.
  by apply (inv_uncrossed st Hinv BUY x y ox oy).
Qed.



(** The book of the witness: 150 are left of the bid at 10.00 and 70 of the
    ask at 12.00. *)
Example witness_book_bests :
  exists st,
    run [submit_limit 1 BUY 200 (float_of_Z 10);
         submit_limit 2 SELL 50 (float_of_Z 9);
         submit_limit 3 SELL 100 (float_of_Z 12);
         submit_market 4 BUY 30]
      (init_state "STOCK") = Ok st /\
    best_bid st = Some (float_of_Z 10) /\ best_ask st = Some (float_of_Z 12).
Proof. eexists. split; [vm_compute; reflexivity|]. split; reflexivity. Qed.

(** C5, where the code departs from the claim.  After seven bids at one
    price and the modification of the orders 4 and 1, the bids with the ids
    1 and 2 both rest with quantity 5 at 10.00; a market sell of 5 is then
    matched against the bid with id 2, and the bid with id 1 is left as it
    was. *)
Lemma higher_id_matched_first :
  exists st st' r,
    run seven_bids_two_modified (init_state "STOCK") = Ok st /\
    objs st !! 8%nat = Some (mkOrder 1 LIMIT BUY 5 (float_of_Z 10) "STOCK") /\
    objs st !! 1%nat = Some (mkOrder 2 LIMIT BUY 5 (float_of_Z 10) "STOCK") /\
    8%nat ∈ buy_queue (book st) /\ 1%nat ∈ buy_queue (book st) /\
    add_order 8 MARKET SELL 5 float_inf "STOCK" st
    = Ok (st', r, [(5, float_of_Z 10)]) /\
    objs st' !! 8%nat = Some (mkOrder 1 LIMIT BUY 5 (float_of_Z 10) "STOCK") /\
    objs st' !! 1%nat = Some (mkOrder 2 LIMIT BUY 0 (float_of_Z 10) "STOCK").
Proof.
  eexists _, _, _. split; [vm_compute; reflexivity|].
  split; [reflexivity|]. split; [reflexivity|].
  split; [vm_compute; by repeat constructor|].
  split; [vm_compute; by repeat constructor|].
  split; [vm_compute; reflexivity|]. split; reflexivity.
Qed.

(** The same between two orders that were never modified: at the end of the
    longer session the bids with the ids 3 and 4 rest with quantity 1 at
    10.00, and a market sell of 1 is matched against the bid with id 4. *)
Lemma untouched_bids_matched_out_of_order :
  exists st st' r,
    run session_with_untouched_bids (init_state "STOCK") = Ok st /\
    objs st !! 2%nat = Some (mkOrder 3 LIMIT BUY 1 (float_of_Z 10) "STOCK") /\
    objs st !! 3%nat = Some (mkOrder 4 LIMIT BUY 1 (float_of_Z 10) "STOCK") /\
    2%nat ∈ buy_queue (book st) /\ 3%nat ∈ buy_queue (book st) /\
    add_order 18 MARKET SELL 1 float_inf "STOCK" st
    = Ok (st', r, [(1, float_of_Z 10)]) /\
    objs st' !! 2%nat = Some (mkOrder 3 LIMIT BUY 1 (float_of_Z 10) "STOCK") /\
    objs st' !! 3%nat = Some (mkOrder 4 LIMIT BUY 0 (float_of_Z 10) "STOCK").
Proof.
  eexists _, _, _. split; [vm_compute; reflexivity|].
  split; [reflexivity|]. split; [reflexivity|].
  split; [vm_compute; by repeat constructor|].
  split; [vm_compute; by repeat constructor|].
  split; [vm_compute; reflexivity|]. split; reflexivity.
Qed.

Lemma deepcopy_orders_spec s side queue :
  Forall (on_side s side) queue ->
  exists copies,
    deepcopy_orders s queue = Ok copies /\
    Forall2 (fun r c => s !! r = Some c) queue copies.
Proof.
  induction queue as [|r q IH]; intros Hq.
  - exists []. by split.
  - apply Forall_cons in Hq as [(o & Ho & _) Hq].
    destruct (IH Hq) as (copies & Hrun & Hall).
    exists (o :: copies). simpl.
    rewrite (deref_Some _ _ _ Ho). simpl. rewrite Hrun. simpl.
    split; [done|]. by constructor.
Qed.

Lemma deepcopy_spec s side queue :
  Forall (on_side s side) queue ->
  exists s' queue',
    deepcopy s queue = Ok (s', queue') /\
    length queue' = length queue /\
    Forall (on_side s' side) queue' /\
    (forall side' r, on_side s side' r -> on_side s' side' r) /\
    rows_of s' queue' = rows_of s queue.
Proof.
  intros Hq.
  destruct (deepcopy_orders_spec s side queue Hq) as (copies & Hrun & Hall).
  pose proof (Forall2_length _ _ _ Hall) as Hlen.
  exists (s ++ copies), (seq (length s) (length queue)).
  unfold deepcopy. rewrite Hrun. simpl.
  split; [done|]. split; [by rewrite length_seq|].
  assert (forall i r, queue !! i = Some r ->
            (s ++ copies) !! (length s + i)%nat = s !! r) as Hcopy.
  { intros i r Hi.
    destruct (Forall2_lookup_l _ _ _ _ _ Hall Hi) as (c & Hc & Hr).
    rewrite lookup_app_r by lia.
    replace (length s + i - length s)%nat with i by lia. congruence. }
  split; [|split].
  - apply Forall_forall. intros x Hx.
    apply list_elem_of_lookup in Hx as [i Hi].
    apply lookup_seq in Hi as [-> Hi].
    destruct (lookup_lt_is_Some_2 queue i Hi) as [r Hr].
    rewrite Forall_forall in Hq.
    destruct (Hq r) as (o & Ho & Hs); [by eapply list_elem_of_lookup_2|].
    exists o. split; [|done]. by rewrite (Hcopy i r Hr).
  - intros side' r (o & Ho & Hs). exists o.
    split; [by apply lookup_app_l_Some | done].
  - unfold rows_of. apply list_omap_ext.
    apply Forall2_same_length_lookup. split; [by rewrite length_seq|].
    intros i x r Hx Hr. apply lookup_seq in Hx as [-> _].
    unfold row_of. by rewrite (Hcopy i r Hr).
Qed.

(** The column loop returns, and adds to the column the rows of the entries
    of the queue that have a quantity, each once. *)
Lemma column_loop_spec side fuel : forall s queue column,
  Forall (on_side s side) queue -> (length queue <= fuel)%nat ->
  exists rows,
    column_loop fuel s queue column = Ok (column ++ rows) /\
    rows ≡ₚ rows_of s queue.
Proof.
  induction fuel as [|fuel IH]; intros s queue column Hq Hfuel.
  - destruct queue; [|simpl in Hfuel; lia].
    exists []. simpl. by rewrite app_nil_r.
  - destruct queue as [|r0 q0] eqn:Hqueue.
    { exists []. simpl. by rewrite app_nil_r. }
    rewrite <- Hqueue in *.
    assert (queue <> []) as Hne by (by rewrite Hqueue).
    destruct (heappop_loc s side queue Hne Hq) as (q' & el & Hpop & Hhd & Hperm).
    assert (Forall (on_side s side) (el :: q')) as Hq' by by rewrite <- Hperm.
    apply Forall_cons in Hq' as [(e & He & _) Hq'].
    assert (length q' <= fuel)%nat as Hlen.
    { apply Permutation_length in Hperm. simpl in Hperm. lia. }
    assert (column_loop (S fuel) s queue column
            = (if quantity e <=? 0 then column_loop fuel s q' column
               else column_loop fuel s q'
                      (column ++ [(quantity e, price e, order_id e)]))) as ->.
    { rewrite Hqueue. simpl. rewrite <- Hqueue, Hpop. simpl.
      by rewrite (deref_Some _ _ _ He). }
    assert (rows_of s queue
            ≡ₚ (if quantity e <=? 0 then []
                else [(quantity e, price e, order_id e)]) ++ rows_of s q') as Hrows.
    { unfold rows_of. rewrite Hperm. simpl. unfold row_of at 1. rewrite He.
      by destruct (quantity e <=? 0). }
    destruct (quantity e <=? 0).
    + destruct (IH s q' column Hq' Hlen) as (rows & Hrun & Hp).
      exists rows. split; [done|]. by rewrite Hrows.
    + destruct (IH s q' (column ++ [(quantity e, price e, order_id e)]) Hq' Hlen)
        as (rows & Hrun & Hp).
      exists ((quantity e, price e, order_id e) :: rows).
      split; [by rewrite Hrun, <- app_assoc|].
      rewrite Hrows. simpl. by constructor.
Qed.


Lemma rows_of_prefix s s' queue side :
  Forall (on_side s side) queue ->
  (forall r o, s !! r = Some o -> s' !! r = Some o) ->
  rows_of s' queue = rows_of s queue.
Proof.
  intros Hq Hpre. unfold rows_of. apply list_omap_ext.
  apply Forall2_same_length_lookup. split; [done|].
  intros i x y Hx Hy. assert (x = y) as -> by congruence.
  rewrite Forall_forall in Hq.
  destruct (Hq y) as (o & Ho & _); [by eapply list_elem_of_lookup_2|].
  unfold row_of. by rewrite Ho, (Hpre y o Ho).
Qed.

(** [__repr__] returns on a well-formed book, and its columns hold the rows
    of the queued orders with a quantity. *)
Lemma repr_rows_spec st :
  book_ok st ->
  exists st' buy_column sell_column,
    Book_repr_rows st = Ok (st', (buy_column, sell_column)) /\
    buy_column ≡ₚ rows_of (objs st) (buy_queue (book st)) /\
    sell_column ≡ₚ rows_of (objs st) (sell_queue (book st)) /\
    book st' = book st /\
    (forall side r, on_side (objs st) side r -> on_side (objs st') side r) /\
    (forall r o, objs st !! r = Some o -> objs st' !! r = Some o).
Proof.
  intros Hok. unfold Book_repr_rows.
  pose proof (Hok BUY) as Hb. pose proof (Hok SELL) as Hs. simpl in Hb, Hs.
  destruct (deepcopy_spec (objs st) BUY _ Hb)
    as (s1 & bq & Hcopy1 & Hlen1 & Hbq & Hext1 & Hrows1).
  rewrite Hcopy1. simpl.
  destruct (column_loop_spec BUY (length bq) s1 bq [] Hbq) as (bc & Hrun1 & Hp1);
    [done|].
  rewrite Hrun1. simpl.
  assert (Forall (on_side s1 SELL) (sell_queue (book st))) as Hs1.
  { eapply Forall_impl; [exact Hs|]. intros r. apply Hext1. }
  destruct (deepcopy_spec s1 SELL _ Hs1)
    as (s2 & sq & Hcopy2 & Hlen2 & Hsq & Hext2 & Hrows2).
  rewrite Hcopy2. simpl.
  destruct (column_loop_spec SELL (length sq) s2 sq [] Hsq) as (sc & Hrun2 & Hp2);
    [done|].
  rewrite Hrun2. simpl.
  exists (mkState s2 (book st)), bc, sc. split; [done|].
  split; [by rewrite Hp1, Hrows1|].
  split.
  { rewrite Hp2, Hrows2.
    rewrite (rows_of_prefix (objs st) s1 _ SELL Hs); [done|].
    by apply (deepcopy_prefix _ _ _ _ Hcopy1). }
  split; [done|]. split.
  - intros side r Hr. simpl. by apply Hext2, Hext1.
  - intros r o Hr. simpl.
    apply (deepcopy_prefix _ _ _ _ Hcopy2).
    by apply (deepcopy_prefix _ _ _ _ Hcopy1).
Qed.



(** The table of the witness: the cancelled bid has no row. *)
Example repr_of_book_with_tombstone :
  exists st',
    Book_repr_rows book_with_tombstone
    = Ok (st', ([(30, float_of_Z 9, 2)], [(20, float_of_Z 11, 3)])).
Proof. eexists. vm_compute. reflexivity. Qed.

Lemma SFltb_as_leb x y :
  is_nan x = false -> is_nan y = false ->
  SFltb x y = SFleb x y && negb (SFleb y x).
Proof.
  intros Hx Hy. destruct (SFcompare_not_nan x y Hx Hy) as [c Hc].
  unfold SFltb, SFleb. rewrite (SFcompare_antisym _ _ _ Hc), Hc. by destruct c.
Qed.

Lemma SFeqb_as_leb x y :
  is_nan x = false -> is_nan y = false ->
  SFeqb x y = SFleb x y && SFleb y x.
Proof.
  intros Hx Hy. destruct (SFcompare_not_nan x y Hx Hy) as [c Hc].
  unfold SFeqb, SFleb. rewrite (SFcompare_antisym _ _ _ Hc), Hc. by destruct c.
Qed.

Lemma betterb_total side x y :
  is_nan x = false -> is_nan y = false ->
  betterb side x y = true \/ betterb side y x = true.
Proof.
  intros Hx Hy. destruct side; simpl; unfold float_ge, float_le.
  - destruct (SFleb_total x y Hx Hy); auto.
  - by apply SFleb_total.
Qed.

Lemma betterb_trans side x y z :
  betterb side x y = true -> betterb side y z = true -> betterb side x z = true.
Proof.
  destruct side; simpl; unfold float_ge, float_le; eauto using SFleb_trans.
Qed.

(** [<] on two orders of one side with numeric prices, in terms of the
    price priority. *)
Lemma Order_lt_as_betterb a b :
  order_side a = order_side b ->
  is_nan (price a) = false -> is_nan (price b) = false ->
  Order_lt a b
  = Ok (if betterb (order_side a) (price a) (price b)
           && betterb (order_side a) (price b) (price a)
        then order_id a <? order_id b
        else betterb (order_side a) (price a) (price b)).
Proof.
  intros Hs Ha Hb. unfold Order_lt.
  rewrite bool_decide_eq_true_2 by done. simpl.
  unfold float_eq, float_lt, float_gt.
  rewrite (SFeqb_as_leb _ _ Ha Hb).
  destruct (order_side a); simpl; unfold float_ge, float_le.
  - rewrite (SFltb_as_leb _ _ Hb Ha).
    destruct (SFleb (price a) (price b)), (SFleb (price b) (price a)); done.
  - rewrite (SFltb_as_leb _ _ Ha Hb).
    destruct (SFleb (price a) (price b)), (SFleb (price b) (price a)); done.
Qed.



(** X3: [Order.__lt__] raises exactly when the two orders are of different
    sides; it returns a truth value otherwise. *)
Theorem Order_lt_raises_iff_sides_differ (a b : Order) :
  (Order_lt a b = Raise <-> order_side a <> order_side b) /\
  (order_side a = order_side b <-> exists r, Order_lt a b = Ok r).
Proof.
  unfold Order_lt. destruct (decide (order_side a = order_side b)) as [He|Hne].
  - rewrite bool_decide_eq_true_2 by done. simpl.
    split; (split; [|done]).
    + destruct (float_eq _ _), (order_side a); done.
    + intros _. destruct (float_eq _ _), (order_side a); by eexists.
  - rewrite bool_decide_eq_false_2 by done. simpl.
    split; [done|]. split; [done|]. by intros [r Hr].
Qed.

(** X4: an order whose price is a NaN is neither before nor after any order of
    its side, whatever the ids. *)
Theorem Order_lt_nan_unordered (a b : Order) :
  order_side a = order_side b ->
  is_nan (price a) = true \/ is_nan (price b) = true ->
  Order_lt a b = Ok false /\ Order_lt b a = Ok false.
Proof.
  intros Hs Hnan. unfold Order_lt.
  rewrite !bool_decide_eq_true_2 by done. simpl.
  unfold float_eq, float_lt, float_gt, SFeqb, SFltb.
  rewrite <- Hs.
  assert (SFcompare (price a) (price b) = None /\
          SFcompare (price b) (price a) = None) as [-> ->].
  { destruct Hnan as [Hn|Hn]; destruct (price a), (price b); done. }
  by destruct (order_side a).
Qed.

Lemma Order_lt_nan_unordered_witness :
  Order_lt (mkOrder 1 LIMIT SELL 5 S754_nan "STOCK")
           (mkOrder 2 LIMIT SELL 5 (float_of_Z 10) "STOCK") = Ok false /\
  Order_lt (mkOrder 2 LIMIT SELL 5 (float_of_Z 10) "STOCK")
           (mkOrder 1 LIMIT SELL 5 S754_nan "STOCK") = Ok false.
Proof.
  apply (Order_lt_nan_unordered
           (mkOrder 1 LIMIT SELL 5 S754_nan "STOCK")
           (mkOrder 2 LIMIT SELL 5 (float_of_Z 10) "STOCK")).
  - reflexivity.
  - left. reflexivity.
Defined.

Lemma add_order_length oid otype oside qty prc stk st st' h trades :
  book_ok st ->
  add_order oid otype oside qty prc stk st = Ok (st', h, trades) ->
  length (objs st') = S (length (objs st)).
Proof.
  intros Hok Hrun.
  destruct (add_order_rule (fun _ _ _ _ => True) oid otype oside qty prc stk st Hok)
    as (s' & q' & top' & tr & o' & own' & Hrun' & [Hlen _] & _); [done|done|].
  rewrite Hrun in Hrun'. injection Hrun' as -> _ _. simpl.
  rewrite <- Hlen, length_app. simpl. lia.
Qed.

(** One call of a session returns, keeps the invariant of the book, and adds
    the order it creates to the store. *)
Lemma do_call_session c calls st n :
  book_inv st -> length (objs st) = n -> session_okb n (c :: calls) = true ->
  exists st',
    do_call c st = Ok st' /\ book_inv st' /\
    session_okb (length (objs st')) calls = true.
Proof.
  intros Hinv Hn Hc. pose proof (book_inv_ok st Hinv) as Hok.
  destruct c as [oid side qty prc|oid side qty|r|r qty prc]; simpl in Hc.
  - apply andb_true_iff in Hc as [Hp%negb_true_iff Hcs].
    destruct (add_order_inv oid LIMIT side qty prc (book_stock (book st)) st Hinv)
      as (st1 & h & tr & Hadd & Hinv1); [done|].
    exists st1. simpl. rewrite Hadd. simpl. split; [done|]. split; [done|].
    by rewrite (add_order_length _ _ _ _ _ _ _ _ _ _ Hok Hadd), Hn.
  - destruct (add_order_inv oid MARKET side qty float_inf (book_stock (book st))
                st Hinv) as (st1 & h & tr & Hadd & Hinv1); [done|].
    exists st1. simpl. rewrite Hadd. simpl. split; [done|]. split; [done|].
    by rewrite (add_order_length _ _ _ _ _ _ _ _ _ _ Hok Hadd), Hn.
  - apply andb_true_iff in Hc as [Hr%Nat.ltb_lt Hcs].
    rewrite <- Hn in Hr.
    destruct (lookup_lt_is_Some_2 _ _ Hr) as [o Ho].
    assert (delete_order r st
            = Ok (mkState (<[r := with_quantity o 0]> (objs st)) (book st))) as Hdel.
    { unfold delete_order. by rewrite (set_quantity_Some _ _ _ _ Ho). }
    eexists. simpl. split; [exact Hdel|].
    split; [by apply (delete_order_inv r st)|].
    simpl. by rewrite length_insert, Hn.
  - apply andb_true_iff in Hc as [Hc Hcs].
    apply andb_true_iff in Hc as [Hr%Nat.ltb_lt Hp%negb_true_iff].
    rewrite <- Hn in Hr.
    destruct (lookup_lt_is_Some_2 _ _ Hr) as [o Ho].
    destruct (add_order_inv (order_id o) (order_type o) (order_side o) qty prc
                (stock o) _ (retired_inv r st o Hinv Ho))
      as (st2 & h2 & tr2 & Hadd & Hinv2); [done|].
    exists st2. simpl. rewrite (modify_order_unfold r qty prc st o Ho), Hadd.
    simpl. split; [done|]. split; [done|].
    rewrite (add_order_length _ _ _ _ _ _ _ _ _ _
               (book_ok_retired st r o Ho Hok) Hadd).
    simpl. by rewrite length_insert, Hn.
Qed.

Lemma run_session calls : forall st,
  book_inv st -> session_okb (length (objs st)) calls = true ->
  exists st', run calls st = Ok st' /\ book_inv st'.
Proof.
  induction calls as [|c calls IH]; intros st Hinv Hc.
  - by exists st.
  - destruct (do_call_session c calls st _ Hinv eq_refl Hc)
      as (st1 & Hcall & Hinv1 & Hcs).
    simpl. rewrite Hcall. simpl. by apply IH.
Qed.

Lemma price_sorted_snoc side trades q p :
  price_sorted side trades ->
  Forall (fun t : trade => better side t.2 p) trades ->
  price_sorted side (trades ++ [(q, p)]).
Proof.
  intros Hs Hall i j ti tj Hij Hi Hj.
  pose proof (lookup_lt_Some _ _ _ Hj) as Hlt.
  rewrite length_app in Hlt. simpl in Hlt.
  destruct (decide (j = length trades)) as [->|Hne].
  - assert (i < length trades)%nat as Hi' by lia.
    rewrite lookup_app_l in Hi by done.
    rewrite lookup_app_r, Nat.sub_diag in Hj by done. injection Hj as <-.
    rewrite Forall_forall in Hall. apply Hall.
    by eapply list_elem_of_lookup_2.
  - assert (j < length trades)%nat as Hj' by lia.
    assert (i < length trades)%nat as Hi' by lia.
    rewrite lookup_app_l in Hi by done. rewrite lookup_app_l in Hj by done.
    by apply (Hs i j).
Qed.

(** The fills of a submission on a book that satisfies the invariant come in
    the order of the price priority, and none passes over a better price. *)
Lemma add_order_price_priority oid otype oside qty prc stk st :
  book_inv st ->
  exists st' h trades,
    add_order oid otype oside qty prc stk st = Ok (st', h, trades) /\
    price_sorted (opp oside) trades /\
    Forall (fun t : trade =>
              forall x ox, x ∈ opposite_queue oside (book st') ->
                objs st' !! x = Some ox -> better (opp oside) t.2 (price ox))
           trades.
Proof.
  intros Hinv0.
  pose proof (book_inv_ok st Hinv0) as Hok.
  destruct Hinv0 as [Hpr0 Hhp0 _].
  set (order := length (objs st)).
  set (o0 := mkOrder oid otype oside qty prc stk).
  set (s0 := objs st ++ [o0]).
  set (q0 := opposite_queue oside (book st)).
  assert (Forall (priced s0 (opp oside)) q0) as Hq0p.
  { unfold q0. rewrite opposite_own. eapply Forall_impl; [apply Hpr0|].
    intros r. apply priced_alloc. }
  assert (heap_ordered (ple s0 (opp oside)) q0) as Hq0h.
  { unfold q0. rewrite opposite_own. apply heap_ordered_alloc, Hhp0. }
  destruct (add_order_rule
    (fun s q top tr =>
       same_keys s0 s /\ Forall (priced s0 (opp oside)) q /\
       heap_ordered (ple s0 (opp oside)) q /\
       price_sorted (opp oside) tr /\
       Forall (fun t : trade =>
                 forall x, x ∈ q ->
                   exists ox, s0 !! x = Some ox /\
                     better (opp oside) t.2 (price ox)) tr)
    oid otype oside qty prc stk st Hok)
    as (s' & q' & top' & trades & o' & own' & Hrun & Hkeys & _ & _ & _
        & Hinv & _).
  - intros s q top tr o t s1 q1 top1 tr1 Hwf (Hk & Hqp & Hqh & Hsort & Hall)
      Hhd Ho Ht Hpos Hcmp Hbody.
    assert (q <> []) as Hne by (by destruct q).
    destruct (match_body_cases _ _ _ _ _ _ o t _ _ _ _ Hwf Hne Ho Ht Hbody)
      as (Hcase & _ & _ & Hsub1 & Hq1).
    destruct (loop_wf_step _ _ _ _ _ _ _ _ _ _ Hwf Hne Hbody) as (_ & Hk1 & _).
    assert (same_keys s0 s1) as Hk01 by by eapply same_keys_trans.
    assert (top ∈ q) as Htopq.
    { destruct q as [|x q]; [done|]. injection Hhd as ->. by left. }
    (* the price on top of the queue is the best of the queue *)
    assert (forall x, x ∈ q ->
              exists ox, s0 !! x = Some ox /\
                better (opp oside) (price t) (price ox)) as Hbest.
    { intros x Hx.
      destruct (heap_top_best s0 (opp oside) q top Hqp Hqh Hhd x Hx)
        as (t0 & ox & Ht0 & Hox & Hb).
      exists ox. split; [done|].
      by rewrite (same_keys_price s0 s top t0 t Hk Ht0 Ht). }
    assert (Forall (fun t' : trade => better (opp oside) t'.2 (price t)) tr)
      as Hbefore.
    { eapply Forall_impl; [exact Hall|]. intros t' Ht'. simpl in Ht'.
      destruct (Ht' top Htopq) as (t0 & Ht0 & Hb).
      by rewrite (same_keys_price s0 s top t0 t Hk Ht0 Ht). }
    assert (forall n, price_sorted (opp oside) (tr ++ [(n, price t)]) /\
              Forall (fun t' : trade =>
                 forall x, x ∈ q1 ->
                   exists ox, s0 !! x = Some ox /\
                     better (opp oside) t'.2 (price ox)) (tr ++ [(n, price t)]))
      as Hnew.
    { intros n. split; [by apply price_sorted_snoc|].
      apply Forall_app. split.
      - eapply Forall_impl; [exact Hall|]. intros t' Ht' x Hx. auto.
      - apply Forall_singleton. intros x Hx. simpl. auto. }
    split; [done|]. split; [|split].
    + apply Forall_forall. intros r Hr. rewrite Forall_forall in Hqp. auto.
    + destruct Hq1 as [->|[Hpop Hperm]]; [done|].
      apply (heap_ordered_same_keys s1 s0); [by apply same_keys_sym|].
      apply (heappop_loc_ordered s1 (opp oside) q q1 top); [|done|].
      * eapply Forall_impl; [exact Hqp|]. intros r. by apply priced_same_keys.
      * by apply (heap_ordered_same_keys s0 s1).
    + destruct Hcase as [_ _ _ _ ->|_ _ _ ->|_ _ _ ->]; [apply Hnew| |apply Hnew].
      split; [done|].
      eapply Forall_impl; [exact Hall|]. intros t' Ht' x Hx. auto.
  - intros top. split; [apply same_keys_refl|]. split; [done|].
    split; [done|]. split; [|done]. intros i j ti tj _ Hi. done.
  - destruct Hinv as (_ & _ & _ & Hsort & Hall).
    exists (mkState s' (set_queues oside (book st) q' own')), order, trades.
    split; [done|]. split; [done|].
    eapply Forall_impl; [exact Hall|]. intros t' Ht' x ox Hx Hox. simpl in *.
    rewrite opposite_set_queues in Hx.
    destruct (Ht' x Hx) as (ox0 & Hox0 & Hb).
    by rewrite (same_keys_price s0 s' x ox0 ox Hkeys Hox0 Hox).
Qed.

Lemma total_quantity_insert s r o x :
  s !! r = Some o ->
  total_quantity (<[r := x]> s) = total_quantity s - quantity o + quantity x.
Proof.
  revert r. induction s as [|y s IH]; intros r Hr; [done|].
  destruct r as [|r]; simpl in *.
  - injection Hr as ->. lia.
  - rewrite (IH r Hr). lia.
Qed.

(** An order without a positive quantity goes through [add_limit_order] and
    [add_market_order] without a trade, and the book is not changed. *)
Lemma add_limit_order_nonpositive order st o :
  objs st !! order = Some o -> quantity o <= 0 ->
  add_limit_order order st = Ok (st, []).
Proof.
  intros Ho Hq%Z.ltb_ge. unfold add_limit_order.
  rewrite (deref_Some _ _ _ Ho). simpl.
  assert (mkState (objs st)
            (set_queues (order_side o) (book st)
               (opposite_queue (order_side o) (book st))
               (own_queue (order_side o) (book st))) = st) as Hst.
  { rewrite set_queues_same. by destruct st. }
  destruct (opposite_queue (order_side o) (book st)) as [|top rest] eqn:Hqueue;
    simpl.
  - rewrite (deref_Some _ _ _ Ho). simpl. rewrite Hq. simpl. by rewrite Hst.
  - rewrite (deref_Some _ _ _ Ho). simpl. rewrite Hq. simpl.
    rewrite (deref_Some _ _ _ Ho). simpl. rewrite Hq. simpl. by rewrite Hst.
Qed.

Lemma add_market_order_nonpositive order st o :
  objs st !! order = Some o -> quantity o <= 0 ->
  add_market_order order st = Ok (st, []).
Proof.
  intros Ho Hq%Z.ltb_ge. unfold add_market_order.
  rewrite (deref_Some _ _ _ Ho). simpl.
  assert (mkState (objs st)
            (set_queues (order_side o) (book st)
               (opposite_queue (order_side o) (book st))
               (own_queue (order_side o) (book st))) = st) as Hst.
  { rewrite set_queues_same. by destruct st. }
  destruct (opposite_queue (order_side o) (book st)) as [|top rest] eqn:Hqueue;
    simpl.
  - by rewrite Hst.
  - rewrite (deref_Some _ _ _ Ho). simpl. rewrite Hq. simpl. by rewrite Hst.
Qed.

(** X5: no call of a session raises, and the book is never crossed.  After
    every sequence of submissions, cancellations and modifications on a new
    book -- made on orders that exist, with limit prices that are numbers
    and quantities of any sign -- the calls have all returned, and the best
    bid with a quantity is strictly below the best ask with a quantity. *)
Theorem session_never_raises_nor_crosses (calls : list call) (stk : string) :
  session_okb 0 calls = true ->
  exists st,
    run calls (init_state stk) = Ok st /\
    forall b a, best_bid st = Some b -> best_ask st = Some a ->
      float_lt b a = true.
Proof.
  intros Hc.
  destruct (run_session calls (init_state stk) (book_inv_init stk) Hc)
    as (st & Hrun & Hinv).
  exists st. split; [done|]. intros b a. by apply book_inv_best.
Qed.

Lemma session_never_raises_nor_crosses_witness :
  exists st,
    run mixed_session (init_state "STOCK") = Ok st /\
    forall b a, best_bid st = Some b -> best_ask st = Some a ->
      float_lt b a = true.
Proof.
  apply (session_never_raises_nor_crosses mixed_session "STOCK"). reflexivity.
Defined.

(** X6: price priority of the queues.  After every session on a new book, the
    first entry of each queue -- the order that the next incoming order is
    matched against -- has the best price of its queue: no bid of the buy
    queue is higher than the first, no ask of the sell queue lower. *)
Theorem queue_head_has_best_price (calls : list call) (stk : string) :
  session_okb 0 calls = true ->
  exists st,
    run calls (init_state stk) = Ok st /\
    forall side top x, head (own_queue side (book st)) = Some top ->
      x ∈ own_queue side (book st) ->
      exists otop ox, objs st !! top = Some otop /\ objs st !! x = Some ox /\
        better side (price otop) (price ox).
Proof.
  intros Hc.
  destruct (run_session calls (init_state stk) (book_inv_init stk) Hc)
    as (st & Hrun & Hinv).
  exists st. split; [done|]. intros side top x Hhd Hx.
  apply (heap_top_best (objs st) side (own_queue side (book st)) top); try done.
  - apply (inv_priced st Hinv).
  - apply (inv_heap st Hinv).
Qed.

Lemma queue_head_has_best_price_witness :
  exists st,
    run mixed_session (init_state "STOCK") = Ok st /\
    forall side top x, head (own_queue side (book st)) = Some top ->
      x ∈ own_queue side (book st) ->
      exists otop ox, objs st !! top = Some otop /\ objs st !! x = Some ox /\
        better side (price otop) (price ox).
Proof.
  apply (queue_head_has_best_price mixed_session "STOCK"). reflexivity.
Defined.

(** X7: price priority of the fills.  On the book that a session has built,
    every submission returns, its trades are listed from the best resting
    price to the worst, and no trade is at a price worse than that of an
    order left in the opposite queue. *)
Theorem fills_in_price_order (calls : list call) (stk : string)
    (oid : Z) (otype : Type_) (side : Side) (qty : Z) (prc : price_t)
    (stk' : string) :
  session_okb 0 calls = true ->
  exists st st' h trades,
    run calls (init_state stk) = Ok st /\
    add_order oid otype side qty prc stk' st = Ok (st', h, trades) /\
    price_sorted (opp side) trades /\
    Forall (fun t : trade =>
              forall x ox, x ∈ opposite_queue side (book st') ->
                objs st' !! x = Some ox -> better (opp side) t.2 (price ox))
           trades.
Proof.
  intros Hc.
  destruct (run_session calls (init_state stk) (book_inv_init stk) Hc)
    as (st & Hrun & Hinv).
  destruct (add_order_price_priority oid otype side qty prc stk' st Hinv)
    as (st' & h & trades & Hadd & Hsort & Hall).
  by exists st, st', h, trades.
Qed.

Lemma fills_in_price_order_witness :
  exists st st' h trades,
    run three_asks (init_state "STOCK") = Ok st /\
    add_order 5 LIMIT BUY 25 (float_of_Z 11) "STOCK" st = Ok (st', h, trades) /\
    price_sorted (opp BUY) trades /\
    Forall (fun t : trade =>
              forall x ox, x ∈ opposite_queue BUY (book st') ->
                objs st' !! x = Some ox -> better (opp BUY) t.2 (price ox))
           trades.
Proof.
  apply (fills_in_price_order three_asks "STOCK" 5 LIMIT BUY 25 (float_of_Z 11)
           "STOCK").
  reflexivity.
Defined.

(** The fills of the witness: the ask at 10.00, then the ask at 11.00; the
    ask at 12.00 is left. *)
Example fills_of_three_asks :
  exists st st' h,
    run three_asks (init_state "STOCK") = Ok st /\
    add_order 5 LIMIT BUY 25 (float_of_Z 11) "STOCK" st
    = Ok (st', h, [(10, float_of_Z 10); (10, float_of_Z 11)]).
Proof. eexists _, _, _. split; vm_compute; reflexivity. Qed.

(** X8: the limit price is respected.  A limit submission returns, and every
    trade it returns is at a price that [compare] accepts for the limit
    price: at most the limit for a buy, at least the limit for a sell. *)
Theorem limit_price_respected (oid : Z) (side : Side) (qty : Z) (prc : price_t)
    (stk : string) (st : state) :
  book_okb st = true ->
  exists st' h trades,
    add_order oid LIMIT side qty prc stk st = Ok (st', h, trades) /\
    Forall (fun t : trade => compare side prc t.2 = true) trades.
Proof.
  intros Hok%book_okb_spec.
  set (order := length (objs st)).
  destruct (add_order_rule
    (fun s q top tr =>
       (forall o, s !! order = Some o -> price o = prc) /\
       Forall (fun t : trade => compare side prc t.2 = true) tr)
    oid LIMIT side qty prc stk st Hok)
    as (s' & q' & top' & trades & o' & own' & Hrun & _ & _ & _ & _
        & [_ Hall] & _).
  - intros s q top tr o t s1 q1 top1 tr1 Hwf [Hp Hall] Hhd Ho Ht Hpos Hcmp Hbody.
    assert (q <> []) as Hne by (by destruct q).
    destruct (match_body_cases _ _ _ _ _ _ o t _ _ _ _ Hwf Hne Ho Ht Hbody)
      as (Hcase & _).
    simpl in Hcmp. rewrite (Hp o Ho) in Hcmp.
    assert (forall n, Forall (fun t : trade => compare side prc t.2 = true)
                        (tr ++ [(n, price t)])) as Hnew.
    { intros n. apply Forall_app. split; [done|]. by apply Forall_singleton. }
    destruct Hcase as [_ _ H3 _ ->|_ _ -> ->|_ H2 _ ->].
    + split; [|apply Hnew]. intros x Hx.
      pose proof (eq_trans (eq_sym Hx) H3) as [= ->]. simpl. by apply Hp.
    + done.
    + split; [|apply Hnew]. intros x Hx.
      pose proof (eq_trans (eq_sym Hx) H2) as [= ->]. simpl. by apply Hp.
  - intros top. split; [|done]. intros o Ho.
    unfold order in Ho. rewrite lookup_alloc in Ho. by injection Ho as <-.
  - by eexists _, _, _.
Qed.

Lemma limit_price_respected_witness :
  exists st' h trades,
    add_order 2 LIMIT BUY 150 (float_of_Z 11) "STOCK" one_ask
    = Ok (st', h, trades) /\
    Forall (fun t : trade => compare BUY (float_of_Z 11) t.2 = true) trades.
Proof.
  apply (limit_price_respected 2 BUY 150 (float_of_Z 11) "STOCK" one_ask).
  reflexivity.
Defined.

(** X9: a submission without a positive quantity is inert.  [add_order] with
    a quantity that is 0 or negative creates the order and returns it with
    no trades: it is matched against nothing and is put in no queue, so the
    book is what it was, whatever its state. *)
Theorem nonpositive_submission_is_inert (oid : Z) (otype : Type_) (side : Side)
    (qty : Z) (prc : price_t) (stk : string) (st : state) :
  qty <= 0 ->
  add_order oid otype side qty prc stk st
  = Ok (mkState (objs st ++ [mkOrder oid otype side qty prc stk]) (book st),
        length (objs st), []).
Proof.
  intros Hq. unfold add_order. simpl.
  rewrite (deref_Some _ _ _ (lookup_alloc (objs st) _)). simpl.
  destruct otype; simpl.
  - by rewrite (add_market_order_nonpositive (length (objs st))
                  (mkState (objs st ++ [mkOrder oid MARKET side qty prc stk])
                     (book st)) _ (lookup_alloc (objs st) _)).
  - by rewrite (add_limit_order_nonpositive (length (objs st))
                  (mkState (objs st ++ [mkOrder oid LIMIT side qty prc stk])
                     (book st)) _ (lookup_alloc (objs st) _)).
Qed.

Lemma nonpositive_submission_is_inert_witness :
  add_order 2 LIMIT BUY (-5) (float_of_Z 11) "STOCK" one_ask
  = Ok (mkState (objs one_ask ++ [mkOrder 2 LIMIT BUY (-5) (float_of_Z 11) "STOCK"])
          (book one_ask),
        length (objs one_ask), []).
Proof.
  apply (nonpositive_submission_is_inert 2 LIMIT BUY (-5) (float_of_Z 11)
           "STOCK" one_ask).
  lia.
Defined.

(** X10: matching only takes quantity away.  A submission returns, and every
    order that existed before it is afterwards the same order with a
    quantity that is not larger, and not negative unless it was; an order
    of the side of the incoming order is not changed at all. *)
Theorem matching_only_reduces_quantities (oid : Z) (otype : Type_) (side : Side)
    (qty : Z) (prc : price_t) (stk : string) (st : state) :
  book_okb st = true ->
  exists st' h trades,
    add_order oid otype side qty prc stk st = Ok (st', h, trades) /\
    forall r o, objs st !! r = Some o ->
      exists o', objs st' !! r = Some o' /\
        o' = with_quantity o (quantity o') /\
        quantity o' <= quantity o /\
        (0 <= quantity o -> 0 <= quantity o') /\
        (order_side o = side -> o' = o).
Proof.
  intros Hok%book_okb_spec.
  set (order := length (objs st)).
  set (s0 := objs st ++ [mkOrder oid otype side qty prc stk]).
  destruct (add_order_rule
    (fun s q top tr => forall r o, r <> order -> s0 !! r = Some o ->
       exists o', s !! r = Some o' /\ quantity o' <= quantity o /\
         (0 <= quantity o -> 0 <= quantity o'))
    oid otype side qty prc stk st Hok)
    as (s' & q' & top' & trades & o' & own' & Hrun & _ & _ & _ & _ & Hinv & _).
  - intros s q top tr o t s1 q1 top1 tr1 Hwf Hinv Hhd Ho Ht Hpos Hcmp Hbody r x Hr Hx.
    assert (q <> []) as Hne by (by destruct q).
    destruct (match_body_cases _ _ _ _ _ _ o t _ _ _ _ Hwf Hne Ho Ht Hbody)
      as (Hcase & Hothers & _).
    destruct (Hinv r x Hr Hx) as (x' & Hx' & Hle & Hnn).
    destruct (decide (r = top)) as [->|Hrt].
    + pose proof (eq_trans (eq_sym Hx') Ht) as [= ->].
      destruct Hcase as [H1 _ _ H4 _|_ _ -> _|H1 _ H3 _].
      * eexists. split; [exact H4|]. simpl. split; [lia|]. done.
      * exists t. done.
      * eexists. split; [exact H3|]. simpl. split; lia.
    + exists x'. rewrite (Hothers r Hr Hrt). done.
  - intros top r o Hr Ho. exists o. split; [done|]. split; [lia|done].
  - exists (mkState s' (set_queues side (book st) q' own')), order, trades.
    split; [done|]. intros r o Hr. simpl.
    destruct (submission_frame _ _ _ _ _ _ _ _ _ _ Hok Hrun r o Hr)
      as (o1 & Ho1 & (Ht & Hs & Hp & Hk) & Hid & Hsame).
    simpl in Ho1.
    destruct (Hinv r o) as (o2 & Ho2 & Hle & Hnn).
    { apply lookup_lt_Some in Hr. unfold order. lia. }
    { by apply lookup_app_l_Some. }
    pose proof (eq_trans (eq_sym Ho2) Ho1) as [= ->].
    exists o1. split; [done|]. split; [|done].
    destruct o, o1. simpl in *. unfold with_quantity. simpl. congruence.
Qed.

Lemma matching_only_reduces_quantities_witness :
  exists st' h trades,
    add_order 2 MARKET BUY 30 float_inf "STOCK" one_ask = Ok (st', h, trades) /\
    forall r o, objs one_ask !! r = Some o ->
      exists o', objs st' !! r = Some o' /\
        o' = with_quantity o (quantity o') /\
        quantity o' <= quantity o /\
        (0 <= quantity o -> 0 <= quantity o') /\
        (order_side o = BUY -> o' = o).
Proof.
  apply (matching_only_reduces_quantities 2 MARKET BUY 30 float_inf "STOCK"
           one_ask).
  reflexivity.
Defined.

(** X11: the resting orders are debited by the trades.  A submission returns,
    and the quantities of its trades add up to what the orders that existed
    before it have lost between them. *)
Theorem resting_orders_debited_by_trades (oid : Z) (otype : Type_) (side : Side)
    (qty : Z) (prc : price_t) (stk : string) (st : state) :
  book_okb st = true ->
  exists st' h trades,
    add_order oid otype side qty prc stk st = Ok (st', h, trades) /\
    total_quantity (take (length (objs st)) (objs st')) + sum_quantities trades
    = total_quantity (objs st).
Proof.
  intros Hok%book_okb_spec.
  set (order := length (objs st)).
  set (s0 := objs st ++ [mkOrder oid otype side qty prc stk]).
  destruct (add_order_rule
    (fun s q top tr =>
       length s = S order /\
       total_quantity (take order s) + sum_quantities tr
       = total_quantity (objs st))
    oid otype side qty prc stk st Hok)
    as (s' & q' & top' & trades & o' & own' & Hrun & _ & _ & _ & _
        & [_ Hinv] & _).
  - intros s q top tr o t s1 q1 top1 tr1 Hwf [Hlen Hinv] Hhd Ho Ht Hpos Hcmp Hbody.
    assert (q <> []) as Hne by (by destruct q).
    assert (order <> top) as Hdiff
      by apply (on_side_distinct _ _ _ _ (lw_order _ _ _ _ _ Hwf)
                  (lw_top _ _ _ _ _ Hwf)).
    pose proof (lookup_lt_Some _ _ _ Ht) as Htl.
    assert (top < order)%nat as Hlt by lia.
    assert (take order s !! top = Some t) as Htt by by rewrite lookup_take_lt.
    destruct (match_body_spec order side s q top tr o t Hwf Hne Ho Ht)
      as (s2 & q2 & top2 & tr2 & Hrun2 & [Hlen2 _] & Hcase).
    pose proof (eq_trans (eq_sym Hrun2) Hbody) as Heq.
    injection Heq as -> -> -> ->.
    split; [congruence|].
    destruct Hcase as [(Hle & -> & -> & _)|(Hlt' & -> & -> & _)].
    + destruct (0 <? quantity t) eqn:Hq; [|done].
      rewrite take_insert_lt by done.
      rewrite take_insert_ge by done.
      rewrite (total_quantity_insert _ _ t _ Htt), sum_quantities_snoc.
      simpl. lia.
    + rewrite take_insert_ge by done.
      rewrite take_insert_lt by done.
      rewrite (total_quantity_insert _ _ t _ Htt), sum_quantities_snoc.
      simpl. lia.
  - intros top. unfold order. split.
    + rewrite length_app. simpl. lia.
    + rewrite take_app_length. simpl. lia.
  - by eexists _, _, _.
Qed.

Lemma resting_orders_debited_by_trades_witness :
  exists st' h trades,
    add_order 2 MARKET BUY 30 float_inf "STOCK" one_ask = Ok (st', h, trades) /\
    total_quantity (take (length (objs one_ask)) (objs st'))
    + sum_quantities trades
    = total_quantity (objs one_ask).
Proof.
  apply (resting_orders_debited_by_trades 2 MARKET BUY 30 float_inf "STOCK"
           one_ask).
  reflexivity.
Defined.

Lemma Order_lt_ext a b a' b' :
  order_side a' = order_side a -> price a' = price a ->
  order_id a' = order_id a ->
  order_side b' = order_side b -> price b' = price b ->
  order_id b' = order_id b ->
  Order_lt a' b' = Order_lt a b.
Proof. unfold Order_lt. by intros -> -> -> -> -> ->. Qed.

Lemma Order_lt_irrefl o : is_nan (price o) = false -> Order_lt o o = Ok false.
Proof.
  intros Hn. rewrite Order_lt_as_betterb by done.
  rewrite Z.ltb_irrefl. by destruct (betterb _ _ _) eqn:Hb.
Qed.

Lemma Order_lt_asym a b :
  order_side a = order_side b ->
  is_nan (price a) = false -> is_nan (price b) = false ->
  Order_lt a b = Ok true -> Order_lt b a = Ok false.
Proof.
  intros Hs Ha Hb.
  rewrite (Order_lt_as_betterb a b), (Order_lt_as_betterb b a) by done.
  rewrite <- Hs.
  destruct (betterb (order_side a) (price a) (price b)),
    (betterb (order_side a) (price b) (price a)); simpl; try done.
  intros [= H]. f_equal. lia.
Qed.

(** If [b] is not before [a] and [c] is not before [b], then [c] is not
    before [a]. *)
Lemma Order_lt_negtrans a b c :
  order_side a = order_side b -> order_side b = order_side c ->
  is_nan (price a) = false -> is_nan (price b) = false ->
  is_nan (price c) = false ->
  Order_lt b a = Ok false -> Order_lt c b = Ok false -> Order_lt c a = Ok false.
Proof.
  intros Hab Hbc Ha Hb Hc.
  rewrite (Order_lt_as_betterb b a), (Order_lt_as_betterb c b),
    (Order_lt_as_betterb c a) by congruence.
  rewrite <- Hbc, <- Hab.
  set (s := order_side a).
  pose proof (betterb_total s (price a) (price b) Ha Hb) as Tab.
  pose proof (betterb_total s (price b) (price c) Hb Hc) as Tbc.
  pose proof (betterb_total s (price a) (price c) Ha Hc) as Tac.
  pose proof (betterb_trans s (price a) (price b) (price c)) as Rabc.
  pose proof (betterb_trans s (price c) (price a) (price b)) as Rcab.
  pose proof (betterb_trans s (price b) (price c) (price a)) as Rbca.
  pose proof (betterb_trans s (price c) (price b) (price a)) as Rcba.
  pose proof (betterb_trans s (price b) (price a) (price c)) as Rbac.
  pose proof (betterb_trans s (price a) (price c) (price b)) as Racb.
  destruct (betterb s (price a) (price b)) eqn:Eab,
    (betterb s (price b) (price a)) eqn:Eba,
    (betterb s (price b) (price c)) eqn:Ebc,
    (betterb s (price c) (price b)) eqn:Ecb,
    (betterb s (price a) (price c)) eqn:Eac,
    (betterb s (price c) (price a)) eqn:Eca;
    simpl; intros;
    repeat match goal with
           | H : Ok _ = Ok _ |- _ => injection H as H
           end;
    try done; try (f_equal; lia); try (exfalso; intuition congruence).
Qed.

Lemma same_rank_refl s : same_rank s s.
Proof. split; [done|]. intros r o Hr. by exists o. Qed.

Lemma same_rank_trans s1 s2 s3 :
  same_rank s1 s2 -> same_rank s2 s3 -> same_rank s1 s3.
Proof.
  intros [Hl1 H1] [Hl2 H2]. split; [congruence|].
  intros r o Hr. destruct (H1 r o Hr) as (o' & Hr' & ? & ? & ?).
  destruct (H2 r o' Hr') as (o'' & Hr'' & ? & ? & ?).
  exists o''. repeat split; congruence.
Qed.

Lemma same_rank_sym s s' : same_rank s s' -> same_rank s' s.
Proof.
  intros [Hlen H]. split; [done|]. intros r o' Hr'.
  pose proof (lookup_lt_Some _ _ _ Hr') as Hlt. rewrite <- Hlen in Hlt.
  destruct (lookup_lt_is_Some_2 s r Hlt) as [o Hr].
  destruct (H r o Hr) as (o'' & Hr'' & ? & ? & ?).
  pose proof (eq_trans (eq_sym Hr'') Hr') as [= ->].
  exists o. by repeat split.
Qed.

Lemma same_rank_insert s r o o' :
  s !! r = Some o -> order_side o' = order_side o -> price o' = price o ->
  order_id o' = order_id o -> same_rank s (<[r := o']> s).
Proof.
  intros Hr Hs Hp Hi. split; [by rewrite length_insert|].
  intros r' x Hx. destruct (decide (r = r')) as [<-|Hne].
  - pose proof (eq_trans (eq_sym Hx) Hr) as [= ->]. exists o'.
    split; [|done]. apply list_lookup_insert_eq. by eapply lookup_lt_Some.
  - exists x. by rewrite list_lookup_insert_ne.
Qed.

Lemma priced_same_rank s s' side r :
  same_rank s s' -> priced s side r -> priced s' side r.
Proof.
  intros [_ H] (o & Hr & Hs & Hn).
  destruct (H r o Hr) as (o' & Hr' & Hs' & Hp' & _).
  exists o'. split; [done|]. split; congruence.
Qed.

Lemma rank_le_same_rank s s' side a b :
  same_rank s s' -> rank_le s side a b -> rank_le s' side a b.
Proof.
  intros [_ H] (oa & ob & Ha & Hb & Hsa & Hsb & Hna & Hnb & Hlt).
  destruct (H a oa Ha) as (oa' & Ha' & Hsa' & Hpa' & Hia').
  destruct (H b ob Hb) as (ob' & Hb' & Hsb' & Hpb' & Hib').
  exists oa', ob'. split; [done|]. split; [done|].
  split; [congruence|]. split; [congruence|].
  split; [congruence|]. split; [congruence|].
  by rewrite (Order_lt_ext ob oa ob' oa').
Qed.

Lemma heap_ordered_same_rank s s' side q :
  same_rank s s' -> heap_ordered (rank_le s side) q ->
  heap_ordered (rank_le s' side) q.
Proof.
  intros Hk Hq i Hi x p Hx Hp. eapply rank_le_same_rank; [done|].
  by apply (Hq i Hi).
Qed.

Lemma rank_le_alloc s o side a b :
  rank_le s side a b -> rank_le (s ++ [o]) side a b.
Proof.
  intros (oa & ob & Ha & Hb & Hrest). exists oa, ob.
  split; [by apply lookup_app_l_Some|]. split; [by apply lookup_app_l_Some|].
  done.
Qed.

(** [<] on the handles agrees with [rank_le]. *)
Lemma cmp_rank s side : heap_cmp (lt_loc s) (rank_le s side) (priced s side).
Proof.
  split.
  - intros x y Hx Hy. apply (lt_loc_total s side); by apply priced_on_side.
  - intros x (o & Hx & Hs & Hn). exists o, o.
    split_and!; try done. by apply Order_lt_irrefl.
  - intros x y z (ox & oy & Hx & Hy & Hsx & Hsy & Hnx & Hny & Hxy)
      (oy' & oz & Hy' & Hz & _ & Hsz & _ & Hnz & Hyz).
    pose proof (eq_trans (eq_sym Hy') Hy) as [= ->].
    exists ox, oz. split_and!; try done.
    apply (Order_lt_negtrans ox oy oz); congruence.
  - intros x y (ox & Hx & Hsx & Hnx) (oy & Hy & Hsy & Hny) Hlt.
    unfold lt_loc in Hlt.
    rewrite (deref_Some _ _ _ Hx), (deref_Some _ _ _ Hy) in Hlt. simpl in Hlt.
    exists ox, oy. split_and!; try done.
    apply Order_lt_asym; congruence.
  - intros x y (ox & Hx & Hsx & Hnx) (oy & Hy & Hsy & Hny) Hlt.
    unfold lt_loc in Hlt.
    rewrite (deref_Some _ _ _ Hx), (deref_Some _ _ _ Hy) in Hlt. simpl in Hlt.
    exists oy, ox. split_and!; done.
Qed.

(** A run of the loop body changes quantities only. *)
Lemma match_body_same_rank order side s queue top trades s' queue' top' trades' :
  loop_wf order side s queue top -> queue <> [] ->
  match_body order s queue top trades = Ok (s', queue', top', trades') ->
  same_rank s s'.
Proof.
  intros Hwf Hne Hbody.
  destruct (lw_order _ _ _ _ _ Hwf) as (o & Ho & _).
  destruct (lw_top _ _ _ _ _ Hwf) as (t & Ht & _).
  destruct (match_body_cases _ _ _ _ _ _ o t _ _ _ _ Hwf Hne Ho Ht Hbody)
    as (Hcase & Hothers & Hlen & _).
  split; [done|]. intros r x Hx.
  destruct (decide (r = order)) as [->|Hro].
  { pose proof (eq_trans (eq_sym Hx) Ho) as [= ->].
    destruct Hcase as [_ _ H3 _ _|_ _ -> _|_ H2 _ _].
    - eexists. split; [exact H3|]. done.
    - by exists o.
    - eexists. split; [exact H2|]. done. }
  destruct (decide (r = top)) as [->|Hrt].
  { pose proof (eq_trans (eq_sym Hx) Ht) as [= ->].
    destruct Hcase as [_ _ _ H4 _|_ _ -> _|_ _ H3 _].
    - eexists. split; [exact H4|]. done.
    - by exists t.
    - eexists. split; [exact H3|]. done. }
  exists x. by rewrite (Hothers r Hro Hrt).
Qed.

Lemma rank_inv_ok st : rank_inv st -> book_ok st.
Proof.
  intros [Hp _] side. eapply Forall_impl; [apply Hp|].
  intros r. apply priced_on_side.
Qed.

Lemma rank_inv_init stk : rank_inv (init_state stk).
Proof.
  split.
  - intros side. by destruct side.
  - intros side i Hi x p Hx. by destruct side.
Qed.

(** A submission keeps both queues heaps for the order of [<]. *)
Lemma add_order_rank_inv oid otype oside qty prc stk st :
  rank_inv st -> (otype = LIMIT -> is_nan prc = false) ->
  exists st' h trades,
    add_order oid otype oside qty prc stk st = Ok (st', h, trades) /\
    rank_inv st'.
Proof.
  intros Hinv0 Hnan.
  pose proof (rank_inv_ok st Hinv0) as Hok.
  destruct Hinv0 as [Hpr0 Hhp0].
  set (order := length (objs st)).
  set (o0 := mkOrder oid otype oside qty prc stk).
  set (s0 := objs st ++ [o0]).
  set (q0 := opposite_queue oside (book st)).
  set (own := own_queue oside (book st)).
  assert (Forall (priced s0 (opp oside)) q0) as Hq0p.
  { unfold q0. rewrite opposite_own. eapply Forall_impl; [apply Hpr0|].
    intros r. apply priced_alloc. }
  assert (heap_ordered (rank_le s0 (opp oside)) q0) as Hq0h.
  { unfold q0. rewrite opposite_own. intros i Hi x p Hx Hp.
    apply rank_le_alloc. by apply (Hhp0 (opp oside) i Hi). }
  destruct (add_order_rule
    (fun s q top tr =>
       same_rank s0 s /\ Forall (priced s0 (opp oside)) q /\
       heap_ordered (rank_le s0 (opp oside)) q)
    oid otype oside qty prc stk st Hok)
    as (s' & q' & top' & trades & o' & own' & Hrun & Hkeys & Ho' & Hq' & Hown
        & Hinv & Hexit & Hpush).
  - intros s q top tr o t s1 q1 top1 tr1 Hwf (Hk & Hqp & Hqh)
      Hhd Ho Ht Hpos Hcmp Hbody.
    assert (q <> []) as Hne by (by destruct q).
    destruct (match_body_cases _ _ _ _ _ _ o t _ _ _ _ Hwf Hne Ho Ht Hbody)
      as (_ & _ & _ & Hsub1 & Hq1).
    pose proof (match_body_same_rank _ _ _ _ _ _ _ _ _ _ Hwf Hne Hbody) as Hk1.
    assert (same_rank s0 s1) as Hk01 by by eapply same_rank_trans.
    split; [done|]. split.
    + apply Forall_forall. intros r Hr. rewrite Forall_forall in Hqp. auto.
    + destruct Hq1 as [->|[Hpop Hperm]]; [done|].
      apply (heap_ordered_same_rank s1 s0); [by apply same_rank_sym|].
      destruct (heappop_spec _ _ _ (cmp_rank s1 (opp oside)) q Hne)
        as (q'' & x' & Hrun' & _ & _ & Hord).
      { eapply Forall_impl; [exact Hqp|]. intros r. by apply priced_same_rank. }
      pose proof (eq_trans (eq_sym Hrun') Hpop) as [= -> ->].
      apply Hord. by apply (heap_ordered_same_rank s0 s1).
  - intros top. split; [apply same_rank_refl|]. done.
  - destruct Hinv as (Hrank & Hqp' & Hqh').
    exists (mkState s' (set_queues oside (book st) q' own')), order, trades.
    split; [done|].
    assert (same_rank (objs st ++ [o0]) s') as Hrank' by done.
    assert (price o' = prc /\ order_side o' = oside) as [Hprc Hside].
    { destruct Hrank' as [_ H].
      destruct (H order o0 (lookup_alloc _ _)) as (x & Hx & Hs & Hp & _).
      pose proof (eq_trans (eq_sym Hx) Ho') as [= ->]. done. }
    assert (Forall (priced s' oside) own) as Hownp.
    { eapply Forall_impl; [apply (Hpr0 oside)|]. intros r Hr.
      apply (priced_same_rank s0 s'); [done|]. by apply priced_alloc. }
    assert (heap_ordered (rank_le s' oside) own) as Hownh.
    { apply (heap_ordered_same_rank s0 s'); [done|].
      intros i Hi x p Hx Hp. apply rank_le_alloc. by apply (Hhp0 oside i Hi). }
    assert (Forall (priced s' (opp oside)) q') as Hq'p.
    { eapply Forall_impl; [exact Hqp'|]. intros r. by apply priced_same_rank. }
    assert (heap_ordered (rank_le s' (opp oside)) q') as Hq'h
      by by apply (heap_ordered_same_rank s0 s').
    assert ((own' = own) \/
            (otype = LIMIT /\ heappush (lt_loc s') own order = Ok own' /\
             own' ≡ₚ own ++ [order])) as Hown'.
    { destruct otype; [by left|].
      destruct (0 <? quantity o') eqn:Hpos; [|by left].
      right. by destruct Hpush. }
    assert (otype = LIMIT -> priced s' oside order) as Hordp.
    { intros Ht. exists o'. split; [done|]. split; [done|].
      rewrite Hprc. auto. }
    split.
    + intros side. simpl.
      destruct (decide (side = oside)) as [->|Hne].
      * rewrite own_set_queues.
        destruct Hown' as [->|(Ht & _ & Hperm)]; [done|].
        rewrite Hperm. apply Forall_app. split; [done|].
        apply Forall_singleton. auto.
      * assert (side = opp oside) as -> by (by destruct side, oside).
        rewrite <- opposite_own, opposite_set_queues. done.
    + intros side. simpl.
      destruct (decide (side = oside)) as [->|Hne].
      * rewrite own_set_queues.
        destruct Hown' as [->|(Ht & Hp & _)]; [done|].
        destruct (heappush_spec _ _ _ (cmp_rank s' oside) own order Hownp
                    (Hordp Ht)) as (own'' & Hrun'' & _ & Hord).
        pose proof (eq_trans (eq_sym Hrun'') Hp) as [= ->]. by apply Hord.
      * assert (side = opp oside) as -> by (by destruct side, oside).
        rewrite <- opposite_own, opposite_set_queues. done.
Qed.

Lemma delete_order_rank_inv r st st' :
  rank_inv st -> delete_order r st = Ok st' -> rank_inv st'.
Proof.
  intros [Hp Hh] Hrun. apply delete_order_Ok in Hrun as (o & Ho & ->).
  assert (same_rank (objs st) (<[r := with_quantity o 0]> (objs st))) as Hk
    by by apply (same_rank_insert _ r o).
  split; simpl.
  - intros side. eapply Forall_impl; [apply Hp|].
    intros x. by apply priced_same_rank.
  - intros side. by apply (heap_ordered_same_rank (objs st)).
Qed.

(** A session without modifications keeps the queues heaps for [<]. *)
Lemma run_rank_inv calls : forall st,
  rank_inv st -> session_okb (length (objs st)) calls = true ->
  forallb no_modifyb calls = true ->
  exists st', run calls st = Ok st' /\ rank_inv st'.
Proof.
  induction calls as [|c calls IH]; intros st Hinv Hc Hm.
  - by exists st.
  - simpl in Hm. apply andb_true_iff in Hm as [Hmc Hms].
    pose proof (rank_inv_ok st Hinv) as Hok.
    destruct c as [oid side qty prc|oid side qty|r|r qty prc]; simpl in Hc;
      [| | |done].
    + apply andb_true_iff in Hc as [Hp%negb_true_iff Hcs].
      destruct (add_order_rank_inv oid LIMIT side qty prc (book_stock (book st))
                  st Hinv) as (st1 & h & tr & Hadd & Hinv1); [done|].
      simpl. rewrite Hadd. simpl. apply IH; [done| |done].
      by rewrite (add_order_length _ _ _ _ _ _ _ _ _ _ Hok Hadd).
    + destruct (add_order_rank_inv oid MARKET side qty float_inf
                  (book_stock (book st)) st Hinv)
        as (st1 & h & tr & Hadd & Hinv1); [done|].
      simpl. rewrite Hadd. simpl. apply IH; [done| |done].
      by rewrite (add_order_length _ _ _ _ _ _ _ _ _ _ Hok Hadd).
    + apply andb_true_iff in Hc as [Hr%Nat.ltb_lt Hcs].
      destruct (lookup_lt_is_Some_2 _ _ Hr) as [o Ho].
      assert (delete_order r st
              = Ok (mkState (<[r := with_quantity o 0]> (objs st)) (book st)))
        as Hdel.
      { unfold delete_order. by rewrite (set_quantity_Some _ _ _ _ Ho). }
      simpl. rewrite Hdel. simpl. apply IH; [|simpl|done].
      * by apply (delete_order_rank_inv r st).
      * by rewrite length_insert.
Qed.

(** X12: price-time priority without modifications.  After every session on a
    new book in which no order is modified (submissions and cancellations
    only), the first entry of each queue -- the order that the next incoming
    order is matched against -- is the first of its queue in the order of
    [Order.__lt__]: no entry of the queue is before it, so it has the best
    price, and no order at that price has a lower id. *)
Theorem time_priority_without_modify (calls : list call) (stk : string) :
  session_okb 0 calls = true -> forallb no_modifyb calls = true ->
  exists st,
    run calls (init_state stk) = Ok st /\
    forall side top x, head (own_queue side (book st)) = Some top ->
      x ∈ own_queue side (book st) ->
      exists otop ox, objs st !! top = Some otop /\ objs st !! x = Some ox /\
        Order_lt ox otop = Ok false.
Proof.
  intros Hc Hm.
  destruct (run_rank_inv calls (init_state stk) (rank_inv_init stk) Hc Hm)
    as (st & Hrun & [Hp Hh]).
  exists st. split; [done|]. intros side top x Hhd Hx.
  apply list_elem_of_lookup in Hx as [i Hi].
  rewrite head_lookup in Hhd.
  destruct (root_minimal _ _ _ (cmp_rank (objs st) side) _ top (Hh side) (Hp side)
              Hhd i x Hi) as (otop & ox & Ht & Hox & _ & _ & _ & _ & Hlt).
  by exists otop, ox.
Qed.

Lemma time_priority_without_modify_witness :
  exists st,
    run session_without_modify (init_state "STOCK") = Ok st /\
    forall side top x, head (own_queue side (book st)) = Some top ->
      x ∈ own_queue side (book st) ->
      exists otop ox, objs st !! top = Some otop /\ objs st !! x = Some ox /\
        Order_lt ox otop = Ok false.
Proof.
  apply (time_priority_without_modify session_without_modify "STOCK");
    reflexivity.
Defined.








(** The table of the witness; the cancelled ask at 12.00 has no row. *)
Example repr_of_session_to_print :
  exists st st',
    run session_to_print (init_state "STOCK") = Ok st /\
    Book_repr_rows st
    = Ok (st', ([(5, float_of_Z 11, 2); (5, float_of_Z 10, 3);
                 (5, float_of_Z 9, 1)],
                [(5, float_of_Z 13, 6); (5, float_of_Z 14, 4)])).
Proof. eexists _, _. split; vm_compute; reflexivity. Qed.

(** X14: a limit order is matched as long as it crosses.  A limit submission
    returns, and when the order is left with a quantity, the opposite
    queue is empty or its first entry is at a price that [compare] refuses
    for the limit price. *)
Theorem limit_order_is_matched_while_it_crosses (oid : Z) (side : Side)
    (qty : Z) (prc : price_t) (stk : string) (st : state) :
  book_okb st = true ->
  exists st' h trades o',
    add_order oid LIMIT side qty prc stk st = Ok (st', h, trades) /\
    objs st' !! h = Some o' /\
    (0 < quantity o' ->
     match head (opposite_queue side (book st')) with
     | None => True
     | Some top =>
         exists t, objs st' !! top = Some t /\ compare side prc (price t) = false
     end).
Proof.
  intros Hok%book_okb_spec.
  destruct (add_order_rule (fun _ _ _ _ => True) oid LIMIT side qty prc stk st Hok)
    as (s' & q' & top' & trades & o' & own' & Hrun & Hkeys & Ho' & _ & _
        & _ & Hexit & _); [done|done|].
  eexists _, _, trades, o'. split; [exact Hrun|]. simpl.
  split; [done|]. intros Hpos. rewrite opposite_set_queues.
  pose proof (same_keys_price _ s' (length (objs st)) _ o' Hkeys
                (lookup_alloc _ _) Ho') as Hprc.
  simpl in Hprc.
  destruct Hexit as [->|[(o1 & Ho1 & Hle)|(o1 & top & t & Ho1 & Hhd & Ht & Hc)]].
  - done.
  - pose proof (eq_trans (eq_sym Ho1) Ho') as [= ->]. lia.
  - pose proof (eq_trans (eq_sym Ho1) Ho') as [= ->].
    rewrite Hhd. exists t. split; [done|]. by rewrite <- Hprc.
Qed.

Lemma limit_order_is_matched_while_it_crosses_witness :
  exists st' h trades o',
    add_order 2 LIMIT BUY 150 (float_of_Z 11) "STOCK" one_ask
    = Ok (st', h, trades) /\
    objs st' !! h = Some o' /\
    (0 < quantity o' ->
     match head (opposite_queue BUY (book st')) with
     | None => True
     | Some top =>
         exists t, objs st' !! top = Some t /\
           compare BUY (float_of_Z 11) (price t) = false
     end).
Proof.
  apply (limit_order_is_matched_while_it_crosses 2 BUY 150 (float_of_Z 11)
           "STOCK" one_ask).
  reflexivity.
Defined.

Example engine_example :
  exists e,
    execute_all int_example float_example
      [["limit"; "sell"; "10.00"; "100"]; ["market"; "buy"; "150"];
       ["cancel"; "order"; "2"]; ["limit"; "buy"; "11.00"; "-5"];
       ["print"; "book"]; ["change"; "order"; "3"; "10.00"; "100"];
       ["cancel"; "order"; "1"]; ["bogus"]]
      MatchingEngine_init
    = Ok (e, [[ORDER_CREATED_MESSAGE
                 (mkOrder 1 LIMIT SELL 100 (float_of_Z 10) "STOCK")];
              [TRADE_MESSAGE (float_of_Z 10) 100];
              [INACTIVE_ORDER_ERROR_MESSAGE];
              [ORDER_CREATED_MESSAGE
                 (mkOrder 3 LIMIT BUY (-5) (float_of_Z 11) "STOCK")];
              [BOOK_TABLE [] []];
              [ORDER_CHANGED_MESSAGE
                 (mkOrder 3 LIMIT BUY 100 (float_of_Z 10) "STOCK")];
              [INACTIVE_ORDER_ERROR_MESSAGE];
              [PARSING_ERROR_MESSAGE]]).
Proof. eexists. vm_compute. reflexivity. Qed.

(** A submission on a well-formed book returns and leaves it well formed;
    the order it creates carries the id and the instrument it was given,
    and the orders that existed keep theirs. *)
Lemma add_order_ok oid otype oside qty prc stk st :
  book_ok st ->
  exists st' trades o',
    add_order oid otype oside qty prc stk st
    = Ok (st', length (objs st), trades) /\
    book_ok st' /\
    objs st' !! length (objs st) = Some o' /\
    order_id o' = oid /\ stock o' = stk /\
    forall r o, objs st !! r = Some o ->
      exists o1, objs st' !! r = Some o1 /\ order_id o1 = order_id o /\
        stock o1 = stock o.
Proof.
  intros Hok.
  destruct (add_order_rule (fun _ _ _ _ => True) oid otype oside qty prc stk st Hok)
    as (s' & q' & top' & trades & o' & own' & Hrun & Hkeys & Ho' & Hq' & Hown
        & _ & _ & Hpush); [done|done|].
  assert (on_side s' oside (length (objs st))) as Hord.
  { eapply on_side_same_keys; [done|]. by apply submission_order. }
  destruct (submission_new_order _ _ _ _ _ _ _ _ _ _ Hok Hrun)
    as (_ & o1 & Ho1 & Hid & _ & _ & _ & Hstk).
  simpl in Ho1. pose proof (eq_trans (eq_sym Ho1) Ho') as [= ->].
  eexists _, trades, o'. split; [exact Hrun|]. simpl.
  split; [|split; [done|split; [done|split; [done|]]]].
  - intros side. simpl.
    destruct (decide (side = oside)) as [->|Hne].
    + rewrite own_set_queues. destruct otype.
      * by rewrite Hpush.
      * destruct (0 <? quantity o').
        -- destruct Hpush as [_ Hperm]. rewrite Hperm.
           apply Forall_app. split; [done|]. by apply Forall_singleton.
        -- by rewrite Hpush.
    + assert (side = opp oside) as -> by (by destruct side, oside).
      rewrite <- opposite_own, opposite_set_queues. done.
  - intros r o Hr.
    destruct (submission_frame _ _ _ _ _ _ _ _ _ _ Hok Hrun r o Hr)
      as (o2 & Ho2 & (_ & _ & _ & Hk) & Hid2 & _).
    by exists o2.
Qed.

Lemma on_book_Ok {A : Type} e stk b (method : state -> result (state * A)) st' a :
  books_map e !! stk = Some b ->
  method (mkState (engine_objs e) b) = Ok (st', a) ->
  on_book e stk method
  = Ok (mkEngine (uid e) (<[stk := book st']> (books_map e)) (orders_map e)
          (loop e) (objs st'), a).
Proof. intros Hb Hm. unfold on_book. rewrite Hb, Hm. done. Qed.

Lemma error_output_trades t trades tail :
  error_output (trade_lines (t :: trades) ++ tail) = false.
Proof. done. Qed.

Lemma ids_step_eq e e' :
  uid e' = uid e -> orders_map e' = orders_map e -> ids_step e e'.
Proof.
  intros Hu Hm. split; [by left|]. intros id. rewrite Hm. split; [by left|].
  intros [?|[_ ?]]; [done|lia].
Qed.

Lemma ids_step_same e : ids_step e e.
Proof. by apply ids_step_eq. Qed.

Lemma step_ok_same e out : engine_inv e -> step_ok e e out.
Proof. intros Hinv. split; [done|]. split; [done|]. apply ids_step_same. Qed.

Section engine_facts.
Context (int : string -> option Z) (float : string -> option price_t).

(** The [limit] case on an engine that satisfies the invariant. *)
Lemma limit_case_spec w_side w_price w_qty e :
  engine_inv e ->
  exists e' out,
    limit_case int float w_side w_price w_qty e = Ok (e', out) /\
    step_ok e e' out /\ loop e' = loop e /\
    forall q p s,
      int w_qty = Some q -> float w_price = Some p ->
      parse_side w_side = Some s -> q <> 0 ->
      exists b st' trades o,
        books_map e !! "STOCK" = Some b /\
        add_order (uid e + 1) LIMIT s q p "STOCK" (mkState (engine_objs e) b)
        = Ok (st', length (engine_objs e), trades) /\
        objs st' !! length (engine_objs e) = Some o /\
        uid e' = uid e + 1 /\
        books_map e' !! "STOCK" = Some (book st') /\
        orders_map e'
        = <[uid e + 1 := length (engine_objs e)]> (orders_map e) /\
        engine_objs e' = objs st' /\
        out = match trades with
              | [] => [ORDER_CREATED_MESSAGE o]
              | _ :: _ =>
                  trade_lines trades ++
                  (if quantity o =? 0 then [] else [ORDER_CREATED_MESSAGE o])
              end.
Proof.
  intros Hinv. unfold limit_case, parse_quantity, parse_price.
  destruct (int w_qty) as [q|] eqn:Hq.
  2:{ eexists _, _. split; [done|]. split; [by apply step_ok_same|]. done. }
  destruct (float w_price) as [p|] eqn:Hp.
  2:{ eexists _, _. split; [done|]. split; [by apply step_ok_same|]. done. }
  destruct (parse_side w_side) as [s|] eqn:Hs.
  2:{ eexists _, _. split; [done|]. split; [by apply step_ok_same|]. done. }
  destruct (q =? 0) eqn:Hq0.
  { apply Z.eqb_eq in Hq0.
    eexists _, _. split; [done|]. split; [by apply step_ok_same|].
    split; [done|]. intros q' p' s' [= <-] _ _ ?. done. }
  apply Z.eqb_neq in Hq0.
  destruct Hinv as ((b & Hb & Hok) & Hmap & Huid).
  destruct (add_order_ok (uid e + 1) LIMIT s q p "STOCK" _ Hok)
    as (st' & trades & o & Hadd & Hok' & Ho & Hid & Hstk & Hframe).
  simpl in Hadd, Ho, Hframe.
  set (e3 := mkEngine (uid e + 1) (<["STOCK" := book st']> (books_map e))
               (<[uid e + 1 := length (engine_objs e)]> (orders_map e))
               (loop e) (objs st')).
  set (out := match trades with
              | [] => [ORDER_CREATED_MESSAGE o]
              | _ :: _ =>
                  trade_lines trades ++
                  (if quantity o =? 0 then [] else [ORDER_CREATED_MESSAGE o])
              end).
  exists e3, out. split.
  { simpl.
    rewrite (on_book_Ok _ "STOCK" b _ st' (length (engine_objs e), trades));
      [|done|by simpl; rewrite Hadd].
    simpl. unfold set_order. simpl. fold e3.
    destruct trades as [|t trades].
    - by rewrite (deref_Some _ _ _ Ho).
    - unfold is_active_order. simpl. rewrite lookup_insert_eq.
      rewrite (deref_Some _ _ _ Ho). simpl.
      unfold out. destruct (quantity o =? 0); simpl; [|done].
      by rewrite app_nil_r. }
  assert (engine_inv e3) as Hinv3.
  { split; [|split; [|simpl; lia]].
    - exists (book st'). simpl. split; [by rewrite lookup_insert_eq|].
      by destruct st'.
    - intros id r Hr. simpl in *.
      destruct (decide (id = uid e + 1)) as [->|Hne].
      + rewrite lookup_insert_eq in Hr. injection Hr as <-.
        exists o. split; [done|]. split; [done|]. split; [done|]. lia.
      + rewrite lookup_insert_ne in Hr by done.
        destruct (Hmap id r Hr) as (x & Hx & Hxs & Hxid & Hrange).
        destruct (Hframe r x Hx) as (x1 & Hx1 & Hid1 & Hs1).
        exists x1. split; [done|]. split; [congruence|]. split; [congruence|].
        lia. }
  split.
  { split; [done|]. split.
    { unfold out. intros Hout. destruct trades; [done|].
      by rewrite error_output_trades in Hout. }
    split; [by right|]. intros id. simpl.
    rewrite lookup_insert_is_Some. split.
    - intros [<-|[_ ?]]; [by right | by left].
    - intros [?|[-> _]]; [|by left].
      destruct (decide (uid e + 1 = id)); [by left | by right]. }
  split; [done|].
  intros q' p' s' [= <-] [= <-] [= <-] _.
  exists b, st', trades, o. split_and!; try done.
  simpl. apply lookup_insert_eq.
Qed.
(** The [market] case: the order that it creates is left without a
    quantity. *)
Lemma market_case_spec w_side w_qty e :
  engine_inv e ->
  exists e' out,
    market_case int w_side w_qty e = Ok (e', out) /\
    step_ok e e' out /\ loop e' = loop e /\
    (error_output out = false ->
     exists o,
       uid e' = uid e + 1 /\
       orders_map e'
       = <[uid e + 1 := length (engine_objs e)]> (orders_map e) /\
       engine_objs e' !! length (engine_objs e) = Some o /\
       quantity o = 0).
Proof.
  intros Hinv. unfold market_case, parse_quantity.
  destruct (int w_qty) as [q|] eqn:Hq.
  2:{ eexists _, _. split; [done|]. split; [by apply step_ok_same|]. done. }
  destruct (parse_side w_side) as [s|] eqn:Hs.
  2:{ eexists _, _. split; [done|]. split; [by apply step_ok_same|]. done. }
  destruct (q =? 0) eqn:Hq0.
  { eexists _, _. split; [done|]. split; [by apply step_ok_same|]. done. }
  apply Z.eqb_neq in Hq0.
  destruct Hinv as ((b & Hb & Hok) & Hmap & Huid).
  destruct (add_order_ok (uid e + 1) MARKET s q float_inf "STOCK" _ Hok)
    as (st' & trades & o & Hadd & Hok' & Ho & Hid & Hstk & Hframe).
  simpl in Hadd, Ho, Hframe.
  set (h := length (engine_objs e)) in *.
  set (e4 := mkEngine (uid e + 1)
               (<["STOCK" := book st']> (<["STOCK" := book st']> (books_map e)))
               (<[uid e + 1 := h]> (orders_map e))
               (loop e) (<[h := with_quantity o 0]> (objs st'))).
  set (out := match trades with
              | [] => [NO_LIQUIDITY_MESSAGE]
              | _ :: _ => trade_lines trades
              end).
  assert (error_output out = false) as Hout.
  { unfold out. by destruct trades. }
  exists e4, out. split.
  { simpl.
    rewrite (on_book_Ok _ "STOCK" b _ st' (h, trades));
      [|done|by simpl; rewrite Hadd].
    simpl. unfold set_order. simpl.
    rewrite (on_book_Ok _ "STOCK" (book st') _
               (mkState (<[h := with_quantity o 0]> (objs st')) (book st')) tt).
    - simpl. fold e4. unfold out. by destruct trades.
    - simpl. apply lookup_insert_eq.
    - simpl. unfold delete_order. simpl.
      by rewrite (set_quantity_Some _ _ _ _ Ho). }
  assert (engine_inv e4) as Hinv4.
  { split; [|split; [|simpl; lia]].
    - exists (book st'). simpl. split; [by rewrite lookup_insert_eq|].
      apply (book_ok_same_keys (objs st')); [by apply same_keys_quantity|].
      by destruct st'.
    - intros id r Hr. simpl in *.
      destruct (decide (id = uid e + 1)) as [->|Hne].
      + rewrite lookup_insert_eq in Hr. injection Hr as <-.
        exists (with_quantity o 0).
        split; [apply list_lookup_insert_eq; by eapply lookup_lt_Some|].
        simpl. split; [done|]. split; [done|]. lia.
      + rewrite lookup_insert_ne in Hr by done.
        destruct (Hmap id r Hr) as (x & Hx & Hxs & Hxid & Hrange).
        destruct (Hframe r x Hx) as (x1 & Hx1 & Hid1 & Hs1).
        exists x1. split.
        { rewrite list_lookup_insert_ne; [done|].
          apply lookup_lt_Some in Hx. unfold h. lia. }
        split; [congruence|]. split; [congruence|]. lia. }
  split.
  { split; [done|]. split; [by rewrite Hout|].
    split; [by right|]. intros id. simpl.
    rewrite lookup_insert_is_Some. split.
    - intros [<-|[_ ?]]; [by right | by left].
    - intros [?|[-> _]]; [|by left].
      destruct (decide (uid e + 1 = id)); [by left | by right]. }
  split; [done|]. intros _.
  exists (with_quantity o 0). split_and!; try done.
  simpl. apply list_lookup_insert_eq. by eapply lookup_lt_Some.
Qed.

(** The [cancel order] case: after a cancellation the order is inactive,
    and the same command is answered by the error for inactive orders. *)
Lemma cancel_case_spec w_id e :
  engine_inv e ->
  exists e' out,
    cancel_case int w_id e = Ok (e', out) /\
    step_ok e e' out /\ loop e' = loop e /\
    (out = [ORDER_CANCELLED_MESSAGE] ->
     cancel_case int w_id e'
     = Ok (e', [INACTIVE_ORDER_ERROR_MESSAGE]) /\
     books_map e' = books_map e /\
     exists id r o, int w_id = Some id /\ orders_map e !! id = Some r /\
       engine_objs e !! r = Some o /\ quantity o <> 0 /\
       engine_objs e' = <[r := with_quantity o 0]> (engine_objs e)).
Proof.
  intros Hinv. unfold cancel_case, parse_order_id.
  destruct (int w_id) as [id|] eqn:Hid.
  2:{ eexists _, _. split; [done|]. split; [by apply step_ok_same|]. done. }
  destruct (orders_map e !! id) as [r|] eqn:Hr.
  2:{ eexists _, _. split; [done|]. split; [by apply step_ok_same|]. done. }
  pose proof Hinv as ((b & Hb & Hok) & Hmap & Huid).
  destruct (Hmap id r Hr) as (o & Ho & Hstk & Hoid & Hrange).
  unfold is_active_order. rewrite Hr, (deref_Some _ _ _ Ho). simpl.
  destruct (quantity o =? 0) eqn:Hq; simpl.
  { eexists _, _. split; [done|]. split; [by apply step_ok_same|]. done. }
  apply Z.eqb_neq in Hq.
  rewrite ?(deref_Some _ _ _ Ho). simpl. rewrite Hstk.
  set (e1 := mkEngine (uid e) (<["STOCK" := b]> (books_map e)) (orders_map e)
               (loop e) (<[r := with_quantity o 0]> (engine_objs e))).
  assert (<[r := with_quantity o 0]> (engine_objs e) !! r
          = Some (with_quantity o 0)) as Ho1.
  { apply list_lookup_insert_eq. by eapply lookup_lt_Some. }
  exists e1, [ORDER_CANCELLED_MESSAGE]. split.
  { rewrite (on_book_Ok _ "STOCK" b _
               (mkState (<[r := with_quantity o 0]> (engine_objs e)) b) tt);
      [done|done|].
    unfold delete_order. simpl. by rewrite (set_quantity_Some _ _ _ _ Ho). }
  assert (engine_inv e1) as Hinv1.
  { split; [|split; [|done]].
    - exists b. simpl. split; [by rewrite lookup_insert_eq|].
      apply (book_ok_same_keys (engine_objs e)); [by apply same_keys_quantity|].
      done.
    - intros id' r' Hr'. simpl in *.
      destruct (Hmap id' r' Hr') as (x & Hx & Hxs & Hxid & Hrange').
      destruct (decide (r' = r)) as [->|Hne].
      + pose proof (eq_trans (eq_sym Hx) Ho) as [= ->].
        exists (with_quantity o 0). split; [done|]. done.
      + exists x. rewrite list_lookup_insert_ne by done. done. }
  split.
  { split; [done|]. split; [done|]. by apply ids_step_eq. }
  split; [done|]. intros _. split; [|split].
  - unfold e1. simpl. rewrite Hr. rewrite (deref_Some _ _ _ Ho1). done.
  - simpl. by apply insert_id.
  - exists id, r, o. done.
Qed.

(** The [change order] case: the id of the order is afterwards the id of
    the order that replaces it. *)
Lemma change_case_spec w_id w_price w_qty e :
  engine_inv e ->
  exists e' out,
    change_case int float w_id w_price w_qty e = Ok (e', out) /\
    step_ok e e' out /\ loop e' = loop e /\
    (error_output out = false ->
     exists id p q r o o',
       int w_id = Some id /\ float w_price = Some p /\ int w_qty = Some q /\
       q <> 0 /\ orders_map e !! id = Some r /\
       engine_objs e !! r = Some o /\ quantity o <> 0 /\
       orders_map e' = <[id := length (engine_objs e)]> (orders_map e) /\
       engine_objs e' !! r = Some (retired o) /\
       engine_objs e' !! length (engine_objs e) = Some o' /\
       order_id o' = id /\ order_side o' = order_side o /\
       order_type o' = order_type o /\ price o' = p).
Proof.
  intros Hinv. unfold change_case, parse_order_id, parse_price, parse_quantity.
  destruct (int w_id) as [id|] eqn:Hid.
  2:{ eexists _, _. split; [done|]. split; [by apply step_ok_same|]. done. }
  destruct (float w_price) as [p|] eqn:Hp.
  2:{ eexists _, _. split; [done|]. split; [by apply step_ok_same|]. done. }
  destruct (int w_qty) as [q|] eqn:Hq.
  2:{ eexists _, _. split; [done|]. split; [by apply step_ok_same|]. done. }
  destruct (q =? 0) eqn:Hq0.
  { eexists _, _. split; [done|]. split; [by apply step_ok_same|]. done. }
  apply Z.eqb_neq in Hq0.
  destruct (orders_map e !! id) as [r|] eqn:Hr.
  2:{ eexists _, _. split; [done|]. split; [by apply step_ok_same|]. done. }
  pose proof Hinv as ((b & Hb & Hok) & Hmap & Huid).
  destruct (Hmap id r Hr) as (o & Ho & Hstk & Hoid & Hrange).
  unfold is_active_order. rewrite Hr, (deref_Some _ _ _ Ho). simpl.
  destruct (quantity o =? 0) eqn:Hqo; simpl.
  { eexists _, _. split; [done|]. split; [by apply step_ok_same|]. done. }
  apply Z.eqb_neq in Hqo.
  rewrite ?(deref_Some _ _ _ Ho). simpl. rewrite Hstk.
  pose proof (lookup_lt_Some _ _ _ Ho) as Hrlt.
  set (st1 := mkState (<[r := retired o]> (engine_objs e)) b).
  assert (book_ok st1) as Hok1
    by apply (book_ok_retired (mkState (engine_objs e) b) r o Ho Hok).
  destruct (add_order_ok (order_id o) (order_type o) (order_side o) q p
              (stock o) st1 Hok1)
    as (st' & trades & o' & Hadd & Hok' & Ho' & Hid' & Hstk' & Hframe).
  assert (length (objs st1) = length (engine_objs e)) as Hlen
    by (simpl; by rewrite length_insert).
  rewrite Hlen in Hadd, Ho'.
  set (h := length (engine_objs e)) in *.
  assert (modify_order r q p (mkState (engine_objs e) b)
          = Ok (st', h, trades)) as Hmod.
  { by rewrite (modify_order_unfold r q p (mkState (engine_objs e) b) o Ho). }
  destruct (submission_new_order _ _ _ _ _ _ _ _ _ _ Hok1 Hadd)
    as (_ & o2 & Ho2 & _ & Hty & Hsd & Hpr & _).
  rewrite Hlen in Ho2. pose proof (eq_trans (eq_sym Ho2) Ho') as [= ->].
  destruct (submission_frame _ _ _ _ _ _ _ _ _ _ Hok1 Hadd r (retired o))
    as (o3 & Ho3 & _ & _ & Hsame).
  { simpl. by apply list_lookup_insert_eq. }
  rewrite (Hsame eq_refl) in Ho3. clear Hsame.
  set (e2 := mkEngine (uid e) (<["STOCK" := book st']> (books_map e))
               (<[id := h]> (orders_map e)) (loop e) (objs st')).
  set (out := match trades with
              | [] => [ORDER_CHANGED_MESSAGE o']
              | _ :: _ =>
                  trade_lines trades ++
                  (if quantity o' =? 0 then [] else [ORDER_CHANGED_MESSAGE o'])
              end).
  exists e2, out. split.
  { rewrite (on_book_Ok _ "STOCK" b _ st' (h, trades));
      [|done|by rewrite Hmod].
    simpl. unfold set_order. simpl. fold e2.
    destruct trades as [|t trades].
    - by rewrite (deref_Some _ _ _ Ho').
    - unfold is_active_order. simpl. rewrite lookup_insert_eq.
      rewrite (deref_Some _ _ _ Ho'). simpl.
      unfold out. destruct (quantity o' =? 0); simpl; [|done].
      by rewrite app_nil_r. }
  assert (engine_inv e2) as Hinv2.
  { split; [|split; [|done]].
    - exists (book st'). simpl. split; [by rewrite lookup_insert_eq|].
      by destruct st'.
    - intros id' r' Hr'. simpl in *.
      destruct (decide (id' = id)) as [->|Hne].
      + rewrite lookup_insert_eq in Hr'. injection Hr' as <-.
        exists o'. split; [done|]. split; [congruence|].
        split; [congruence|]. done.
      + rewrite lookup_insert_ne in Hr' by done.
        destruct (Hmap id' r' Hr') as (x & Hx & Hxs & Hxid & Hrange').
        assert (r' <> r) as Hrr.
        { intros ->. pose proof (eq_trans (eq_sym Hx) Ho) as [= ->].
          congruence. }
        destruct (Hframe r' x) as (x1 & Hx1 & Hid1 & Hs1).
        { simpl. by rewrite list_lookup_insert_ne. }
        exists x1. split; [done|]. split; [congruence|].
        split; [congruence|]. done. }
  split.
  { split; [done|]. split.
    { unfold out. intros Hout. destruct trades; [done|].
      by rewrite error_output_trades in Hout. }
    split; [by left|]. intros id'. simpl.
    rewrite lookup_insert_is_Some. split.
    - intros [<-|[_ ?]]; [left; by rewrite Hr | by left].
    - intros [?|[_ ?]]; [|lia].
      destruct (decide (id = id')); [by left | by right]. }
  split; [done|]. intros _.
  exists id, p, q, r, o, o'. split_and!; try done. congruence.
Qed.

(** The [print book] case. *)
Lemma print_case_spec e :
  engine_inv e ->
  exists e' out,
    print_case e = Ok (e', out) /\ step_ok e e' out /\ loop e' = loop e.
Proof.
  intros ((b & Hb & Hok) & Hmap & Huid). unfold print_case.
  destruct (repr_rows_spec (mkState (engine_objs e) b) Hok)
    as (st' & bc & sc & Hrun & _ & _ & Hbook & Hsides & Hpre).
  simpl in *.
  rewrite (on_book_Ok _ "STOCK" b _ st' (bc, sc)); [|done|done].
  simpl. eexists _, _. split; [done|]. split; [|done].
  split; [|split; [done|]].
  - split; [|split; [|done]].
    + exists (book st'). simpl. split; [by rewrite lookup_insert_eq|].
      intros side. simpl. rewrite Hbook. simpl.
      eapply Forall_impl; [apply (Hok side)|]. intros r. apply Hsides.
    + intros id r Hr. simpl in *.
      destruct (Hmap id r Hr) as (x & Hx & Hrest).
      exists x. split; [by apply Hpre | done].
  - by apply ids_step_eq.
Qed.

(** [parse_and_execute] on an engine that satisfies the invariant: it
    returns, whatever the command. *)
Lemma parse_and_execute_spec cmd e :
  engine_inv e ->
  exists e' out,
    parse_and_execute int float cmd e = Ok (e', out) /\
    step_ok e e' out /\ (cmd <> ["exit"] -> loop e' = loop e).
Proof.
  intros Hinv.
  assert (forall out, exists e' out',
            Ok (e, out) = Ok (e', out') /\ step_ok e e' out' /\
            (cmd <> ["exit"] -> loop e' = loop e)) as Hsame.
  { intros out. exists e, out. split; [done|].
    split; [by apply step_ok_same | done]. }
  destruct cmd as [|w1 [|w2 [|w3 [|w4 [|w5 [|w6 cmd]]]]]]; simpl; try apply Hsame.
  - destruct (bool_decide (w1 = "exit")) eqn:Hexit.
    + apply bool_decide_eq_true in Hexit as ->.
      eexists _, _. split; [done|]. split; [|done].
      destruct Hinv as (Hbook & Hmap & Huid).
      split; [done|]. split; [done|]. by apply ids_step_eq.
    + destruct (bool_decide (w1 = "help")); apply Hsame.
  - destruct (bool_decide (w1 = "print") && bool_decide (w2 = "book"));
      [|apply Hsame].
    destruct (print_case_spec e Hinv) as (e' & out & Hrun & Hstep & Hloop).
    by exists e', out.
  - destruct (bool_decide (w1 = "market")).
    + destruct (market_case_spec w2 w3 e Hinv)
        as (e' & out & Hrun & Hstep & Hloop & _).
      by exists e', out.
    + destruct (bool_decide (w1 = "cancel") && bool_decide (w2 = "order"));
        [|apply Hsame].
      destruct (cancel_case_spec w3 e Hinv)
        as (e' & out & Hrun & Hstep & Hloop & _).
      by exists e', out.
  - destruct (bool_decide (w1 = "limit")); [|apply Hsame].
    destruct (limit_case_spec w2 w3 w4 e Hinv)
      as (e' & out & Hrun & Hstep & Hloop & _).
    by exists e', out.
  - destruct (bool_decide (w1 = "change") && bool_decide (w2 = "order"));
      [|apply Hsame].
    destruct (change_case_spec w3 w4 w5 e Hinv)
      as (e' & out & Hrun & Hstep & Hloop & _).
    by exists e', out.
Qed.

Lemma engine_inv_init : engine_inv MatchingEngine_init.
Proof.
  split; [|split; [|done]].
  - exists (Book_init "STOCK"). split; [done|]. intros side. by destruct side.
  - intros id r Hr. done.
Qed.

(** Every sequence of commands is executed to its end. *)
Lemma execute_all_spec cmds : forall e,
  engine_inv e ->
  exists e' msgs,
    execute_all int float cmds e = Ok (e', msgs) /\ engine_inv e' /\
    length msgs = length cmds /\ uid e <= uid e'.
Proof.
  induction cmds as [|cmd cmds IH]; intros e Hinv.
  - exists e, []. split; [done|]. split; [done|]. split; [done|]. lia.
  - destruct (parse_and_execute_spec cmd e Hinv)
      as (e1 & out & Hrun & (Hinv1 & _ & [Huid _]) & _).
    destruct (IH e1 Hinv1) as (e2 & msgs & Hrun2 & Hinv2 & Hlen & Hle).
    exists e2, (out :: msgs). simpl. rewrite Hrun. simpl. rewrite Hrun2. simpl.
    split; [done|]. split; [done|]. split; [by rewrite Hlen|]. lia.
Qed.
End engine_facts.

Lemma execute_all_init int float cmds :
  exists e msgs,
    execute_all int float cmds MatchingEngine_init = Ok (e, msgs) /\
    engine_inv e /\ length msgs = length cmds.
Proof.
  destruct (execute_all_spec int float cmds MatchingEngine_init engine_inv_init)
    as (e & msgs & Hrun & Hinv & Hlen & _).
  by exists e, msgs.
Qed.

Lemma repl_execute_all int float cmds : forall e printed,
  engine_inv e -> loop e = true ->
  forallb (fun cmd => negb (bool_decide (cmd = ["exit"]))) cmds = true ->
  exists e' msgs,
    execute_all int float cmds e = Ok (e', msgs) /\
    repl int float (cmds ++ [["exit"]]) e printed
    = Ok (mkEngine (uid e') (books_map e') (orders_map e') false (engine_objs e'),
          printed ++ msgs ++ [[EXIT_MESSAGE]]).
Proof.
  induction cmds as [|cmd cmds IH]; intros e printed Hinv Hloop Hc.
  - exists e, []. split; [done|]. simpl. by rewrite Hloop.
  - simpl in Hc. apply andb_true_iff in Hc as [Hcmd Hcs].
    apply negb_true_iff, bool_decide_eq_false in Hcmd.
    destruct (parse_and_execute_spec int float cmd e Hinv)
      as (e1 & out & Hrun & (Hinv1 & _) & Hl).
    destruct (IH e1 (printed ++ [out]) Hinv1) as (e2 & msgs & Hall & Hrepl);
      [by rewrite Hl | done |].
    exists e2, (out :: msgs). simpl. rewrite Hloop, Hrun. simpl.
    rewrite Hall. simpl. split; [done|].
    rewrite Hrepl. by rewrite <- app_assoc.
Qed.

(** X15: the engine never raises.  Whatever the commands, and whatever [int]
    and [float] make of their words, [parse_and_execute] returns a message
    for each command of a session that starts with a new engine. *)
Theorem engine_answers_every_command (int : string -> option Z)
    (float : string -> option price_t) (cmds : list (list string)) :
  exists e msgs,
    execute_all int float cmds MatchingEngine_init = Ok (e, msgs) /\
    length msgs = length cmds.
Proof.
  destruct (execute_all_init int float cmds) as (e & msgs & Hrun & _ & Hlen).
  by exists e, msgs.
Qed.

(** X16: [orders_map] is consistent.  After every session, each id that
    [orders_map] knows is mapped to an order of the instrument that carries
    this id, and the id is one of those given so far: between 1 and [uid].
    (An order that a change has replaced carries the id -1: it is no longer
    the order of any id.) *)
Theorem orders_map_gives_the_order_of_the_id (int : string -> option Z)
    (float : string -> option price_t) (cmds : list (list string)) :
  exists e msgs,
    execute_all int float cmds MatchingEngine_init = Ok (e, msgs) /\
    forall id r, orders_map e !! id = Some r ->
      exists o, engine_objs e !! r = Some o /\ order_id o = id /\
        stock o = "STOCK" /\ 0 < id <= uid e.
Proof.
  destruct (execute_all_init int float cmds)
    as (e & msgs & Hrun & (_ & Hmap & _) & _).
  exists e, msgs. split; [done|]. intros id r Hr.
  destruct (Hmap id r Hr) as (o & Ho & Hs & Hid & Hrange). by exists o.
Qed.

(** X17: an error changes nothing.  A command that is answered by an error
    message (or by the help text) leaves the engine as it was: no id is
    taken, no order is created or changed. *)
Theorem error_message_means_no_change (int : string -> option Z)
    (float : string -> option price_t) (cmds : list (list string))
    (cmd : list string) :
  exists e msgs e' out,
    execute_all int float cmds MatchingEngine_init = Ok (e, msgs) /\
    parse_and_execute int float cmd e = Ok (e', out) /\
    (error_output out = true -> e' = e).
Proof.
  destruct (execute_all_init int float cmds) as (e & msgs & Hrun & Hinv & _).
  destruct (parse_and_execute_spec int float cmd e Hinv)
    as (e' & out & Hrun' & (_ & Herr & _) & _).
  by exists e, msgs, e', out.
Qed.

(** X18: the ids are given in sequence.  A command takes the next id,
    [uid + 1], or none; the ids that [orders_map] knows afterwards are those
    it knew and the id taken, so that no id is forgotten or given twice. *)
Theorem ids_are_given_in_sequence (int : string -> option Z)
    (float : string -> option price_t) (cmds : list (list string))
    (cmd : list string) :
  exists e msgs e' out,
    execute_all int float cmds MatchingEngine_init = Ok (e, msgs) /\
    parse_and_execute int float cmd e = Ok (e', out) /\
    (uid e' = uid e \/ uid e' = uid e + 1) /\
    (forall id, is_Some (orders_map e' !! id) <->
       is_Some (orders_map e !! id) \/ (id = uid e + 1 /\ uid e' = uid e + 1)) /\
    (forall id, is_Some (orders_map e !! id) -> 0 < id <= uid e).
Proof.
  destruct (execute_all_init int float cmds)
    as (e & msgs & Hrun & Hinv & _).
  destruct (parse_and_execute_spec int float cmd e Hinv)
    as (e' & out & Hrun' & (_ & _ & Hu & Hids) & _).
  exists e, msgs, e', out. do 4 (split; [done|]).
  intros id [r Hr]. destruct Hinv as (_ & Hmap & _).
  by destruct (Hmap id r Hr) as (o & _ & _ & _ & Hrange).
Qed.

(** X19: a market order does not stay active.  When a [market] command is
    accepted, the order takes the next id and is left without a quantity,
    whether it was filled or not: it is inactive, and cancelling it is
    answered by the error for inactive orders. *)
Theorem market_order_is_inactive_afterwards (int : string -> option Z)
    (float : string -> option price_t) (cmds : list (list string))
    (w_side w_qty w_id : string) :
  exists e msgs e' out,
    execute_all int float cmds MatchingEngine_init = Ok (e, msgs) /\
    parse_and_execute int float ["market"; w_side; w_qty] e = Ok (e', out) /\
    (error_output out = false ->
     uid e' = uid e + 1 /\
     is_active_order e' (uid e') = Ok false /\
     (int w_id = Some (uid e') ->
      parse_and_execute int float ["cancel"; "order"; w_id] e'
      = Ok (e', [INACTIVE_ORDER_ERROR_MESSAGE]))).
Proof.
  destruct (execute_all_init int float cmds) as (e & msgs & Hrun & Hinv & _).
  destruct (market_case_spec int w_side w_qty e Hinv)
    as (e' & out & Hrun' & _ & _ & Hacc).
  exists e, msgs, e', out. split; [done|]. split; [done|].
  intros Hout. destruct (Hacc Hout) as (o & Hu & Hm & Ho & Hq).
  assert (orders_map e' !! uid e' = Some (length (engine_objs e))) as Hr.
  { rewrite Hm, Hu. apply lookup_insert_eq. }
  assert (is_active_order e' (uid e') = Ok false) as Hact.
  { unfold is_active_order. rewrite Hr, (deref_Some _ _ _ Ho). simpl.
    by rewrite Hq. }
  split; [done|]. split; [done|]. intros Hid.
  simpl. unfold cancel_case, parse_order_id. rewrite Hid, Hr, Hact. done.
Qed.

(** The session of the example: the market order has the id 2, and its
    cancellation is refused. *)
Example market_order_is_inactive_example :
  exists e,
    execute_all int_example float_example example_session MatchingEngine_init
    = Ok (e, [[ORDER_CREATED_MESSAGE
                 (mkOrder 1 LIMIT SELL 100 (float_of_Z 10) "STOCK")];
              [TRADE_MESSAGE (float_of_Z 10) 3];
              [INACTIVE_ORDER_ERROR_MESSAGE];
              [ORDER_CHANGED_MESSAGE
                 (mkOrder 1 LIMIT SELL 100 (float_of_Z 11) "STOCK")]]).
Proof. eexists. vm_compute. reflexivity. Qed.

(** X20: a cancellation is final.  When [cancel order] is answered by the
    message of a cancellation, the order had a quantity and is left without
    one, the queues of the book are what they were (the order stays where
    it is), and the same command again is answered by the error for
    inactive orders and changes nothing. *)
Theorem cancelling_twice_reports_inactive (int : string -> option Z)
    (float : string -> option price_t) (cmds : list (list string))
    (w_id : string) :
  exists e msgs e' out,
    execute_all int float cmds MatchingEngine_init = Ok (e, msgs) /\
    parse_and_execute int float ["cancel"; "order"; w_id] e = Ok (e', out) /\
    (out = [ORDER_CANCELLED_MESSAGE] ->
     parse_and_execute int float ["cancel"; "order"; w_id] e'
     = Ok (e', [INACTIVE_ORDER_ERROR_MESSAGE]) /\
     books_map e' = books_map e /\
     exists id r o, int w_id = Some id /\ orders_map e !! id = Some r /\
       engine_objs e !! r = Some o /\ quantity o <> 0 /\
       engine_objs e' = <[r := with_quantity o 0]> (engine_objs e)).
Proof.
  destruct (execute_all_init int float cmds) as (e & msgs & Hrun & Hinv & _).
  destruct (cancel_case_spec int w_id e Hinv)
    as (e' & out & Hrun' & _ & _ & Hacc).
  by exists e, msgs, e', out.
Qed.

(** X21: a negative quantity is accepted.  The engine refuses the quantity 0
    only: a [limit] command with a negative quantity is answered by the
    message of a creation; the order takes the next id and counts as
    active, but there is no trade and the book is what it was. *)
Theorem negative_quantity_order_is_accepted (int : string -> option Z)
    (float : string -> option price_t) (cmds : list (list string))
    (w_side w_price w_qty : string) (s : Side) (p : price_t) (q : Z) :
  int w_qty = Some q -> q < 0 -> float w_price = Some p ->
  parse_side w_side = Some s ->
  exists e msgs e',
    execute_all int float cmds MatchingEngine_init = Ok (e, msgs) /\
    parse_and_execute int float ["limit"; w_side; w_price; w_qty] e
    = Ok (e', [ORDER_CREATED_MESSAGE (mkOrder (uid e + 1) LIMIT s q p "STOCK")]) /\
    books_map e' !! "STOCK" = books_map e !! "STOCK" /\
    is_active_order e' (uid e + 1) = Ok true.
Proof.
  intros Hq Hneg Hp Hs.
  destruct (execute_all_init int float cmds) as (e & msgs & Hrun & Hinv & _).
  destruct (limit_case_spec int float w_side w_price w_qty e Hinv)
    as (e' & out & Hrun' & _ & _ & Hacc).
  destruct (Hacc q p s Hq Hp Hs) as (b & st' & trades & o & Hb & Hadd & Ho & Hu
    & Hb' & Hm & Hobjs & Hout); [lia|].
  unfold add_order in Hadd. simpl in Hadd.
  rewrite (deref_Some _ _ _ (lookup_alloc (engine_objs e) _)) in Hadd.
  simpl in Hadd.
  rewrite (add_limit_order_nonpositive (length (engine_objs e))
             (mkState (engine_objs e
                       ++ [mkOrder (uid e + 1) LIMIT s q p "STOCK"]) b) _
             (lookup_alloc (engine_objs e) _)) in Hadd by (simpl; lia).
  injection Hadd as <- <-. simpl in *.
  rewrite lookup_alloc in Ho. injection Ho as <-.
  exists e, msgs, e'. split; [done|]. split; [by rewrite <- Hout|].
  split; [by rewrite Hb, Hb'|].
  unfold is_active_order. rewrite Hm, lookup_insert_eq, Hobjs.
  rewrite (deref_Some _ _ _ (lookup_alloc _ _)). simpl.
  f_equal. apply negb_true_iff, Z.eqb_neq. lia.
Qed.

Lemma negative_quantity_order_is_accepted_witness :
  exists e msgs e',
    execute_all int_example float_example example_session MatchingEngine_init
    = Ok (e, msgs) /\
    parse_and_execute int_example float_example
      ["limit"; "buy"; "11.00"; "-5"] e
    = Ok (e', [ORDER_CREATED_MESSAGE
                 (mkOrder (uid e + 1) LIMIT BUY (-5) (float_of_Z 11) "STOCK")]) /\
    books_map e' !! "STOCK" = books_map e !! "STOCK" /\
    is_active_order e' (uid e + 1) = Ok true.
Proof.
  apply (negative_quantity_order_is_accepted int_example float_example
           example_session "buy" "11.00" "-5" BUY (float_of_Z 11) (-5));
    [reflexivity | lia | reflexivity | reflexivity].
Defined.

(** X22: a change gives the id to a new order.  When [change order] is
    accepted, the order of the id is replaced: the id is mapped to a new
    order object that carries the id, with the side and the type of the
    old order and the new price, while the old order object is relabelled
    -1 and left without a quantity. *)
Theorem change_order_gives_the_id_to_a_new_order (int : string -> option Z)
    (float : string -> option price_t) (cmds : list (list string))
    (w_id w_price w_qty : string) :
  exists e msgs e' out,
    execute_all int float cmds MatchingEngine_init = Ok (e, msgs) /\
    parse_and_execute int float ["change"; "order"; w_id; w_price; w_qty] e
    = Ok (e', out) /\
    (error_output out = false ->
     exists id p r o r' o',
       int w_id = Some id /\ float w_price = Some p /\
       orders_map e !! id = Some r /\ engine_objs e !! r = Some o /\
       orders_map e' !! id = Some r' /\ r' <> r /\
       engine_objs e' !! r' = Some o' /\
       order_id o' = id /\ order_side o' = order_side o /\
       order_type o' = order_type o /\ price o' = p /\
       engine_objs e' !! r = Some (retired o)).
Proof.
  destruct (execute_all_init int float cmds) as (e & msgs & Hrun & Hinv & _).
  destruct (change_case_spec int float w_id w_price w_qty e Hinv)
    as (e' & out & Hrun' & _ & _ & Hacc).
  exists e, msgs, e', out. split; [done|]. split; [done|]. intros Hout.
  destruct (Hacc Hout) as (id & p & q & r & o & o' & Hid & Hp & Hq & Hq0 & Hr
    & Ho & Hqo & Hm & Hold & Hnew & Hoid & Hside & Htype & Hprice).
  exists id, p, r, o, (length (engine_objs e)), o'.
  split_and!; try done.
  - rewrite Hm. apply lookup_insert_eq.
  - apply lookup_lt_Some in Ho. lia.
Qed.

(** X23: the prompt stops at [exit].  [repl] does not read the commands that
    follow an [exit]: with or without them it ends in the same way. *)
Theorem repl_stops_at_exit (int : string -> option Z)
    (float : string -> option price_t) (cmds rest : list (list string))
    (e : MatchingEngine) (printed : list (list line)) :
  repl int float (cmds ++ ["exit"] :: rest) e printed
  = repl int float (cmds ++ [["exit"]]) e printed.
Proof.
  revert e printed. induction cmds as [|cmd cmds IH]; intros e printed.
  - simpl. destruct (loop e); [|done]. simpl. by destruct rest.
  - simpl. destruct (loop e); [|done].
    destruct (parse_and_execute int float cmd e) as [[e1 out]| |]; simpl; try done.
Qed.

(** X24: the prompt prints every answer.  On commands none of which is
    [exit], followed by [exit], [repl] on a new engine returns; it has
    printed the message of each command, in their order, and the message
    of the exit, and it leaves the engine that the commands lead to, with
    [loop] off. *)
Theorem repl_prints_every_answer (int : string -> option Z)
    (float : string -> option price_t) (cmds : list (list string)) :
  forallb (fun cmd => negb (bool_decide (cmd = ["exit"]))) cmds = true ->
  exists e msgs,
    execute_all int float cmds MatchingEngine_init = Ok (e, msgs) /\
    repl int float (cmds ++ [["exit"]]) MatchingEngine_init []
    = Ok (mkEngine (uid e) (books_map e) (orders_map e) false (engine_objs e),
          msgs ++ [[EXIT_MESSAGE]]).
Proof.
  intros Hc.
  destruct (repl_execute_all int float cmds MatchingEngine_init []
              engine_inv_init eq_refl Hc) as (e & msgs & Hall & Hrepl).
  by exists e, msgs.
Qed.

Lemma repl_prints_every_answer_witness :
  exists e msgs,
    execute_all int_example float_example example_session MatchingEngine_init
    = Ok (e, msgs) /\
    repl int_example float_example (example_session ++ [["exit"]])
      MatchingEngine_init []
    = Ok (mkEngine (uid e) (books_map e) (orders_map e) false (engine_objs e),
          msgs ++ [[EXIT_MESSAGE]]).
Proof.
  apply (repl_prints_every_answer int_example float_example example_session).
  reflexivity.
Defined.

Lemma compare_nan side x y : is_nan x = true -> compare side x y = false.
Proof.
  intros Hx. destruct x; try done.
  destruct side; simpl; unfold float_ge, float_le, SFleb; by destruct y.
Qed.

(** X25: a limit order whose price is a NaN never trades.  [compare] refuses
    every price for it, so the submission returns without a trade and
    leaves the opposite queue and every order as they were; the order is
    put in its own queue when its quantity is positive. *)
Theorem nan_limit_order_never_trades (oid : Z) (side : Side) (qty : Z)
    (prc : price_t) (stk : string) (st : state) :
  is_nan prc = true -> book_okb st = true ->
  exists st' h,
    add_order oid LIMIT side qty prc stk st = Ok (st', h, []) /\
    opposite_queue side (book st') = opposite_queue side (book st) /\
    (0 < qty -> h ∈ own_queue side (book st')) /\
    forall r o, objs st !! r = Some o -> objs st' !! r = Some o.
Proof.
  intros Hnan Hok%book_okb_spec.
  set (order := length (objs st)).
  set (s0 := objs st ++ [mkOrder oid LIMIT side qty prc stk]).
  destruct (add_order_rule
    (fun s q top tr =>
       s = s0 /\ q = opposite_queue side (book st) /\ tr = [])
    oid LIMIT side qty prc stk st Hok)
    as (s' & q' & top' & trades & o' & own' & Hrun & _ & Ho' & _ & _
        & (-> & -> & ->) & _ & Hpush).
  - intros s q top tr o t s1 q1 top1 tr1 Hwf (-> & -> & ->) Hhd Ho Ht Hpos Hcmp _.
    unfold s0, order in Ho. rewrite lookup_alloc in Ho. injection Ho as <-.
    simpl in Hcmp. by rewrite compare_nan in Hcmp.
  - done.
  - unfold s0 in Ho'. rewrite lookup_alloc in Ho'. injection Ho' as <-.
    simpl in Hpush.
    eexists _, _. split; [exact Hrun|]. simpl.
    rewrite opposite_set_queues, own_set_queues. split; [done|]. split.
    + intros Hpos%Z.ltb_lt. rewrite Hpos in Hpush. destruct Hpush as [_ Hperm].
      rewrite Hperm. apply elem_of_app. right. by apply list_elem_of_singleton.
    + intros r o Hr. by apply lookup_app_l_Some.
Qed.

Lemma nan_limit_order_never_trades_witness :
  exists st' h,
    add_order 2 LIMIT BUY 150 S754_nan "STOCK" one_ask = Ok (st', h, []) /\
    opposite_queue BUY (book st') = opposite_queue BUY (book one_ask) /\
    (0 < 150 -> h ∈ own_queue BUY (book st')) /\
    forall r o, objs one_ask !! r = Some o -> objs st' !! r = Some o.
Proof.
  apply (nan_limit_order_never_trades 2 BUY 150 S754_nan "STOCK" one_ask);
    reflexivity.
Defined.

(** With a NaN among the prices the book can be crossed: the ask without a
    price is the first entry of the sell queue, and a bid at 100.00 is not
    matched against the ask at 50.00 behind it; both rest with their
    quantities. *)
Example nan_ask_hides_a_better_ask :
  exists st,
    run session_with_nan (init_state "STOCK") = Ok st /\
    sell_queue (book st) = [0%nat; 1%nat] /\ buy_queue (book st) = [2%nat] /\
    objs st !! 1%nat = Some (mkOrder 2 LIMIT SELL 5 (float_of_Z 50) "STOCK") /\
    objs st !! 2%nat = Some (mkOrder 3 LIMIT BUY 5 (float_of_Z 100) "STOCK").
Proof. eexists. split; [vm_compute; reflexivity|]. by repeat split. Qed.
